(** * Integration Quest: combat, progression, effects, dice and generation

    A shallow embedding of the game engine of the repository
    (systems/dice.py, systems/effects.py, systems/progression.py,
    systems/combat.py, systems/generation.py, models/*.py and the
    [examine] / [attack] handlers of server.py) together with the
    properties of its specification.

    Conventions of the embedding.
    - Python [int] is [Z]; [//] and [%] with a positive divisor are [Z.div]
      and [Z.modulo]; [int(x)] of a float truncates toward zero ([Z.quot]).
    - Python [float] values that scale an integer (skill multipliers, the
      defence reduction, status modifiers, drop rates) are exact rationals
      ([Q]); the product of an integer and such a value is computed exactly
      before truncation.  For the constants of the code base (0.5, 1.25,
      1.0) and integers below 2^52 this is what IEEE doubles compute.
    - Python [str] is [string], read as a sequence of ASCII characters.
    - The module [random] is a tape of raw draws ([rng]); every call of
      [randint], [random], [choice], [choices] and every step of [shuffle]
      consumes one draw and reduces it into the requested range.
    - Exceptions are the [Raise] results of the monad [M].
    - In-place mutation is explicit state passing: a function that mutates
      an argument returns the new value of that argument.
    - Narrative messages are kept as structured values ([message]): the
      template that was used and the values interpolated into it. *)

From Stdlib Require Import ZArith QArith Ascii String List Lia.
From stdpp Require Import base option list strings pretty gmap.

Local Open Scope Z_scope.

(* ===================================================================== *)
(** * Python values, exceptions and the random source                    *)
(* ===================================================================== *)

Module Py.

(** Python exceptions.  [FuelExhausted] is not one of them: it marks a
    loop of the embedding that ran out of its iteration budget, and is
    shown never to occur. *)
Inductive exn : Type :=
| ValueError | IndexError | KeyError | TypeError | AttributeError
| ValidationError | FuelExhausted.

Inductive result (A : Type) : Type :=
| Ok (a : A)
| Raise (e : exn).
Arguments Ok {A} a.
Arguments Raise {A} e.

(** The random source: an infinite tape of raw draws and a cursor. *)
Record rng : Type := MkRng { tape : nat -> Z; cursor : nat }.

Definition M (A : Type) : Type := rng -> result (A * rng).

Definition ret {A} (a : A) : M A := fun g => Ok (a, g).
Definition bind {A B} (m : M A) (k : A -> M B) : M B :=
  fun g => match m g with
           | Ok (a, g') => k a g'
           | Raise e => Raise e
           end.
Definition raise {A} (e : exn) : M A := fun _ => Raise e.

(** One raw draw. *)
Definition draw : M Z :=
  fun g => Ok (tape g (cursor g), MkRng (tape g) (S (cursor g))).

(** [random.randint(a, b)]: uniform in [a, b]; ValueError on an empty
    range. *)
Definition randint (a b : Z) : M Z :=
  if b <? a then raise ValueError
  else bind draw (fun v => ret (a + v mod (b - a + 1))).

(** [random.random()]: a multiple of 2^-53 in [0, 1). *)
Definition random_random : M Q :=
  bind draw (fun v => ret (Qmake (v mod 2 ^ 53) (2 ^ 53)%positive)).

(** [random.choice(seq)]: IndexError on an empty sequence. *)
Definition random_choice {A} (l : list A) : M A :=
  match l with
  | [] => raise IndexError
  | x :: _ =>
      bind draw (fun v => ret (nth (Z.to_nat (v mod Z.of_nat (length l))) l x))
  end.

(** [random.choices(population, weights, k=1)[0]]: the first index whose
    cumulative weight exceeds [random() * total]; the last element when
    none does. *)
Fixpoint bisect {A} (pw : list (A * Q)) (acc r : Q) (last : A) : A :=
  match pw with
  | [] => last
  | (x, w) :: rest =>
      if Qle_bool (acc + w) r then bisect rest (acc + w)%Q r x else x
  end.

Definition random_choices {A} (pw : list (A * Q)) : M A :=
  match pw with
  | [] => raise IndexError
  | (x, _) :: _ =>
      let total := fold_left (fun s p => (s + snd p)%Q) pw 0%Q in
      bind random_random (fun u => ret (bisect pw 0%Q (u * total)%Q x))
  end.

(** [x[i], x[j] = x[j], x[i]] on a list. *)
Definition swap {A} (l : list A) (i j : nat) : list A :=
  match l !! i, l !! j with
  | Some a, Some b => <[ j := a ]> (<[ i := b ]> l)
  | _, _ => l
  end.

(** [random.shuffle(x)]: for i from len(x)-1 down to 1, swap x[i] with
    x[j] for a uniform j in [0, i]. *)
Fixpoint shuffle_from {A} (i : nat) (l : list A) : M (list A) :=
  match i with
  | O => ret l
  | S i' => bind draw (fun v =>
              shuffle_from i' (swap l i (Z.to_nat (v mod Z.of_nat (S i)))))
  end.

Definition shuffle {A} (l : list A) : M (list A) :=
  shuffle_from (Nat.pred (length l)) l.

(** [[f() for _ in range(n)]]. *)
Fixpoint replicateM {A} (n : nat) (m : M A) : M (list A) :=
  match n with
  | O => ret []
  | S n' => bind m (fun x => bind (replicateM n' m) (fun xs => ret (x :: xs)))
  end.

(** [sum(l)]. *)
Definition sum_list (l : list Z) : Z := fold_right Z.add 0 l.

(** [int(n * q)] for an integer [n] and a float [q]. *)
Definition int_mul (n : Z) (q : Q) : Z :=
  Z.quot (n * Qnum q) (Z.pos (Qden q)).

(** ** Strings *)

Definition is_digit (c : ascii) : bool :=
  let n := nat_of_ascii c in (48 <=? n)%nat && (n <=? 57)%nat.

Definition digit_val (c : ascii) : Z := Z.of_nat (nat_of_ascii c) - 48.

(** [str.isspace] on ASCII: TAB, LF, VT, FF, CR, FS, GS, RS, US, space. *)
Definition is_space (c : ascii) : bool :=
  let n := nat_of_ascii c in
  ((9 <=? n)%nat && (n <=? 13)%nat) || ((28 <=? n)%nat && (n <=? 32)%nat).

Definition lower_char (c : ascii) : ascii :=
  let n := nat_of_ascii c in
  if (65 <=? n)%nat && (n <=? 90)%nat then ascii_of_nat (n + 32) else c.

Definition chars (s : string) : list ascii := list_ascii_of_string s.

(** [s.lower()]. *)
Definition lower (s : list ascii) : list ascii := map lower_char s.

Fixpoint lstrip (s : list ascii) : list ascii :=
  match s with
  | c :: rest => if is_space c then lstrip rest else s
  | [] => []
  end.

(** [s.strip()]. *)
Definition strip (s : list ascii) : list ascii :=
  rev (lstrip (rev (lstrip s))).

Fixpoint is_prefix (p s : list ascii) : bool :=
  match p, s with
  | [], _ => true
  | a :: p', b :: s' => if Ascii.eqb a b then is_prefix p' s' else false
  | _ :: _, [] => false
  end.

(** [p in s] on strings. *)
Fixpoint contains (p s : list ascii) : bool :=
  is_prefix p s ||
  match s with
  | [] => false
  | _ :: s' => contains p s'
  end.

(** The longest prefix of digits, and what follows it. *)
Fixpoint span_digits (s : list ascii) : list ascii * list ascii :=
  match s with
  | c :: rest =>
      if is_digit c
      then let (ds, r) := span_digits rest in (c :: ds, r)
      else ([], s)
  | [] => ([], [])
  end.

(** The value of a sequence of decimal digits. *)
Definition digits_value (ds : list ascii) : Z :=
  fold_left (fun acc c => 10 * acc + digit_val c) ds 0.

(** The digit groups of an integer literal body: digits, with single
    underscores allowed between digits. *)
Fixpoint literal_digits (s : list ascii) (after_digit : bool) (acc : list ascii)
  : option (list ascii) :=
  match s with
  | [] => if after_digit then Some (rev acc) else None
  | c :: rest =>
      if is_digit c then literal_digits rest true (c :: acc)
      else if Ascii.eqb c "_"%char
           then if after_digit then literal_digits rest false acc else None
           else None
  end.

(** [int(s)] on a string: surrounding whitespace, an optional sign, then
    decimal digits.  [None] stands for ValueError. *)
Definition int_of_str (s : list ascii) : option Z :=
  let body := strip s in
  let (neg, ds) :=
    match body with
    | c :: rest =>
        if Ascii.eqb c "-"%char then (true, rest)
        else if Ascii.eqb c "+"%char then (false, rest)
        else (false, body)
    | [] => (false, [])
    end in
  match literal_digits ds false [] with
  | Some digits => Some (if neg then - digits_value digits else digits_value digits)
  | None => None
  end.

End Py.

Export Py.

Notation "'let*' x ':=' m 'in' k" := (bind m (fun x => k))
  (at level 10, x name, m at level 100, k at level 200).
Notation "'let*' ' p ':=' m 'in' k" := (bind m (fun x => let 'p := x in k))
  (at level 10, p pattern, m at level 100, k at level 200).

(* ===================================================================== *)
(** * config.py                                                           *)
(* ===================================================================== *)

Inductive Role : Type := warrior | mage | rogue | cleric.

Module Config.

(** [BASE_STATS]. *)
Definition BASE_HP : Z := 100.
Definition BASE_MP : Z := 50.

(** [CLASS_BONUSES[role]["hp_mod"]] and [["mp_mod"]]. *)
Definition hp_mod (r : Role) : Z :=
  match r with warrior => 20 | mage => -10 | rogue => 0 | cleric => 10 end.
Definition mp_mod (r : Role) : Z :=
  match r with warrior => -10 | mage => 30 | rogue => 0 | cleric => 15 end.

Definition MAX_INVENTORY_SIZE : nat := 20.
Definition DEFENSE_DAMAGE_REDUCTION : Q := 50 # 100.

(** The message tables, by the index of each template. *)
Definition LEVEL_UP_MESSAGES : list nat := seq 0 4.
Definition VICTORY_MESSAGES : list nat := seq 0 7.
Definition GAME_OVER_MESSAGES : list nat := seq 0 6.

(** The rest, flee and encounter settings. *)
Definition REST_HP_RECOVERY : Q := 50 # 100.
Definition REST_MP_RECOVERY : Q := 75 # 100.
Definition REST_ENCOUNTER_CHANCE : Q := 20 # 100.
Definition FLEE_BASE_CHANCE : Q := 50 # 100.

End Config.

(* ===================================================================== *)
(** * systems/dice.py                                                     *)
(* ===================================================================== *)

Module Dice.

(** [re.match(r'(\d+)d(\d+)([+-]\d+)?', s)]: the three groups, the third
    optional.  Both digit groups are the longest runs of digits (a
    shorter first group would have to be followed by a digit, not by
    [d]); the optional group is taken whenever a sign followed by at
    least one digit is present. *)
Definition dice_match (s : list ascii)
  : option (list ascii * list ascii * option (list ascii)) :=
  let (g1, r1) := span_digits s in
  match g1, r1 with
  | _ :: _, c :: r2 =>
      if Ascii.eqb c "d"%char then
        let (g2, r3) := span_digits r2 in
        match g2 with
        | [] => None
        | _ :: _ =>
            let g3 :=
              match r3 with
              | sg :: r4 =>
                  if Ascii.eqb sg "+"%char || Ascii.eqb sg "-"%char then
                    match fst (span_digits r4) with
                    | [] => None
                    | ds => Some (sg :: ds)
                    end
                  else None
              | [] => None
              end in
            Some (g1, g2, g3)
        end
      else None
  | _, _ => None
  end.

(** [int(match.group(3))]: a sign and digits. *)
Definition signed_value (g : list ascii) : Z :=
  match g with
  | sg :: ds =>
      if Ascii.eqb sg "-"%char then - digits_value ds else digits_value ds
  | [] => 0
  end.

Definition roll_dice (notation : string) : M (Z * list Z) :=
  match dice_match (strip (lower (chars notation))) with
  | None =>
      match int_of_str (chars notation) with
      | Some v => ret (v, [])
      | None => ret (0, [])
      end
  | Some (g1, g2, g3) =>
      let num_dice := digits_value g1 in
      let die_size := digits_value g2 in
      let modifier := match g3 with Some g => signed_value g | None => 0 end in
      let* rolls := replicateM (Z.to_nat num_dice) (randint 1 die_size) in
      let total := sum_list rolls + modifier in
      ret (Z.max 0 total, rolls)
  end.

Definition roll_d20 : M Z := randint 1 20.

Definition roll_percentage : M Q := random_random.

Definition critical_hit_check : M bool :=
  let* r := randint 1 20 in ret (r =? 20).

Definition critical_fail_check : M bool :=
  let* r := randint 1 20 in ret (r =? 1).

End Dice.

(** A random source that replays a finite list of draws, then zeros. *)
Definition rng_of_list (l : list Z) : rng :=
  MkRng (fun i => nth i l 0) 0.

Definition run {A} (m : M A) (draws : list Z) : result A :=
  match m (rng_of_list draws) with
  | Ok (a, _) => Ok a
  | Raise e => Raise e
  end.


(* ===================================================================== *)
(** * models/items.py                                                     *)
(* ===================================================================== *)

Inductive Tier : Type := common | uncommon | rare | legendary | epic.

Module Item.
Inductive ItemType : Type := weapon | armor | consumable.
Record t : Type := Make
  { id : string; name : string; description : string; tier : Tier;
    item_type : ItemType }.
End Item.

Module Weapon.
Record t : Type := Make
  { id : string; name : string; description : string; tier : Tier;
    damage_dice : string; special_effect : option string; drop_rate : Q }.
End Weapon.

Module Armor.
Record t : Type := Make
  { id : string; name : string; description : string; tier : Tier;
    protection : Z; special_effect : option string; drop_rate : Q }.
End Armor.

Module Consumable.
Inductive EffectType : Type :=
| heal_hp | heal_mp | cure_status | reveal_info | escape | buff | special.
Inductive EffectValue : Type := IntValue (n : Z) | StrValue (s : string).
Record t : Type := Make
  { id : string; name : string; description : string;
    effect_type : EffectType; effect_value : EffectValue; drop_rate : Q;
    single_use : bool }.
End Consumable.

(** [Weapon | Armor | Consumable]. *)
Inductive Loot : Type :=
| LootWeapon (w : Weapon.t)
| LootArmor (a : Armor.t)
| LootConsumable (c : Consumable.t).

(** [Item | Weapon | Armor | Consumable]. *)
Inductive AnyItem : Type :=
| BaseItem (i : Item.t)
| LootItem (l : Loot).

Definition loot_id (l : Loot) : string :=
  match l with
  | LootWeapon w => Weapon.id w
  | LootArmor a => Armor.id a
  | LootConsumable c => Consumable.id c
  end.

Definition loot_name (l : Loot) : string :=
  match l with
  | LootWeapon w => Weapon.name w
  | LootArmor a => Armor.name a
  | LootConsumable c => Consumable.name c
  end.

(** [item.tier]: a consumable has no such attribute. *)
Definition loot_tier (l : Loot) : option Tier :=
  match l with
  | LootWeapon w => Some (Weapon.tier w)
  | LootArmor a => Some (Armor.tier a)
  | LootConsumable _ => None
  end.

Definition item_id (i : AnyItem) : string :=
  match i with
  | BaseItem b => Item.id b
  | LootItem l => loot_id l
  end.

Module EquipmentSlots.
Record t : Type := Make
  { weapon : option Weapon.t; armor : option Armor.t;
    accessory : option string }.
Definition default : t := Make None None None.
End EquipmentSlots.

Module InventoryItem.
Record t : Type := Make { item : AnyItem; quantity : Z }.
End InventoryItem.

(* ===================================================================== *)
(** * models/hero.py                                                      *)
(* ===================================================================== *)

Module StatusEffect.
Inductive EffectType : Type :=
| rate_limited | auth_expired | transformed | buffered | cached
| debugging | throttled.

Definition EffectType_eqb (a b : EffectType) : bool :=
  match a, b with
  | rate_limited, rate_limited | auth_expired, auth_expired
  | transformed, transformed | buffered, buffered | cached, cached
  | debugging, debugging | throttled, throttled => true
  | _, _ => false
  end.

Record t : Type := Make
  { name : string; effect_type : EffectType; duration : Z;
    description : string; stat_modifier : option (list (string * Z)) }.

Definition set_duration (e : t) (d : Z) : t :=
  Make (name e) (effect_type e) d (description e) (stat_modifier e).
End StatusEffect.

Module Hero.
Record t : Type := Make
  { name : string; role : Role; level : Z; xp : Z;
    uptime : Z; max_uptime : Z; api_credits : Z; max_api_credits : Z;
    throughput : Z; formula_power : Z; rate_agility : Z;
    error_resilience : Z;
    inventory : list InventoryItem.t; equipped : EquipmentSlots.t;
    status_effects : list StatusEffect.t; gold : Z; skills : list string;
    recipe_fragments : Z }.

Definition set_level (h : t) (v : Z) : t :=
  Make (name h) (role h) v (xp h) (uptime h) (max_uptime h) (api_credits h)
    (max_api_credits h) (throughput h) (formula_power h) (rate_agility h)
    (error_resilience h) (inventory h) (equipped h) (status_effects h)
    (gold h) (skills h) (recipe_fragments h).
Definition set_xp (h : t) (v : Z) : t :=
  Make (name h) (role h) (level h) v (uptime h) (max_uptime h) (api_credits h)
    (max_api_credits h) (throughput h) (formula_power h) (rate_agility h)
    (error_resilience h) (inventory h) (equipped h) (status_effects h)
    (gold h) (skills h) (recipe_fragments h).
Definition set_uptime (h : t) (v : Z) : t :=
  Make (name h) (role h) (level h) (xp h) v (max_uptime h) (api_credits h)
    (max_api_credits h) (throughput h) (formula_power h) (rate_agility h)
    (error_resilience h) (inventory h) (equipped h) (status_effects h)
    (gold h) (skills h) (recipe_fragments h).
Definition set_max_uptime (h : t) (v : Z) : t :=
  Make (name h) (role h) (level h) (xp h) (uptime h) v (api_credits h)
    (max_api_credits h) (throughput h) (formula_power h) (rate_agility h)
    (error_resilience h) (inventory h) (equipped h) (status_effects h)
    (gold h) (skills h) (recipe_fragments h).
Definition set_api_credits (h : t) (v : Z) : t :=
  Make (name h) (role h) (level h) (xp h) (uptime h) (max_uptime h) v
    (max_api_credits h) (throughput h) (formula_power h) (rate_agility h)
    (error_resilience h) (inventory h) (equipped h) (status_effects h)
    (gold h) (skills h) (recipe_fragments h).
Definition set_max_api_credits (h : t) (v : Z) : t :=
  Make (name h) (role h) (level h) (xp h) (uptime h) (max_uptime h)
    (api_credits h) v (throughput h) (formula_power h) (rate_agility h)
    (error_resilience h) (inventory h) (equipped h) (status_effects h)
    (gold h) (skills h) (recipe_fragments h).
Definition set_throughput (h : t) (v : Z) : t :=
  Make (name h) (role h) (level h) (xp h) (uptime h) (max_uptime h)
    (api_credits h) (max_api_credits h) v (formula_power h) (rate_agility h)
    (error_resilience h) (inventory h) (equipped h) (status_effects h)
    (gold h) (skills h) (recipe_fragments h).
Definition set_formula_power (h : t) (v : Z) : t :=
  Make (name h) (role h) (level h) (xp h) (uptime h) (max_uptime h)
    (api_credits h) (max_api_credits h) (throughput h) v (rate_agility h)
    (error_resilience h) (inventory h) (equipped h) (status_effects h)
    (gold h) (skills h) (recipe_fragments h).
Definition set_rate_agility (h : t) (v : Z) : t :=
  Make (name h) (role h) (level h) (xp h) (uptime h) (max_uptime h)
    (api_credits h) (max_api_credits h) (throughput h) (formula_power h) v
    (error_resilience h) (inventory h) (equipped h) (status_effects h)
    (gold h) (skills h) (recipe_fragments h).
Definition set_error_resilience (h : t) (v : Z) : t :=
  Make (name h) (role h) (level h) (xp h) (uptime h) (max_uptime h)
    (api_credits h) (max_api_credits h) (throughput h) (formula_power h)
    (rate_agility h) v (inventory h) (equipped h) (status_effects h)
    (gold h) (skills h) (recipe_fragments h).
Definition set_inventory (h : t) (v : list InventoryItem.t) : t :=
  Make (name h) (role h) (level h) (xp h) (uptime h) (max_uptime h)
    (api_credits h) (max_api_credits h) (throughput h) (formula_power h)
    (rate_agility h) (error_resilience h) v (equipped h) (status_effects h)
    (gold h) (skills h) (recipe_fragments h).
Definition set_status_effects (h : t) (v : list StatusEffect.t) : t :=
  Make (name h) (role h) (level h) (xp h) (uptime h) (max_uptime h)
    (api_credits h) (max_api_credits h) (throughput h) (formula_power h)
    (rate_agility h) (error_resilience h) (inventory h) (equipped h) v
    (gold h) (skills h) (recipe_fragments h).
Definition set_gold (h : t) (v : Z) : t :=
  Make (name h) (role h) (level h) (xp h) (uptime h) (max_uptime h)
    (api_credits h) (max_api_credits h) (throughput h) (formula_power h)
    (rate_agility h) (error_resilience h) (inventory h) (equipped h)
    (status_effects h) v (skills h) (recipe_fragments h).
Definition set_recipe_fragments (h : t) (v : Z) : t :=
  Make (name h) (role h) (level h) (xp h) (uptime h) (max_uptime h)
    (api_credits h) (max_api_credits h) (throughput h) (formula_power h)
    (rate_agility h) (error_resilience h) (inventory h) (equipped h)
    (status_effects h) (gold h) (skills h) v.

(** [Hero.calculate_max_uptime]. *)
Definition calculate_max_uptime (self : t) : Z :=
  let base_hp := Config.BASE_HP in
  let class_mod := Config.hp_mod (role self) in
  let con_bonus := error_resilience self * 5 in
  let fragment_bonus := (recipe_fragments self / 3) * 5 in
  base_hp + class_mod + con_bonus + fragment_bonus.

(** [Hero.calculate_max_api_credits]. *)
Definition calculate_max_api_credits (self : t) : Z :=
  let base_mp := Config.BASE_MP in
  let class_mod := Config.mp_mod (role self) in
  let int_bonus := formula_power self * 3 in
  base_mp + class_mod + int_bonus.

(** [Hero.has_status]. *)
Definition has_status (self : t) (status_name : string) : bool :=
  existsb (fun e => String.eqb (StatusEffect.name e) status_name)
    (status_effects self).

(** The loop of [Hero.add_to_inventory] over the inventory: the first
    entry with the item's id has its quantity increased. *)
Fixpoint bump_quantity (inv : list InventoryItem.t) (id : string) (quantity : Z)
  : option (list InventoryItem.t) :=
  match inv with
  | [] => None
  | inv_item :: rest =>
      if String.eqb (item_id (InventoryItem.item inv_item)) id
      then Some (InventoryItem.Make (InventoryItem.item inv_item)
                   (InventoryItem.quantity inv_item + quantity) :: rest)
      else match bump_quantity rest id quantity with
           | Some rest' => Some (inv_item :: rest')
           | None => None
           end
  end.

(** [Hero.add_to_inventory]: the returned flag and the hero afterwards. *)
Definition add_to_inventory (self : t) (item : Loot) (quantity : Z) : bool * t :=
  match bump_quantity (inventory self) (loot_id item) quantity with
  | Some inv' => (true, set_inventory self inv')
  | None =>
      if (Config.MAX_INVENTORY_SIZE <=? length (inventory self))%nat
      then (false, self)
      else (true, set_inventory self
                    (inventory self ++ [InventoryItem.Make (LootItem item) quantity]))
  end.

(** [Hero.remove_from_inventory]. *)
Fixpoint drop_quantity (inv : list InventoryItem.t) (id : string) (quantity : Z)
  : option (list InventoryItem.t) :=
  match inv with
  | [] => None
  | inv_item :: rest =>
      if String.eqb (item_id (InventoryItem.item inv_item)) id
      then
        let q := InventoryItem.quantity inv_item - quantity in
        if q <=? 0 then Some rest
        else Some (InventoryItem.Make (InventoryItem.item inv_item) q :: rest)
      else match drop_quantity rest id quantity with
           | Some rest' => Some (inv_item :: rest')
           | None => None
           end
  end.

Definition remove_from_inventory (self : t) (item_id : string) (quantity : Z)
  : bool * t :=
  match drop_quantity (inventory self) item_id quantity with
  | Some inv' => (true, set_inventory self inv')
  | None => (false, self)
  end.

(** [Hero.get_armor_value]. *)
Definition get_armor_value (self : t) : Z :=
  let base_armor :=
    match EquipmentSlots.armor (equipped self) with
    | Some a => Armor.protection a
    | None => 0
    end in
  fold_left
    (fun acc effect =>
       if StatusEffect.EffectType_eqb (StatusEffect.effect_type effect)
            StatusEffect.cached
       then acc + 3 else acc)
    (status_effects self) base_armor.
End Hero.

(* ===================================================================== *)
(** * models/combat.py and models/world.py                                *)
(* ===================================================================== *)

Module Enemy.
Inductive EnemyTier : Type := common | uncommon | rare | boss.

Record t : Type := Make
  { id : string; name : string; emoji : string; description : string;
    hp : Z; max_hp : Z; damage_dice : string; armor : Z;
    weakness : option string; resistance : option string;
    special_ability : option string; immune_until_examined : bool;
    xp_reward : Z; gold_reward : Z; loot_table : string; tier : EnemyTier;
    is_examined : bool; status_effects : list string }.

Definition set_hp (e : t) (v : Z) : t :=
  Make (id e) (name e) (emoji e) (description e) v (max_hp e) (damage_dice e)
    (armor e) (weakness e) (resistance e) (special_ability e)
    (immune_until_examined e) (xp_reward e) (gold_reward e) (loot_table e)
    (tier e) (is_examined e) (status_effects e).
Definition set_max_hp (e : t) (v : Z) : t :=
  Make (id e) (name e) (emoji e) (description e) (hp e) v (damage_dice e)
    (armor e) (weakness e) (resistance e) (special_ability e)
    (immune_until_examined e) (xp_reward e) (gold_reward e) (loot_table e)
    (tier e) (is_examined e) (status_effects e).
Definition set_is_examined (e : t) (v : bool) : t :=
  Make (id e) (name e) (emoji e) (description e) (hp e) (max_hp e)
    (damage_dice e) (armor e) (weakness e) (resistance e) (special_ability e)
    (immune_until_examined e) (xp_reward e) (gold_reward e) (loot_table e)
    (tier e) v (status_effects e).
End Enemy.

Module CombatState.
(** [enemies] holds references to the enemy objects of the room: the
    positions of those objects in the room's enemy list. *)
Record t : Type := Make
  { active : bool; enemies : list nat; turn_order : list string;
    current_turn_index : Z; round_num : Z; hero_defending : bool;
    hero_used_error_handler : bool; enemies_defeated : Z }.

Definition set_enemies_defeated (c : t) (v : Z) : t :=
  Make (active c) (enemies c) (turn_order c) (current_turn_index c)
    (round_num c) (hero_defending c) (hero_used_error_handler c) v.

Definition set_active (c : t) (v : bool) : t :=
  Make v (enemies c) (turn_order c) (current_turn_index c)
    (round_num c) (hero_defending c) (hero_used_error_handler c)
    (enemies_defeated c).
Definition set_hero_defending (c : t) (v : bool) : t :=
  Make (active c) (enemies c) (turn_order c) (current_turn_index c)
    (round_num c) v (hero_used_error_handler c) (enemies_defeated c).
Definition set_turn (c : t) (index round : Z) : t :=
  Make (active c) (enemies c) (turn_order c) index round (hero_defending c)
    (hero_used_error_handler c) (enemies_defeated c).

(** [CombatState.get_current_turn]: the index is reduced modulo the
    length, so the lookup is always in range. *)
Definition get_current_turn (self : t) : string :=
  match turn_order self with
  | [] => "hero"
  | first :: _ =>
      nth (Z.to_nat (current_turn_index self
                     mod Z.of_nat (length (turn_order self))))
        (turn_order self) first
  end.

(** [CombatState.next_turn]. *)
Definition next_turn (self : t) : t :=
  let index := current_turn_index self + 1 in
  if Z.of_nat (length (turn_order self)) <=? index
  then set_turn self 0 (round_num self + 1)
  else set_turn self index (round_num self).

(** [CombatState.get_alive_enemies], the enemy objects being read through
    their references into [store]. *)
Definition get_alive_enemies (self : t) (store : list Enemy.t) : list nat :=
  List.filter (fun i => match store !! i with
                        | Some e => 0 <? Enemy.hp e
                        | None => false
                        end) (enemies self).

(** [CombatState.is_combat_over]. *)
Definition is_combat_over (self : t) (store : list Enemy.t) : bool :=
  (length (get_alive_enemies self store) =? 0)%nat || negb (active self).
End CombatState.

Module Room.
Inductive RoomType : Type := corridor | chamber | treasure | trap | boss.

Record t : Type := Make
  { id : string; room_type : RoomType; system_name : string;
    description : string; exits : gmap string string; items : list Loot;
    enemies : list Enemy.t; is_cleared : bool; is_discovered : bool;
    depth : Z }.

Definition set_items (r : t) (v : list Loot) : t :=
  Make (id r) (room_type r) (system_name r) (description r) (exits r) v
    (enemies r) (is_cleared r) (is_discovered r) (depth r).
Definition set_enemies (r : t) (v : list Enemy.t) : t :=
  Make (id r) (room_type r) (system_name r) (description r) (exits r)
    (items r) v (is_cleared r) (is_discovered r) (depth r).
Definition set_is_cleared (r : t) (v : bool) : t :=
  Make (id r) (room_type r) (system_name r) (description r) (exits r)
    (items r) (enemies r) v (is_discovered r) (depth r).
Definition set_exits (r : t) (v : gmap string string) : t :=
  Make (id r) (room_type r) (system_name r) (description r) v (items r)
    (enemies r) (is_cleared r) (is_discovered r) (depth r).
End Room.

Module GameState.
(** The free-form [flags] dictionary, which no modelled tool reads or
    writes, is left out. *)
Record t : Type := Make
  { hero : Hero.t; current_room_id : string;
    dungeon_map : gmap string Room.t; combat : option CombatState.t;
    depth : Z; turn_count : Z; max_depth_reached : Z;
    save_id : option string; created_at : string; last_updated : string }.

Definition set_hero (g : t) (v : Hero.t) : t :=
  Make v (current_room_id g) (dungeon_map g) (combat g) (depth g)
    (turn_count g) (max_depth_reached g) (save_id g) (created_at g)
    (last_updated g).
Definition set_dungeon_map (g : t) (v : gmap string Room.t) : t :=
  Make (hero g) (current_room_id g) v (combat g) (depth g)
    (turn_count g) (max_depth_reached g) (save_id g) (created_at g)
    (last_updated g).
Definition set_combat (g : t) (v : option CombatState.t) : t :=
  Make (hero g) (current_room_id g) (dungeon_map g) v (depth g)
    (turn_count g) (max_depth_reached g) (save_id g) (created_at g)
    (last_updated g).

(** [GameState.get_current_room]: KeyError when the id is not mapped. *)
Definition get_current_room (self : t) : option Room.t :=
  dungeon_map self !! current_room_id self.

(** [GameState.is_in_combat]. *)
Definition is_in_combat (self : t) : bool :=
  match combat self with
  | Some c => CombatState.active c
  | None => false
  end.
End GameState.

(* ===================================================================== *)
(** * Narrative messages                                                  *)
(* ===================================================================== *)

(** One constructor per message template of the systems and handlers, with
    the values the template interpolates. *)
Inductive message : Type :=
| MsgRolled (dice : string) (rolls : list Z) (total : Z)
| MsgBasicAttack
| MsgCritical
| MsgArmorReduced (reduction : Z)
| MsgImmune (enemy : string)
| MsgHit (enemy : string) (damage hp max_hp : Z)
| MsgDefeated (enemy : string) (xp gold : Z)
| MsgEnemyAttacks (emoji enemy dice : string) (rolls : list Z) (total : Z)
| MsgDefensiveStance
| MsgArmorBlocked (armor : Z)
| MsgTookDamage (damage uptime max_uptime : Z)
| MsgUptimeZero
| MsgGainedXP (xp total : Z)
| MsgStatGrowth (role : Role)
| MsgMaxUptime (old_max new_max : Z)
| MsgMaxCredits (old_max new_max : Z)
| MsgSkillUnlocked (level : Z)
| MsgLevelUp (template : nat) (level : Z)
| MsgVictory (template : nat)
| MsgGameOver (template : nat)
| MsgWornOff (effect : string).

(* ===================================================================== *)
(** * systems/effects.py                                                  *)
(* ===================================================================== *)

Module StatusEffectManager.
Import StatusEffect.

(** The tag of an effect type, as the source spells it. *)
Definition tag (ty : EffectType) : string :=
  match ty with
  | rate_limited => "rate_limited" | auth_expired => "auth_expired"
  | transformed => "transformed" | buffered => "buffered"
  | cached => "cached" | debugging => "debugging"
  | throttled => "throttled"
  end.

Definition is_alpha (c : ascii) : bool :=
  let n := nat_of_ascii c in
  ((65 <=? n)%nat && (n <=? 90)%nat) || ((97 <=? n)%nat && (n <=? 122)%nat).

Definition upper_char (c : ascii) : ascii :=
  let n := nat_of_ascii c in
  if (97 <=? n)%nat && (n <=? 122)%nat then ascii_of_nat (n - 32) else c.

(** [s.title()]: a letter that follows a non-letter is upper-cased, any
    other letter lower-cased. *)
Fixpoint title (s : list ascii) (after_letter : bool) : list ascii :=
  match s with
  | [] => []
  | c :: rest =>
      (if after_letter then lower_char c else upper_char c)
        :: title rest (is_alpha c)
  end.

(** [effect_type.replace("_", " ").title()]. *)
Definition effect_name (ty : EffectType) : string :=
  string_of_list_ascii
    (title (map (fun c => if Ascii.eqb c "_"%char then " "%char else c)
              (chars (tag ty))) false).

(** The loop of [apply_effect]: the first effect of the type is
    refreshed when the new duration is greater; [None] when there is no
    effect of the type. *)
Fixpoint refresh (effects : list t) (ty : EffectType) (duration : Z)
  : option (list t) :=
  match effects with
  | [] => None
  | effect :: rest =>
      if EffectType_eqb (effect_type effect) ty
      then Some ((if StatusEffect.duration effect <? duration
                  then set_duration effect duration else effect) :: rest)
      else match refresh rest ty duration with
           | Some rest' => Some (effect :: rest')
           | None => None
           end
  end.

Definition apply_effect (hero : Hero.t) (ty : EffectType) (duration : Z)
    (description : string) : Hero.t :=
  match refresh (Hero.status_effects hero) ty duration with
  | Some effects' => Hero.set_status_effects hero effects'
  | None =>
      let effect := Make (effect_name ty) ty duration description None in
      Hero.set_status_effects hero (Hero.status_effects hero ++ [effect])
  end.

(** [hero.status_effects.pop(i)] at the first [i] of the type. *)
Fixpoint remove_first (effects : list t) (ty : EffectType) : option (list t) :=
  match effects with
  | [] => None
  | effect :: rest =>
      if EffectType_eqb (effect_type effect) ty then Some rest
      else match remove_first rest ty with
           | Some rest' => Some (effect :: rest')
           | None => None
           end
  end.

Definition remove_effect (hero : Hero.t) (ty : EffectType) : bool * Hero.t :=
  match remove_first (Hero.status_effects hero) ty with
  | Some effects' => (true, Hero.set_status_effects hero effects')
  | None => (false, hero)
  end.

(** One iteration of the first loop of [process_turn_effects]. *)
Definition tick (effect : t) : t :=
  if duration effect =? -1 then effect
  else set_duration effect (duration effect - 1).

Definition expires (effect : t) : bool :=
  negb (duration effect =? -1) && (duration effect - 1 <=? 0).

Definition process_turn_effects (hero : Hero.t) : list message * Hero.t :=
  let expired := List.filter expires (Hero.status_effects hero) in
  let effects_to_remove := map effect_type expired in
  let messages := map (fun e => MsgWornOff (name e)) expired in
  let hero1 := Hero.set_status_effects hero (map tick (Hero.status_effects hero)) in
  let hero2 :=
    fold_left (fun h ty => snd (remove_effect h ty)) effects_to_remove hero1 in
  (messages, hero2).

Definition get_damage_modifier (hero : Hero.t) : Q :=
  fold_left
    (fun modifier effect =>
       match effect_type effect with
       | buffered => (modifier * (125 # 100))%Q
       | auth_expired => (modifier * (5 # 10))%Q
       | _ => modifier
       end)
    (Hero.status_effects hero) 1%Q.

Definition get_mp_cost_modifier (hero : Hero.t) : Q :=
  fold_left
    (fun modifier effect =>
       match effect_type effect with
       | throttled => (modifier * (5 # 10))%Q
       | _ => modifier
       end)
    (Hero.status_effects hero) 1%Q.

Definition can_act (hero : Hero.t) : bool :=
  negb (existsb (fun e => EffectType_eqb (effect_type e) rate_limited)
          (Hero.status_effects hero)).

End StatusEffectManager.


(* ===================================================================== *)
(** * systems/progression.py                                              *)
(* ===================================================================== *)

Module ProgressionSystem.

(** [int(100 * (level ** 1.5))].  For a level [L >= 0] the real value
    [100 * L^1.5] is the square root of [10000 * L^3], and its floor is
    the integer square root.  A negative level makes [level ** 1.5] a
    complex number, which [int] rejects with TypeError. *)
Definition xp_curve (level : Z) : Z := Z.sqrt (10000 * level ^ 3).

Definition xp_required_for_level (level : Z) : M Z :=
  if level <? 0 then raise TypeError
  else ret (xp_curve level).

(** [ProgressionSystem._apply_level_up]. *)
Definition _apply_level_up (hero : Hero.t) : list message * Hero.t :=
  let hero :=
    match Hero.role hero with
    | warrior =>
        let hero := Hero.set_throughput hero (Hero.throughput hero + 2) in
        Hero.set_error_resilience hero (Hero.error_resilience hero + 1)
    | mage =>
        let hero := Hero.set_formula_power hero (Hero.formula_power hero + 2) in
        Hero.set_rate_agility hero (Hero.rate_agility hero + 1)
    | rogue =>
        let hero := Hero.set_rate_agility hero (Hero.rate_agility hero + 2) in
        Hero.set_throughput hero (Hero.throughput hero + 1)
    | cleric =>
        let hero := Hero.set_error_resilience hero (Hero.error_resilience hero + 2) in
        Hero.set_formula_power hero (Hero.formula_power hero + 1)
    end in
  let messages := [MsgStatGrowth (Hero.role hero)] in
  let old_max_hp := Hero.max_uptime hero in
  let old_max_mp := Hero.max_api_credits hero in
  let hero := Hero.set_max_uptime hero (Hero.calculate_max_uptime hero) in
  let hero := Hero.set_max_api_credits hero (Hero.calculate_max_api_credits hero) in
  let hero := Hero.set_uptime hero (Hero.max_uptime hero) in
  let hero := Hero.set_api_credits hero (Hero.max_api_credits hero) in
  let messages :=
    messages ++ [MsgMaxUptime old_max_hp (Hero.max_uptime hero);
                 MsgMaxCredits old_max_mp (Hero.max_api_credits hero)] in
  let messages :=
    if Hero.level hero mod 5 =? 0
    then messages ++ [MsgSkillUnlocked (Hero.level hero)] else messages in
  (messages, hero).

(** The body of the [while] loop of [add_experience], run when the loop
    condition holds for the requirement [required]. *)
Definition level_up_step (required : Z) (hero : Hero.t) (messages : list message)
  : M (Hero.t * list message) :=
  let hero := Hero.set_xp hero (Hero.xp hero - required) in
  let hero := Hero.set_level hero (Hero.level hero + 1) in
  let '(stat_messages, hero) := _apply_level_up hero in
  let messages := messages ++ stat_messages in
  let* template := random_choice Config.LEVEL_UP_MESSAGES in
  ret (hero, messages ++ [MsgLevelUp template (Hero.level hero)]).

(** The [while] loop of [add_experience], with an iteration budget. *)
Fixpoint level_up_loop (fuel : nat) (hero : Hero.t) (leveled_up : bool)
    (messages : list message) : M (Hero.t * bool * list message) :=
  let* required := xp_required_for_level (Hero.level hero + 1) in
  if required <=? Hero.xp hero then
    match fuel with
    | O => raise FuelExhausted
    | S fuel' =>
        let* '(hero, messages) := level_up_step required hero messages in
        level_up_loop fuel' hero true messages
    end
  else ret (hero, leveled_up, messages).

(** [ProgressionSystem.add_experience]: the pair the source returns and
    the hero afterwards.  Every iteration from level 0 on lowers the
    running total by at least 100, so the budget below is never spent. *)
Definition add_experience (hero : Hero.t) (xp : Z)
  : M (bool * list message * Hero.t) :=
  let hero := Hero.set_xp hero (Hero.xp hero + xp) in
  let messages := [MsgGainedXP xp (Hero.xp hero)] in
  let* '(hero, leveled_up, messages) :=
    level_up_loop (S (Z.to_nat (Hero.xp hero))) hero false messages in
  ret (leveled_up, messages, hero).

(** [ProgressionSystem.add_gold]. *)
Definition add_gold (hero : Hero.t) (amount : Z) : Hero.t :=
  Hero.set_gold hero (Hero.gold hero + amount).

Inductive FragmentReport : Type :=
| FragmentBonus (total bonus old_max new_max : Z)
| FragmentProgress (total remaining : Z).

(** [ProgressionSystem.add_recipe_fragment]. *)
Definition add_recipe_fragment (hero : Hero.t) : bool * FragmentReport * Hero.t :=
  let hero := Hero.set_recipe_fragments hero (Hero.recipe_fragments hero + 1) in
  if Hero.recipe_fragments hero mod 3 =? 0 then
    let old_max := Hero.max_uptime hero in
    let hero := Hero.set_max_uptime hero (Hero.calculate_max_uptime hero) in
    let bonus := Hero.max_uptime hero - old_max in
    (true, FragmentBonus (Hero.recipe_fragments hero) bonus old_max
             (Hero.max_uptime hero), hero)
  else
    let remaining := 3 - Hero.recipe_fragments hero mod 3 in
    (false, FragmentProgress (Hero.recipe_fragments hero) remaining, hero).

End ProgressionSystem.

(* ===================================================================== *)
(** * systems/combat.py                                                   *)
(* ===================================================================== *)

Module HeroAttackResult.
Record t : Type := Make
  { success : bool; messages : list message; damage_dealt : Z;
    enemy_defeated : bool; xp_gained : Z; gold_gained : Z }.
Definition set_messages (r : t) (v : list message) : t :=
  Make (success r) v (damage_dealt r) (enemy_defeated r) (xp_gained r)
    (gold_gained r).
End HeroAttackResult.

Module EnemyAttackResult.
Record t : Type := Make
  { messages : list message; damage_dealt : Z; hero_defeated : bool }.
End EnemyAttackResult.

Module SpecialAbility.
Record t : Type := Make
  { name : string; enemy : string; status_effect : option string }.
End SpecialAbility.

Module CombatSystem.

(** [CombatSystem.initialize_combat]; [enemies] are references to the
    enemy objects taking part. *)
Definition initialize_combat (hero : Hero.t) (enemies : list nat)
  : M CombatState.t :=
  let turn_order :=
    "hero"%string ::
    map (fun i => ("enemy_" ++ pretty i)%string) (seq 0 (length enemies)) in
  let* turn_order := shuffle turn_order in
  ret (CombatState.Make true enemies turn_order 0 1 false false 0).

(** [CombatSystem.calculate_damage]. *)
Definition calculate_damage (attacker_stats : gmap string Z)
    (weapon : option Weapon.t) (target : Enemy.t + Hero.t)
    (skill_multiplier : Q) (ignore_armor : bool)
  : M (Z * bool * list message) :=
  let* '(base_damage, messages) :=
    match weapon with
    | Some w =>
        let* '(base_damage, rolls) := Dice.roll_dice (Weapon.damage_dice w) in
        ret (base_damage, [MsgRolled (Weapon.damage_dice w) rolls base_damage])
    | None => ret (1, [MsgBasicAttack])
    end in
  let str_bonus := default 10 (attacker_stats !! "throughput"%string) / 5 in
  let base_damage := base_damage + str_bonus in
  let base_damage := int_mul base_damage skill_multiplier in
  let* is_critical := Dice.critical_hit_check in
  let '(base_damage, messages) :=
    if is_critical then (base_damage * 2, messages ++ [MsgCritical])
    else (base_damage, messages) in
  let '(final_damage, messages) :=
    if ignore_armor then (base_damage, messages)
    else
      let armor :=
        match target with
        | inl enemy => Enemy.armor enemy
        | inr hero => Hero.get_armor_value hero
        end in
      let damage_reduction := armor in
      (Z.max 1 (base_damage - damage_reduction),
       if 0 <? armor then messages ++ [MsgArmorReduced damage_reduction]
       else messages) in
  ret (final_damage, is_critical, messages).

(** [CombatSystem.hero_attack]: the result dictionary, the target and the
    combat state afterwards. *)
Definition hero_attack (hero : Hero.t) (target : Enemy.t)
    (combat_state : CombatState.t) (skill_multiplier : Q) (ignore_armor : bool)
  : M (HeroAttackResult.t * Enemy.t * CombatState.t) :=
  if Enemy.immune_until_examined target && negb (Enemy.is_examined target)
  then
    ret (HeroAttackResult.Make false [MsgImmune (Enemy.name target)] 0 false 0 0,
         target, combat_state)
  else
    let attacker_stats : gmap string Z :=
      <[ "formula_power"%string := Hero.formula_power hero ]>
        (<[ "throughput"%string := Hero.throughput hero ]> ∅) in
    let* '(damage, is_crit, damage_messages) :=
      calculate_damage attacker_stats (EquipmentSlots.weapon (Hero.equipped hero))
        (inl target) skill_multiplier ignore_armor in
    let damage_mod := StatusEffectManager.get_damage_modifier hero in
    let damage := int_mul damage damage_mod in
    let target := Enemy.set_hp target (Enemy.hp target - damage) in
    let messages :=
      damage_messages ++
      [MsgHit (Enemy.name target) damage (Enemy.hp target) (Enemy.max_hp target)] in
    if Enemy.hp target <=? 0 then
      let target := Enemy.set_hp target 0 in
      let combat_state :=
        CombatState.set_enemies_defeated combat_state
          (CombatState.enemies_defeated combat_state + 1) in
      ret (HeroAttackResult.Make true
             (messages ++ [MsgDefeated (Enemy.name target)
                             (Enemy.xp_reward target) (Enemy.gold_reward target)])
             damage true (Enemy.xp_reward target) (Enemy.gold_reward target),
           target, combat_state)
    else
      ret (HeroAttackResult.Make true messages damage false 0 0,
           target, combat_state).

(** [CombatSystem.enemy_attack]: the result dictionary and the hero
    afterwards. *)
Definition enemy_attack (enemy : Enemy.t) (hero : Hero.t)
    (combat_state : CombatState.t) : M (EnemyAttackResult.t * Hero.t) :=
  let* '(base_damage, rolls) := Dice.roll_dice (Enemy.damage_dice enemy) in
  let damage := base_damage in
  let messages :=
    [MsgEnemyAttacks (Enemy.emoji enemy) (Enemy.name enemy)
       (Enemy.damage_dice enemy) rolls base_damage] in
  let '(damage, messages) :=
    if CombatState.hero_defending combat_state
    then (int_mul damage (1 - Config.DEFENSE_DAMAGE_REDUCTION)%Q,
          messages ++ [MsgDefensiveStance])
    else (damage, messages) in
  let armor := Hero.get_armor_value hero in
  let '(damage, messages) :=
    if 0 <? armor
    then (Z.max 1 (damage - armor), messages ++ [MsgArmorBlocked armor])
    else (damage, messages) in
  let hero := Hero.set_uptime hero (Hero.uptime hero - damage) in
  let messages :=
    messages ++ [MsgTookDamage damage (Hero.uptime hero) (Hero.max_uptime hero)] in
  if Hero.uptime hero <=? 0 then
    let hero := Hero.set_uptime hero 0 in
    ret (EnemyAttackResult.Make (messages ++ [MsgUptimeZero]) damage true, hero)
  else
    ret (EnemyAttackResult.Make messages damage false, hero).

(** [CombatSystem.check_special_abilities]. *)
Definition check_special_abilities (enemy : Enemy.t)
  : M (option SpecialAbility.t) :=
  match Enemy.special_ability enemy with
  | None => ret None
  | Some ability =>
      if String.eqb ability EmptyString then ret None
      else if String.eqb ability "skip_turn_50" then
        let* r := Dice.roll_percentage in
        if Qle_bool (5 # 10) r then ret None
        else ret (Some (SpecialAbility.Make "Frozen" (Enemy.name enemy) None))
      else if String.eqb ability "double_attack" then
        ret (Some (SpecialAbility.Make "Double Attack" (Enemy.name enemy) None))
      else if String.eqb ability "rate_limited_inflict" then
        let* r := Dice.roll_percentage in
        if Qle_bool (3 # 10) r then ret None
        else ret (Some (SpecialAbility.Make "Rate Limited" (Enemy.name enemy)
                          (Some "rate_limited"%string)))
      else ret None
  end.

End CombatSystem.

(* ===================================================================== *)
(** * systems/generation.py                                               *)
(* ===================================================================== *)

Module DungeonGenerator.

(** The tables the constructor loads from data/enemies.json,
    data/items.json and data/descriptions.json, as validated records. *)
Record t : Type := Make
  { enemy_data : Enemy.EnemyTier -> list Enemy.t;
    weapons : list Weapon.t;
    armor : list Armor.t;
    consumables : list Consumable.t;
    description_data : Room.RoomType -> list string;
    system_names : Room.RoomType -> list string }.

Inductive ItemCategory : Type := Weapons | ArmorPieces | Consumables.

Definition room_type_tag (ty : Room.RoomType) : string :=
  match ty with
  | Room.corridor => "corridor" | Room.chamber => "chamber"
  | Room.treasure => "treasure" | Room.trap => "trap" | Room.boss => "boss"
  end.

(** [l[i]] with Python's negative indices. *)
Definition py_index {A} (l : list A) (i : Z) : M A :=
  let n := Z.of_nat (length l) in
  let j := if i <? 0 then i + n else i in
  if (j <? 0) || (n <=? j) then raise IndexError
  else match l !! Z.to_nat j with
       | Some x => ret x
       | None => raise IndexError
       end.

(** [[item for item in pool if random.random() < item.get("drop_rate", 1.0)]];
    a validated template always carries its drop rate. *)
Fixpoint filter_by_drop_rate {A} (rate : A -> Q) (pool : list A) : M (list A) :=
  match pool with
  | [] => ret []
  | item :: rest =>
      let* r := random_random in
      let* kept := filter_by_drop_rate rate rest in
      ret (if Qle_bool (rate item) r then kept else item :: kept)
  end.

(** One iteration of the loop of [_generate_loot]: the item appended to
    the loot, if any. *)
Definition loot_slot (self : t) : M (option Loot) :=
  let* item_type := random_choice [Weapons; ArmorPieces; Consumables] in
  let* available :=
    match item_type with
    | Weapons =>
        let* l := filter_by_drop_rate Weapon.drop_rate (weapons self) in
        ret (map LootWeapon l)
    | ArmorPieces =>
        let* l := filter_by_drop_rate Armor.drop_rate (armor self) in
        ret (map LootArmor l)
    | Consumables =>
        let* l := filter_by_drop_rate Consumable.drop_rate (consumables self) in
        ret (map LootConsumable l)
    end in
  match available with
  | [] => ret None
  | _ :: _ => let* item := random_choice available in ret (Some item)
  end.

Fixpoint loot_loop (self : t) (n : nat) (loot : list Loot) : M (list Loot) :=
  match n with
  | O => ret loot
  | S n' =>
      let* slot := loot_slot self in
      loot_loop self n' (match slot with
                         | Some item => loot ++ [item]
                         | None => loot
                         end)
  end.

(** [DungeonGenerator._generate_loot]; neither [depth] nor [min_tier] is
    read by the body. *)
Definition _generate_loot (self : t) (depth : Z) (min_tier : Tier)
    (quantity : Z) : M (list Loot) :=
  loot_loop self (Z.to_nat quantity) [].

Fixpoint enemies_loop (pool : list Enemy.t) (depth : Z) (n : nat)
    (enemies : list Enemy.t) : M (list Enemy.t) :=
  match n with
  | O => ret enemies
  | S n' =>
      let* enemy := random_choice pool in
      let hp_multiplier := (1 + inject_Z depth * (1 # 10))%Q in
      let enemy := Enemy.set_hp enemy (int_mul (Enemy.hp enemy) hp_multiplier) in
      let enemy := Enemy.set_max_hp enemy (Enemy.hp enemy) in
      enemies_loop pool depth n' (enemies ++ [enemy])
  end.

(** [DungeonGenerator._generate_enemies]. *)
Definition _generate_enemies (self : t) (depth : Z) (room_type : Room.RoomType)
  : M (list Enemy.t) :=
  let* '(tier, count) :=
    if depth <=? 3 then
      let* count := randint 1 2 in ret (Enemy.common, count)
    else if depth <=? 6 then
      let* count := randint 1 3 in ret (Enemy.uncommon, count)
    else if depth <=? 9 then
      let* count := randint 1 2 in ret (Enemy.rare, count)
    else
      let* tier := random_choice [Enemy.uncommon; Enemy.rare] in
      let* count := randint 2 3 in ret (tier, count) in
  enemies_loop (enemy_data self tier) depth (Z.to_nat count) [].

(** [DungeonGenerator._generate_boss_enemy]. *)
Definition _generate_boss_enemy (self : t) (depth : Z) : M (list Enemy.t) :=
  let boss_index := depth / 5 - 1 in
  let boss_pool := enemy_data self Enemy.boss in
  let boss_index :=
    if Z.of_nat (length boss_pool) <=? boss_index
    then Z.of_nat (length boss_pool) - 1 else boss_index in
  let* boss := py_index boss_pool boss_index in
  let hp_multiplier := (1 + inject_Z depth * (5 # 100))%Q in
  let boss := Enemy.set_hp boss (int_mul (Enemy.hp boss) hp_multiplier) in
  let boss := Enemy.set_max_hp boss (Enemy.hp boss) in
  ret [boss].

(** [DungeonGenerator.generate_room]. *)
Definition generate_room (self : t) (depth : Z) (room_type : option Room.RoomType)
  : M Room.t :=
  let* room_type :=
    match room_type with
    | Some ty => ret ty
    | None =>
        if depth mod 5 =? 0 then ret Room.boss
        else random_choices
               [(Room.corridor, 40 # 100); (Room.chamber, 30 # 100);
                (Room.treasure, 15 # 100); (Room.trap, 15 # 100)]
    end in
  let* n := randint 1000 9999 in
  let room_id :=
    (room_type_tag room_type ++ "_" ++ pretty depth ++ "_" ++ pretty n)%string in
  let* description := random_choice (description_data self room_type) in
  let* system_name := random_choice (system_names self room_type) in
  let room :=
    Room.Make room_id room_type system_name description ∅ [] [] false false
      depth in
  match room_type with
  | Room.corridor | Room.chamber =>
      let* enemies := _generate_enemies self depth room_type in
      let room := Room.set_enemies room enemies in
      let* quantity := randint 0 2 in
      let* items := _generate_loot self depth common quantity in
      ret (Room.set_items room items)
  | Room.treasure =>
      let* quantity := randint 2 4 in
      let* items := _generate_loot self depth uncommon quantity in
      ret (Room.set_items room items)
  | Room.trap =>
      let* enemies := _generate_enemies self depth room_type in
      ret (Room.set_enemies room enemies)
  | Room.boss =>
      let* enemies := _generate_boss_enemy self depth in
      ret (Room.set_enemies room enemies)
  end.


(** A Python [dict] from room ids to rooms, in insertion order. *)
Definition RoomDict : Type := list (string * Room.t).

(** [rooms[key] = room]: the value of a key that is present is replaced
    where it stands; a new key goes to the end. *)
Fixpoint dict_set (rooms : RoomDict) (key : string) (room : Room.t) : RoomDict :=
  match rooms with
  | [] => [(key, room)]
  | (k, r) :: rest =>
      if String.eqb k key then (k, room) :: rest
      else (k, r) :: dict_set rest key room
  end.

(** [rooms[key].exits["north"] = target]: the first entry of the key has
    its exits updated; KeyError when the key is absent. *)
Fixpoint dict_link (rooms : RoomDict) (key target : string) : option RoomDict :=
  match rooms with
  | [] => None
  | (k, r) :: rest =>
      if String.eqb k key
      then Some ((k, Room.set_exits r (<[ "north"%string := target ]> (Room.exits r)))
                   :: rest)
      else match dict_link rest key target with
           | Some rest' => Some ((k, r) :: rest')
           | None => None
           end
  end.

(** The first loop of [generate_dungeon_level], over [i] in [indices]. *)
Fixpoint rooms_loop (self : t) (depth room_count : Z) (indices : list nat)
    (rooms : RoomDict) : M RoomDict :=
  match indices with
  | [] => ret rooms
  | i :: rest =>
      let* room :=
        if (Z.of_nat i =? room_count - 1) && (depth mod 5 =? 0)
        then generate_room self depth (Some Room.boss)
        else generate_room self depth None in
      rooms_loop self depth room_count rest (dict_set rooms (Room.id room) room)
  end.

(** The second loop: [room_ids[i]] is linked to [room_ids[i + 1]]. *)
Fixpoint link_loop (room_ids : list string) (rooms : RoomDict) : M RoomDict :=
  match room_ids with
  | current :: ((next :: _) as rest) =>
      match dict_link rooms current next with
      | Some rooms' => link_loop rest rooms'
      | None => raise KeyError
      end
  | _ => ret rooms
  end.

(** [DungeonGenerator.generate_dungeon_level]. *)
Definition generate_dungeon_level (self : t) (depth room_count : Z) : M RoomDict :=
  let* rooms :=
    rooms_loop self depth room_count (seq 0 (Z.to_nat room_count)) [] in
  link_loop (map fst rooms) rooms.

End DungeonGenerator.

(* ===================================================================== *)
(** * server.py: the [examine] and [attack] tools                         *)
(* ===================================================================== *)

Module Skill.
(** An entry of data/skills.json. *)
Record t : Type := Make
  { id : string; cost : Z; damage_multiplier : option Q;
    ignore_armor : option bool }.
End Skill.

Module Server.

(** The [{"error": ...}] results. *)
Inductive Error : Type :=
| no_game
| invalid_target (target : string)
| skill_not_found (skill : string)
| insufficient_credits.

(** The dictionaries the tools return. *)
Inductive Response : Type :=
| RespError (e : Error)
| RespExaminedEnemy (enemy : Enemy.t) (examined : string) (enemy_hp enemy_max_hp : Z)
| RespExaminedItem (item : Loot)
| RespGameOver (narrative : list message) (combat_log : HeroAttackResult.t)
| RespAttack (narrative : list message) (combat_log : HeroAttackResult.t)
    (uptime api_credits : Z) (combat_active room_cleared : bool).

(** The module-level [game_states] dictionary. *)
Definition Sessions : Type := gmap string GameState.t.

(** [get_or_create_game_state()]. *)
Definition get_or_create_game_state (game_states : Sessions) : option GameState.t :=
  game_states !! "default"%string.

(** Writing the mutated room and game state back into the store. *)
Definition store (game_states : Sessions) (game_state : GameState.t) : Sessions :=
  <[ "default"%string := game_state ]> game_states.

Definition store_room (game_state : GameState.t) (room : Room.t) : GameState.t :=
  GameState.set_dungeon_map game_state
    (<[ GameState.current_room_id game_state := room ]>
       (GameState.dungeon_map game_state)).

(** [target.lower() in e.name.lower() and e.hp > 0]. *)
Definition matches_alive (target : string) (e : Enemy.t) : bool :=
  contains (lower (chars target)) (lower (chars (Enemy.name e)))
  && (0 <? Enemy.hp e).

(** The position of the first enemy of the room the target names. *)
Fixpoint find_enemy (target : string) (enemies : list Enemy.t) : option nat :=
  match enemies with
  | [] => None
  | e :: rest =>
      if matches_alive target e then Some O
      else option_map S (find_enemy target rest)
  end.

Definition find_item (target : string) (items : list Loot) : option Loot :=
  List.find (fun item => contains (lower (chars target))
                           (lower (chars (loot_name item)))) items.

(** The [examine] tool. *)
Definition examine (target : string) (game_states : Sessions)
  : M (Response * Sessions) :=
  match get_or_create_game_state game_states with
  | None => ret (RespError no_game, game_states)
  | Some game_state =>
      match GameState.get_current_room game_state with
      | None => raise KeyError
      | Some room =>
          match find_enemy target (Room.enemies room) with
          | Some i =>
              match Room.enemies room !! i with
              | None => raise IndexError
              | Some enemy =>
                  let enemy := Enemy.set_is_examined enemy true in
                  let room :=
                    Room.set_enemies room (<[ i := enemy ]> (Room.enemies room)) in
                  ret (RespExaminedEnemy enemy target (Enemy.hp enemy)
                         (Enemy.max_hp enemy),
                       store game_states (store_room game_state room))
              end
          | None =>
              match find_item target (Room.items room) with
              | Some item =>
                  match loot_tier item with
                  | Some _ => ret (RespExaminedItem item, game_states)
                  | None => raise AttributeError
                  end
              | None => ret (RespError (invalid_target target), game_states)
              end
          end
      end
  end.

(** The search of the skill tables: the first skill with the id in the
    first role that has one. *)
Fixpoint find_skill (skills_data : list (string * list Skill.t)) (skill : string)
  : option Skill.t :=
  match skills_data with
  | [] => None
  | (_, role_skills) :: rest =>
      match List.find (fun s => String.eqb (Skill.id s) skill) role_skills with
      | Some s => Some s
      | None => find_skill rest skill
      end
  end.

(** The enemy turn of [attack]: every enemy alive attacks in order; the
    loop stops at the attack that defeats the hero. *)
Fixpoint enemy_turn (alive_enemies : list Enemy.t) (hero : Hero.t)
    (combat : CombatState.t) (messages : list message)
  : M (Hero.t * list message * bool) :=
  match alive_enemies with
  | [] => ret (hero, messages, false)
  | e :: rest =>
      let* '(enemy_result, hero) := CombatSystem.enemy_attack e hero combat in
      let messages := messages ++ EnemyAttackResult.messages enemy_result in
      if EnemyAttackResult.hero_defeated enemy_result then
        let* template := random_choice Config.GAME_OVER_MESSAGES in
        ret (hero, messages ++ [MsgGameOver template], true)
      else enemy_turn rest hero combat messages
  end.

Definition alive_refs (enemies : list Enemy.t) : list nat :=
  List.filter (fun i => match enemies !! i with
                        | Some e => 0 <? Enemy.hp e
                        | None => false
                        end) (seq 0 (length enemies)).

(** The [attack] tool. *)
Definition attack (skills_data : list (string * list Skill.t))
    (target skill : string) (game_states : Sessions)
  : M (Response * Sessions) :=
  match get_or_create_game_state game_states with
  | None => ret (RespError no_game, game_states)
  | Some game_state =>
  let hero := GameState.hero game_state in
  match GameState.get_current_room game_state with
  | None => raise KeyError
  | Some room =>
  match find_enemy target (Room.enemies room) with
  | None => ret (RespError (invalid_target target), game_states)
  | Some i =>
  match Room.enemies room !! i with
  | None => raise IndexError
  | Some enemy =>
  let* game_state :=
    if GameState.is_in_combat game_state then ret game_state
    else
      let* combat :=
        CombatSystem.initialize_combat hero (alive_refs (Room.enemies room)) in
      ret (GameState.set_combat game_state (Some combat)) in
  match find_skill skills_data skill with
  | None => ret (RespError (skill_not_found skill), store game_states game_state)
  | Some skill_info =>
  let mp_cost :=
    int_mul (Skill.cost skill_info)
      (StatusEffectManager.get_mp_cost_modifier hero) in
  if Hero.api_credits hero <? mp_cost
  then ret (RespError insufficient_credits, store game_states game_state)
  else
  let hero := Hero.set_api_credits hero (Hero.api_credits hero - mp_cost) in
  match GameState.combat game_state with
  | None => raise AttributeError
  | Some combat =>
  let* '(result, enemy, combat) :=
    CombatSystem.hero_attack hero enemy combat
      (default 1%Q (Skill.damage_multiplier skill_info))
      (default false (Skill.ignore_armor skill_info)) in
  let room := Room.set_enemies room (<[ i := enemy ]> (Room.enemies room)) in
  let game_state := GameState.set_combat game_state (Some combat) in
  let messages := HeroAttackResult.messages result in
  if forallb (fun e => Enemy.hp e <=? 0) (Room.enemies room) then
    let room := Room.set_is_cleared room true in
    let game_state := GameState.set_combat game_state None in
    let* template := random_choice Config.VICTORY_MESSAGES in
    let messages := messages ++ [MsgVictory template] in
    let total_xp := sum_list (map Enemy.xp_reward (Room.enemies room)) in
    let total_gold := sum_list (map Enemy.gold_reward (Room.enemies room)) in
    let* '(leveled_up, level_messages, hero) :=
      ProgressionSystem.add_experience hero total_xp in
    let hero := ProgressionSystem.add_gold hero total_gold in
    let messages := messages ++ level_messages in
    let game_state := store_room (GameState.set_hero game_state hero) room in
    ret (RespAttack messages (HeroAttackResult.set_messages result messages)
           (Hero.uptime hero) (Hero.api_credits hero)
           (GameState.is_in_combat game_state) (Room.is_cleared room),
         store game_states game_state)
  else
    let alive_enemies :=
      List.filter (fun e => 0 <? Enemy.hp e) (Room.enemies room) in
    let* '(hero, messages, game_over) :=
      enemy_turn alive_enemies hero combat messages in
    let game_state := store_room (GameState.set_hero game_state hero) room in
    if game_over then
      ret (RespGameOver messages (HeroAttackResult.set_messages result messages),
           store game_states game_state)
    else
      ret (RespAttack messages (HeroAttackResult.set_messages result messages)
             (Hero.uptime hero) (Hero.api_credits hero)
             (GameState.is_in_combat game_state) (Room.is_cleared room),
           store game_states game_state)
  end end end end end end.


(** ** The rest, defend, flee, pickup and use_item tools *)

(** The lines of the narratives of these tools: the lines of the combat
    system, and one constructor per template of the tools themselves. *)
Inductive notice : Type :=
| Combat (m : message)
| NoteRest
| NoteUptimeRestored (recovered uptime max_uptime : Z)
| NoteCreditsRestored (recovered api_credits max_api_credits : Z)
| NoteAmbush
| NoteAppears (enemy : string)
| NoteDefend
| NoteVest
| NoteEscapeFailed
| NoteUse (item : string)
| NoteHealed (amount uptime max_uptime : Z)
| NoteRefilled (amount api_credits max_api_credits : Z)
| NoteCured (effect : string)
| NoteEscaped
| NoteFragment (report : ProgressionSystem.FragmentReport).

Inductive Failure : Type :=
| no_session
| not_in_combat
| rest_in_combat
| item_not_found (item : string)
| inventory_full.

Inductive Reply : Type :=
| Failed (f : Failure)
| Rested (narrative : list notice) (uptime api_credits : Z)
| Defended (narrative : list notice) (uptime : Z)
| Defeated (narrative : list notice)
| Fled
| FleeFailed (narrative : list notice) (uptime : Z)
| PickedUp (item : string) (inventory_count : nat)
| Used (narrative : list notice) (uptime api_credits : Z).

(** The [rest] tool. *)
Definition rest (dungeon_gen : DungeonGenerator.t) (game_states : Sessions)
  : M (Reply * Sessions) :=
  match get_or_create_game_state game_states with
  | None => ret (Failed no_session, game_states)
  | Some game_state =>
  if GameState.is_in_combat game_state
  then ret (Failed rest_in_combat, game_states)
  else
  let hero := GameState.hero game_state in
  let hp_recovered :=
    int_mul (Hero.max_uptime hero - Hero.uptime hero) Config.REST_HP_RECOVERY in
  let mp_recovered :=
    int_mul (Hero.max_api_credits hero - Hero.api_credits hero)
      Config.REST_MP_RECOVERY in
  let hero :=
    Hero.set_uptime hero
      (Z.min (Hero.max_uptime hero) (Hero.uptime hero + hp_recovered)) in
  let hero :=
    Hero.set_api_credits hero
      (Z.min (Hero.max_api_credits hero) (Hero.api_credits hero + mp_recovered)) in
  let messages :=
    [NoteRest;
     NoteUptimeRestored hp_recovered (Hero.uptime hero) (Hero.max_uptime hero);
     NoteCreditsRestored mp_recovered (Hero.api_credits hero)
       (Hero.max_api_credits hero)] in
  let game_state := GameState.set_hero game_state hero in
  let* r := Dice.roll_percentage in
  if Qle_bool Config.REST_ENCOUNTER_CHANCE r then
    ret (Rested messages (Hero.uptime hero) (Hero.api_credits hero),
         store game_states game_state)
  else
    match GameState.get_current_room game_state with
    | None => raise KeyError
    | Some room =>
        let* new_enemy :=
          DungeonGenerator._generate_enemies dungeon_gen
            (GameState.depth game_state) Room.corridor in
        let room := Room.set_enemies room (Room.enemies room ++ new_enemy) in
        let room := Room.set_is_cleared room false in
        match new_enemy with
        | [] => raise IndexError
        | first :: _ =>
            ret (Rested (messages ++ [NoteAmbush; NoteAppears (Enemy.name first)])
                   (Hero.uptime hero) (Hero.api_credits hero),
                 store game_states (store_room game_state room))
        end
    end
  end.

(** [hero.equipped.armor and "try" in hero.equipped.armor.name.lower()]. *)
Definition wears_try_vest (hero : Hero.t) : bool :=
  match EquipmentSlots.armor (Hero.equipped hero) with
  | Some a => contains (chars "try") (lower (chars (Armor.name a)))
  | None => false
  end.

(** The enemy attacks of [defend]: an attack that defeats a hero in a
    try/catch vest leaves the hero at 1 uptime and the loop goes on; any
    other defeat ends the tool. *)
Fixpoint defend_turn (alive_enemies : list Enemy.t) (hero : Hero.t)
    (combat : CombatState.t) (messages : list notice)
  : M (Hero.t * list notice * bool) :=
  match alive_enemies with
  | [] => ret (hero, messages, false)
  | enemy :: rest =>
      let* '(enemy_result, hero) := CombatSystem.enemy_attack enemy hero combat in
      let messages :=
        messages ++ map Combat (EnemyAttackResult.messages enemy_result) in
      if EnemyAttackResult.hero_defeated enemy_result then
        if wears_try_vest hero then
          defend_turn rest (Hero.set_uptime hero 1) combat (messages ++ [NoteVest])
        else
          let* template := random_choice Config.GAME_OVER_MESSAGES in
          ret (hero, messages ++ [Combat (MsgGameOver template)], true)
      else defend_turn rest hero combat messages
  end.

(** The [defend] tool. *)
Definition defend (game_states : Sessions) : M (Reply * Sessions) :=
  match get_or_create_game_state game_states with
  | None => ret (Failed no_session, game_states)
  | Some game_state =>
  match GameState.combat game_state with
  | None => ret (Failed not_in_combat, game_states)
  | Some combat =>
  if negb (CombatState.active combat)
  then ret (Failed not_in_combat, game_states)
  else
  let hero := GameState.hero game_state in
  let combat := CombatState.set_hero_defending combat true in
  let game_state := GameState.set_combat game_state (Some combat) in
  match GameState.get_current_room game_state with
  | None => raise KeyError
  | Some room =>
  let alive_enemies := List.filter (fun e => 0 <? Enemy.hp e) (Room.enemies room) in
  let* '(hero, messages, game_over) :=
    defend_turn alive_enemies hero combat [NoteDefend] in
  let game_state := GameState.set_hero game_state hero in
  if game_over then ret (Defeated messages, store game_states game_state)
  else
    let combat := CombatState.set_hero_defending combat false in
    let game_state := GameState.set_combat game_state (Some combat) in
    ret (Defended messages (Hero.uptime hero), store game_states game_state)
  end end end.

(** [FLEE_BASE_CHANCE + (hero.rate_agility * 0.02)]. *)
Definition flee_chance (hero : Hero.t) : Q :=
  (Config.FLEE_BASE_CHANCE + inject_Z (Hero.rate_agility hero) * (2 # 100))%Q.

(** The [flee] tool. *)
Definition flee (game_states : Sessions) : M (Reply * Sessions) :=
  match get_or_create_game_state game_states with
  | None => ret (Failed no_session, game_states)
  | Some game_state =>
  match GameState.combat game_state with
  | None => ret (Failed not_in_combat, game_states)
  | Some combat =>
  if negb (CombatState.active combat)
  then ret (Failed not_in_combat, game_states)
  else
  let hero := GameState.hero game_state in
  let* r := Dice.roll_percentage in
  let success := negb (Qle_bool (flee_chance hero) r) in
  if success then
    let combat := CombatState.set_active combat false in
    ret (Fled, store game_states (GameState.set_combat game_state (Some combat)))
  else
    match GameState.get_current_room game_state with
    | None => raise KeyError
    | Some room =>
    let alive_enemies :=
      List.filter (fun e => 0 <? Enemy.hp e) (Room.enemies room) in
    let* '(hero, messages, game_over) :=
      enemy_turn alive_enemies hero combat [] in
    let messages := NoteEscapeFailed :: map Combat messages in
    let game_state := GameState.set_hero game_state hero in
    if game_over then ret (Defeated messages, store game_states game_state)
    else ret (FleeFailed messages (Hero.uptime hero), store game_states game_state)
    end
  end end.












End Server.

(* ===================================================================== *)
(** * Vocabulary of the properties                                        *)
(* ===================================================================== *)

Module Spec.

(** ** Dice notation *)

(** A dice notation written from its parts: the digits of the count, the
    letter d, the digits of the die size and, optionally, a sign and the
    digits of the modifier. *)
Definition notation (count size : list ascii)
    (modifier : option (ascii * list ascii)) : string :=
  string_of_list_ascii
    (count ++ "d"%char :: size ++
     match modifier with
     | Some (sign, ds) => sign :: ds
     | None => []
     end).

(** A non-empty sequence of decimal digits. *)
Definition digits (ds : list ascii) : Prop :=
  ds <> [] /\ Forall (fun c => is_digit c = true) ds.

Definition is_sign (c : ascii) : Prop := c = "+"%char \/ c = "-"%char.

(** The modifier a notation denotes. *)
Definition modifier_value (modifier : option (ascii * list ascii)) : Z :=
  match modifier with
  | Some (sign, ds) =>
      if Ascii.eqb sign "-"%char then - digits_value ds else digits_value ds
  | None => 0
  end.

Definition modifier_ok (modifier : option (ascii * list ascii)) : Prop :=
  match modifier with
  | Some (sign, ds) => is_sign sign /\ digits ds
  | None => True
  end.

(** The random source after [n] more draws. *)
Definition advance (n : nat) (g : rng) : rng := MkRng (tape g) (n + cursor g).

(** ** Combat *)




(** The rolled damage of an enemy attack before armor: halved and
    truncated when the hero defends. *)
Definition incoming_damage (base : Z) (cs : CombatState.t) : Z :=
  if CombatState.hero_defending cs
  then int_mul base (1 - Config.DEFENSE_DAMAGE_REDUCTION)%Q
  else base.

(** ** Progression *)

(** One level gained: the state change of one iteration of the loop of
    [add_experience]. *)
Definition gain_level (h : Hero.t) : Hero.t :=
  let required := ProgressionSystem.xp_curve (Hero.level h + 1) in
  snd (ProgressionSystem._apply_level_up
         (Hero.set_level (Hero.set_xp h (Hero.xp h - required)) (Hero.level h + 1))).

(** The sum of the requirements of the [k] levels above [level]. *)
Fixpoint requirements (level : Z) (k : nat) : Z :=
  match k with
  | O => 0
  | S k' => requirements level k' + ProgressionSystem.xp_curve (level + Z.of_nat k)
  end.



(** ** The attack tool *)


Definition total_xp (enemies : list Enemy.t) : Z :=
  sum_list (map Enemy.xp_reward enemies).

Definition total_gold (enemies : list Enemy.t) : Z :=
  sum_list (map Enemy.gold_reward enemies).

(** ** Status effects *)

(** The effect types held by a hero, in order. *)
Definition effect_types (effects : list StatusEffect.t)
  : list StatusEffect.EffectType :=
  map StatusEffect.effect_type effects.

(** An effect that outlives the coming turn. *)
Definition survives (e : StatusEffect.t) : bool :=
  negb (StatusEffectManager.expires e).

(** [n] turns of [process_turn_effects]. *)
Definition turns (n : nat) (h : Hero.t) : Hero.t :=
  Nat.iter n (fun h => snd (StatusEffectManager.process_turn_effects h)) h.

(** ** Loot and inventory *)

(** A loot item of tier uncommon or better. *)
Definition uncommon_or_better (l : Loot) : Prop :=
  match loot_tier l with
  | Some common | None => False
  | Some _ => True
  end.

(** The ids held by an inventory, in order. *)
Definition inventory_ids (inv : list InventoryItem.t) : list string :=
  map (fun e => item_id (InventoryItem.item e)) inv.

(** An inventory entry with its quantity raised. *)
Definition raised (e : InventoryItem.t) (quantity : Z) : InventoryItem.t :=
  InventoryItem.Make (InventoryItem.item e) (InventoryItem.quantity e + quantity).


(** ** Vocabulary of the further properties *)

(** A dice notation as a caller may write it: padded with whitespace and
    with the letter in either case. *)
Definition padded_notation (before : list ascii) (count : list ascii)
    (letter : ascii) (size : list ascii)
    (modifier : option (ascii * list ascii)) (after : list ascii) : string :=
  string_of_list_ascii
    (before ++ count ++ letter :: size ++
     match modifier with
     | Some (sign, ds) => sign :: ds
     | None => []
     end ++ after).

Definition whitespace (s : list ascii) : Prop :=
  Forall (fun c => is_space c = true) s.

(** The number of effects of a type among a hero's effects. *)
Definition occurrences (ty : StatusEffect.EffectType)
    (effects : list StatusEffect.t) : nat :=
  length (List.filter
            (fun e => StatusEffect.EffectType_eqb (StatusEffect.effect_type e) ty)
            effects).

Fixpoint power (q : Q) (n : nat) : Q :=
  match n with
  | O => 1%Q
  | S n' => (q * power q n')%Q
  end.


(** The stat growth of one level, by role: throughput, formula power,
    rate agility and error resilience. *)
Definition growth (r : Role) : Z * Z * Z * Z :=
  match r with
  | warrior => (2, 0, 0, 1)
  | mage => (0, 2, 1, 0)
  | rogue => (1, 0, 2, 0)
  | cleric => (0, 1, 0, 2)
  end.

(** The fields of a hero that levelling never touches. *)
Definition same_belongings (h h' : Hero.t) : Prop :=
  Hero.name h' = Hero.name h /\ Hero.role h' = Hero.role h /\
  Hero.gold h' = Hero.gold h /\ Hero.inventory h' = Hero.inventory h /\
  Hero.equipped h' = Hero.equipped h /\
  Hero.status_effects h' = Hero.status_effects h /\
  Hero.skills h' = Hero.skills h /\
  Hero.recipe_fragments h' = Hero.recipe_fragments h.

(** The turn order before the shuffle. *)
Definition combatants (enemies : list nat) : list string :=
  "hero"%string ::
  map (fun i => ("enemy_" ++ pretty i)%string) (seq 0 (length enemies)).

(** ** Generation *)

(** An enemy made from a template of the pool: equal to the template but
    for health and maximum health, which agree. *)
Definition from_template (pool : list Enemy.t) (e : Enemy.t) : Prop :=
  Enemy.hp e = Enemy.max_hp e /\
  exists t, In t pool /\
            Enemy.set_max_hp (Enemy.set_hp e (Enemy.hp t)) (Enemy.max_hp t) = t.

(** A loot item taken from the generator's item tables. *)
Definition from_tables (self : DungeonGenerator.t) (item : Loot) : Prop :=
  match item with
  | LootWeapon w => In w (DungeonGenerator.weapons self)
  | LootArmor a => In a (DungeonGenerator.armor self)
  | LootConsumable c => In c (DungeonGenerator.consumables self)
  end.

(** A chain of rooms: every room but the last has its north exit set to
    the key of the room after it. *)
Fixpoint linked (rooms : DungeonGenerator.RoomDict) : DungeonGenerator.RoomDict :=
  match rooms with
  | (k, r) :: rest =>
      (k, match rest with
          | (k', _) :: _ =>
              Room.set_exits r (<[ "north"%string := k' ]> (Room.exits r))
          | [] => r
          end) :: linked rest
  | [] => []
  end.

(** What a room that [generate_room] returns looks like. *)
Definition well_formed (depth : Z) (room_type : option Room.RoomType)
    (room : Room.t) : Prop :=
  (forall ty, room_type = Some ty -> Room.room_type room = ty) /\
  (room_type = None -> (Room.room_type room = Room.boss <-> depth mod 5 = 0)) /\
  (exists n, 1000 <= n <= 9999 /\
     Room.id room
     = (DungeonGenerator.room_type_tag (Room.room_type room) ++ "_" ++ pretty depth ++ "_"
        ++ pretty n)%string) /\
  Room.depth room = depth /\ Room.exits room = ∅ /\
  Room.is_cleared room = false /\ Room.is_discovered room = false /\
  match Room.room_type room with
  | Room.corridor | Room.chamber =>
      (1 <= length (Room.enemies room) <= 3)%nat /\
      (length (Room.items room) <= 2)%nat
  | Room.treasure =>
      Room.enemies room = [] /\ (length (Room.items room) <= 4)%nat
  | Room.trap =>
      (1 <= length (Room.enemies room) <= 3)%nat /\ Room.items room = []
  | Room.boss => length (Room.enemies room) = 1%nat /\ Room.items room = []
  end.

(** What [generate_dungeon_level] keeps of every room of a level. *)
Definition level_room (depth : Z) (entry : string * Room.t) : Prop :=
  fst entry = Room.id (snd entry) /\ Room.depth (snd entry) = depth /\
  (Room.room_type (snd entry) = Room.boss <-> depth mod 5 = 0).

(** ** The other tools *)




(** The enemy's name contains the text, ignoring case. *)
Definition names_enemy (text : string) (e : Enemy.t) : bool :=
  contains (lower (chars text)) (lower (chars (Enemy.name e))).
End Spec.

(* ===================================================================== *)
(** * Scenarios                                                           *)
(* ===================================================================== *)

Module Scenario.

(** ** Heroes, enemies and encounters *)

(** The hero of the repository's progression tests: a level-1 warrior
    with offense 14, unarmed and unarmored. *)
Definition hero : Hero.t :=
  Hero.Make "TestHero" warrior 1 0 100 100 50 50 14 10 10 12 []
    EquipmentSlots.default [] 0 [] 0.

Definition sword : Weapon.t :=
  Weapon.Make "sword" "Sword" "A test blade" common "2d6" None 1.

(** The same hero with a 2d6 weapon. *)
Definition armed_hero : Hero.t :=
  Hero.Make "TestHero" warrior 1 0 100 100 50 50 14 10 10 12 []
    (EquipmentSlots.Make (Some sword) None None) [] 0 [] 0.

Definition goblin : Enemy.t :=
  Enemy.Make "goblin" "Goblin" "G" "A test enemy" 20 20 "1d4" 2 None None None
    false 5 3 "common" Enemy.common false [].

Definition combat : CombatState.t :=
  CombatState.Make true [0%nat] ["hero"; "enemy_0"]%string 0 1 false false 0.

(** The same encounter while the hero is in the defending stance. *)
Definition defending : CombatState.t :=
  CombatState.Make true [0%nat] ["hero"; "enemy_0"]%string 0 1 true false 0.

(** ** The examine gate *)


(** An unarmed hero whose credentials have expired. *)
Definition auth_expired_effect : StatusEffect.t :=
  StatusEffect.Make "Auth Expired" StatusEffect.auth_expired 3
    "Damage halved" None.

Definition expired_hero : Hero.t :=
  Hero.Make "TestHero" rogue 1 0 100 100 50 50 10 10 10 10 []
    EquipmentSlots.default [auth_expired_effect] 0 [] 0.




(** ** The final blow of an encounter *)

(** An encounter with two goblins, the first slain on an earlier turn, the
    second one hit away from defeat. *)
Definition slain_goblin : Enemy.t := Enemy.set_hp goblin 0.
Definition weak_goblin : Enemy.t := Enemy.set_hp goblin 1.

Definition battle_room : Room.t :=
  Room.Make "corridor_1_4321" Room.corridor "Legacy FTP" "A narrow pipe"
    ∅ [] [slain_goblin; weak_goblin] false true 1.

Definition battle_game : GameState.t :=
  GameState.Make armed_hero "corridor_1_4321"
    {[ "corridor_1_4321"%string := battle_room ]}
    None 1 3 1 None "2026-01-01T00:00:00" "2026-01-01T00:00:00".

Definition battle_sessions : Server.Sessions :=
  {[ "default"%string := battle_game ]}.

Definition skills : list (string * list Skill.t) :=
  [("warrior"%string, [Skill.Make "basic_attack" 0 (Some 1%Q) (Some false)])].

(** The outcome of the final blow. *)
Definition battle_outcome : result (Server.Response * Server.Sessions * rng) :=
  Server.attack skills "goblin" "basic_attack" battle_sessions (rng_of_list []).


Definition battle_sessions' : Server.Sessions :=
  match battle_outcome with
  | Ok ((_, sessions'), _) => sessions'
  | Raise _ => ∅
  end.


(** ** Status effects *)

(** A hero protected by a permanent cache. *)
Definition cached_forever : StatusEffect.t :=
  StatusEffect.Make "Cached" StatusEffect.cached (-1) "Permanent cache" None.

Definition cached_hero : Hero.t :=
  Hero.set_status_effects hero [cached_forever].

(** ** Loot and inventory *)

(** Item tables whose only entry is a common-tier weapon that always
    drops. *)
Definition http_client : Weapon.t :=
  Weapon.Make "http_client" "HTTP Client" "A basic connector" common "1d6"
    None 1.

Definition armory : DungeonGenerator.t :=
  DungeonGenerator.Make (fun _ => [goblin]) [http_client] [] []
    (fun _ => ["A quiet vault"%string]) (fun _ => ["Data Lake"%string]).

Definition potion (n : nat) : Consumable.t :=
  Consumable.Make ("potion_" ++ pretty n) "Job Retry Potion" "Restores uptime"
    Consumable.heal_hp (Consumable.IntValue 30) (1 # 2) true.

(** A hero whose inventory holds 20 entries with distinct ids. *)
Definition full_inventory : list InventoryItem.t :=
  map (fun n => InventoryItem.Make (LootItem (LootConsumable (potion n))) 1)
    (seq 0 20).

Definition packed_hero : Hero.t := Hero.set_inventory hero full_inventory.


(** The treasure room the armory generates at depth 3 from a source of
    zeros. *)
Definition vault : Room.t :=
  Room.Make "treasure_3_1000" Room.treasure "Data Lake" "A quiet vault"
    ∅ [LootWeapon http_client; LootWeapon http_client] [] false false 3.

(** A level of two rooms the armory generates at depth 3. *)
Definition level_draws : list Z := [0; 0; 0; 0; 0; 0; 0; 0; 1].

Definition armory_level : DungeonGenerator.RoomDict :=
  Eval vm_compute in
    match DungeonGenerator.generate_dungeon_level armory 3 2
            (rng_of_list level_draws) with
    | Ok (rooms, _) => rooms
    | Raise _ => []
    end.

(** The encounter with the two goblins while the combat is running. *)
Definition fight_game : GameState.t :=
  GameState.set_combat battle_game (Some combat).

Definition fight_sessions : Server.Sessions :=
  {[ "default"%string := fight_game ]}.

(** A session whose hero stands in the vault. *)
Definition vault_game : GameState.t :=
  GameState.Make hero "treasure_3_1000" {[ "treasure_3_1000"%string := vault ]}
    None 3 5 3 None "2026-01-01T00:00:00" "2026-01-01T00:00:00".

Definition vault_sessions : Server.Sessions :=
  {[ "default"%string := vault_game ]}.



(** The running encounter after a successful escape. *)
Definition escaped_sessions : Server.Sessions :=
  <[ "default"%string :=
       GameState.set_combat fight_game
         (Some (CombatState.set_active combat false)) ]> fight_sessions.
End Scenario.

(* ===================================================================== *)
(** * Properties                                                          *)
(* ===================================================================== *)

(** ** The monad *)

Lemma bind_Ok {A B} (m : M A) (k : A -> M B) g a g' :
  m g = Ok (a, g') -> bind m k g = k a g'.
Proof. intros H. unfold bind. now rewrite H. Qed.

Lemma bind_inv {A B} (m : M A) (k : A -> M B) g b g2 :
  bind m k g = Ok (b, g2) ->
  exists a g1, m g = Ok (a, g1) /\ k a g1 = Ok (b, g2).
Proof.
  unfold bind. destruct (m g) as [[a g1]|e] eqn:E; [|discriminate].
  intros H. now exists a, g1.
Qed.

Lemma randint_in_range a b g :
  a <= b ->
  exists r, randint a b g = Ok (r, MkRng (tape g) (S (cursor g))) /\ a <= r <= b.
Proof.
  intros Hab. unfold randint.
  destruct (Z.ltb_spec b a) as [Hlt|_]; [lia|].
  eexists. split; [reflexivity|].
  pose proof (Z.mod_pos_bound (tape g (cursor g)) (b - a + 1)). lia.
Qed.

(** ** systems/dice.py *)

Section DiceFacts.
Import Spec Scenario.


Lemma digit_not_space c : is_digit c = true -> is_space c = false.
Proof. destruct c as [[] [] [] [] [] [] [] []]; now compute. Qed.

Lemma digit_lower c : is_digit c = true -> lower_char c = c.
Proof. destruct c as [[] [] [] [] [] [] [] []]; now compute. Qed.

Lemma lower_digits ds :
  Forall (fun c => is_digit c = true) ds -> lower ds = ds.
Proof.
  induction 1 as [|c ds Hc _ IH]; [reflexivity|].
  unfold lower in *. simpl. now rewrite digit_lower, IH.
Qed.

Lemma span_digits_run ds rest :
  Forall (fun c => is_digit c = true) ds ->
  match rest with [] => True | c :: _ => is_digit c = false end ->
  span_digits (ds ++ rest) = (ds, rest).
Proof.
  intros Hds Hrest. induction Hds as [|c ds Hc _ IH]; simpl.
  - destruct rest as [|c rest]; [reflexivity|]. simpl. now rewrite Hrest.
  - now rewrite Hc, IH.
Qed.

Lemma lstrip_keep s :
  (forall c r, s = c :: r -> is_space c = false) -> lstrip s = s.
Proof.
  destruct s as [|c r]; [reflexivity|]. intros H. simpl.
  now rewrite (H c r eq_refl).
Qed.

Lemma strip_keep s :
  (forall c r, s = c :: r -> is_space c = false) ->
  (forall c r, rev s = c :: r -> is_space c = false) ->
  strip s = s.
Proof.
  intros Hhead Hlast. unfold strip.
  rewrite (lstrip_keep s Hhead), (lstrip_keep (rev s) Hlast).
  apply rev_involutive.
Qed.


Lemma digits_rev ds : digits ds -> digits (rev ds).
Proof.
  intros [Hne Hall]. split.
  - intros E. apply Hne. rewrite <- (rev_involutive ds), E. reflexivity.
  - now apply List.Forall_rev.
Qed.

Lemma digits_app_head ds rest c r :
  digits ds -> ds ++ rest = c :: r -> is_digit c = true.
Proof.
  intros [Hne Hall] E. destruct ds as [|d ds]; [contradiction|].
  simpl in E. inversion E; subst. now inversion Hall.
Qed.

Lemma sign_not_digit c : is_sign c -> is_digit c = false.
Proof. now intros [-> | ->]. Qed.

Lemma sign_lower c : is_sign c -> lower_char c = c.
Proof. now intros [-> | ->]. Qed.

Lemma sign_test c :
  is_sign c -> Ascii.eqb c "+"%char || Ascii.eqb c "-"%char = true.
Proof. now intros [-> | ->]. Qed.

(** The characters of a notation survive [lower] and [strip], and the
    pattern finds its three groups in them. *)
Lemma notation_chars count size modifier :
  digits count -> digits size -> modifier_ok modifier ->
  strip (lower (chars (notation count size modifier))) =
  chars (notation count size modifier).
Proof.
  intros Hc Hs Hm. unfold notation, chars.
  rewrite list_ascii_of_string_of_list_ascii.
  set (tail := match modifier with Some (sg, ds) => sg :: ds | None => [] end).
  assert (Hlow : lower (count ++ "d"%char :: size ++ tail)
                 = count ++ "d"%char :: size ++ tail).
  { unfold lower. rewrite map_app. simpl. rewrite map_app.
    fold (lower count) (lower size) (lower tail).
    rewrite (lower_digits count (proj2 Hc)), (lower_digits size (proj2 Hs)).
    do 3 f_equal. subst tail. destruct modifier as [[sg ds]|]; [|reflexivity].
    destruct Hm as [Hsg Hds]. unfold lower. simpl.
    rewrite (sign_lower sg Hsg). f_equal. exact (lower_digits ds (proj2 Hds)). }
  rewrite Hlow. apply strip_keep.
  - intros c r E. apply digit_not_space. exact (digits_app_head _ _ _ _ Hc E).
  - intros c r. rewrite rev_app_distr. simpl. rewrite rev_app_distr.
    rewrite <- !app_assoc. intros E. apply digit_not_space.
    subst tail. destruct modifier as [[sg ds]|].
    + destruct Hm as [_ Hds]. simpl in E. rewrite <- !app_assoc in E.
      exact (digits_app_head _ _ _ _ (digits_rev _ Hds) E).
    + simpl in E. exact (digits_app_head _ _ _ _ (digits_rev _ Hs) E).
Qed.

Lemma notation_match count size modifier :
  digits count -> digits size -> modifier_ok modifier ->
  Dice.dice_match (chars (notation count size modifier)) =
  Some (count, size,
        match modifier with Some (sg, ds) => Some (sg :: ds) | None => None end).
Proof.
  intros Hc Hs Hm. unfold notation, chars.
  rewrite list_ascii_of_string_of_list_ascii. unfold Dice.dice_match.
  rewrite (span_digits_run count _ (proj2 Hc)) by reflexivity.
  destruct count as [|c0 count']; [now destruct Hc|].
  change (Ascii.eqb "d" "d") with true. cbv iota.
  assert (Htail : span_digits
                    (size ++ match modifier with
                             | Some (sg, ds) => sg :: ds
                             | None => []
                             end)
                  = (size, match modifier with
                           | Some (sg, ds) => sg :: ds
                           | None => []
                           end)).
  { apply span_digits_run; [exact (proj2 Hs)|].
    destruct modifier as [[sg ds]|]; [|exact I].
    apply sign_not_digit, Hm. }
  rewrite Htail. destruct size as [|s0 size']; [now destruct Hs|].
  destruct modifier as [[sg ds]|]; [|reflexivity].
  destruct Hm as [Hsg Hds]. rewrite (sign_test sg Hsg).
  rewrite <- (app_nil_r ds) at 1.
  rewrite (span_digits_run ds [] (proj2 Hds) I). simpl.
  destruct ds as [|d0 ds']; [now destruct Hds|]. reflexivity.
Qed.





(** A die of size 0 is outside both parts of the contract: the notation
    matches, and [random.randint(1, 0)] raises. *)
Example roll_dice_empty_die :
  run (Dice.roll_dice "2d0") [] = Raise ValueError.
Proof. reflexivity. Qed.

End DiceFacts.


(** ** systems/combat.py *)

Section CombatFacts.
Import Spec Scenario.


Lemma critical_hit_check_total g :
  exists crit, Dice.critical_hit_check g = Ok (crit, MkRng (tape g) (S (cursor g))).
Proof.
  unfold Dice.critical_hit_check.
  destruct (randint_in_range 1 20 g ltac:(lia)) as (r & Hr & _).
  rewrite (bind_Ok _ _ _ _ _ Hr). now eexists.
Qed.







(** What [enemy_attack] does once the enemy's dice are rolled. *)
Lemma enemy_attack_resolved enemy hero cs g base rolls g1 :
  Dice.roll_dice (Enemy.damage_dice enemy) g = Ok ((base, rolls), g1) ->
  let armor := Hero.get_armor_value hero in
  let damage :=
    if 0 <? armor then Z.max 1 (incoming_damage base cs - armor)
    else incoming_damage base cs in
  exists res,
    CombatSystem.enemy_attack enemy hero cs g
    = Ok ((res, Hero.set_uptime hero (Z.max 0 (Hero.uptime hero - damage))), g1) /\
    EnemyAttackResult.damage_dealt res = damage /\
    EnemyAttackResult.hero_defeated res = (Hero.uptime hero - damage <=? 0).
Proof.
  intros Hroll armor damage. unfold CombatSystem.enemy_attack.
  rewrite (bind_Ok _ _ _ _ _ Hroll). cbv beta iota zeta.
  fold armor. unfold incoming_damage in damage.
  destruct (CombatState.hero_defending cs), (0 <? armor);
    cbv beta iota zeta; fold damage;
    change (Hero.uptime (Hero.set_uptime hero (Hero.uptime hero - damage)))
      with (Hero.uptime hero - damage);
    destruct (Z.leb_spec (Hero.uptime hero - damage) 0);
    unfold ret; eexists;
    (rewrite ?Z.max_l by lia; rewrite ?Z.max_r by lia);
    (split; [reflexivity | now split]).
Qed.

(** C2, as amended.  For every enemy attack whose dice roll returns: when
    the hero's total armor value is positive the damage dealt is
    max(1, d - armor) and so at least 1, [d] being the roll, halved and
    truncated when the hero defends; when the armor value is not positive
    the damage dealt is [d] itself; in both cases the hero's health
    afterwards is max(0, health - damage), never negative, and defeat is
    reported exactly when it is 0. *)
Theorem enemy_attack_damage :
  forall enemy hero cs g base rolls g1,
    Dice.roll_dice (Enemy.damage_dice enemy) g = Ok ((base, rolls), g1) ->
    exists res hero',
      CombatSystem.enemy_attack enemy hero cs g = Ok ((res, hero'), g1) /\
      (0 < Hero.get_armor_value hero ->
       EnemyAttackResult.damage_dealt res
       = Z.max 1 (incoming_damage base cs - Hero.get_armor_value hero) /\
       1 <= EnemyAttackResult.damage_dealt res) /\
      (Hero.get_armor_value hero <= 0 ->
       EnemyAttackResult.damage_dealt res = incoming_damage base cs) /\
      Hero.uptime hero'
      = Z.max 0 (Hero.uptime hero - EnemyAttackResult.damage_dealt res) /\
      0 <= Hero.uptime hero' /\
      EnemyAttackResult.hero_defeated res = (Hero.uptime hero' =? 0).
Proof.
  intros enemy hero cs g base rolls g1 Hroll.
  destruct (enemy_attack_resolved enemy hero cs g base rolls g1 Hroll)
    as (res & Hrun & Hdmg & Hdef).
  do 2 eexists. split; [exact Hrun|].
  rewrite Hdmg, Hdef. simpl Hero.uptime.
  destruct (Z.ltb_spec 0 (Hero.get_armor_value hero)).
  - repeat split; lia.
  - repeat split; lia.
Qed.

Lemma enemy_attack_damage_witness :
  exists res hero',
    CombatSystem.enemy_attack goblin hero defending (rng_of_list [3])
    = Ok ((res, hero'), MkRng (tape (rng_of_list [3])) 1) /\
    (0 < Hero.get_armor_value hero ->
     EnemyAttackResult.damage_dealt res
     = Z.max 1 (incoming_damage 4 defending - Hero.get_armor_value hero) /\
     1 <= EnemyAttackResult.damage_dealt res) /\
    (Hero.get_armor_value hero <= 0 ->
     EnemyAttackResult.damage_dealt res = incoming_damage 4 defending) /\
    Hero.uptime hero'
    = Z.max 0 (Hero.uptime hero - EnemyAttackResult.damage_dealt res) /\
    0 <= Hero.uptime hero' /\
    EnemyAttackResult.hero_defeated res = (Hero.uptime hero' =? 0).
Proof.
  apply (enemy_attack_damage goblin hero defending (rng_of_list [3]) 4 [4]).
  reflexivity.
Defined.

(** The specification's statement of C2 fails: an unarmored hero (armor
    value 0) in the defending stance, hit by an enemy whose 1d4 comes up 1,
    takes int(1 * 0.5) = 0 damage and keeps all 100 health. *)
Lemma enemy_attack_zero_damage :
  0 <= Hero.get_armor_value hero /\
  CombatSystem.enemy_attack goblin hero defending (rng_of_list [0])
  = Ok ((EnemyAttackResult.Make
           [MsgEnemyAttacks "G" "Goblin" "1d4" [1] 1; MsgDefensiveStance;
            MsgTookDamage 0 100 100] 0 false,
         hero), MkRng (tape (rng_of_list [0])) 1).
Proof. split; [discriminate | reflexivity]. Qed.

(** ** The examine gate *)






End CombatFacts.


(** ** models/hero.py: the inventory *)

Section InventoryFacts.
Import Spec Scenario.

Lemma bump_quantity_None inv id q :
  Hero.bump_quantity inv id q = None <-> ~ In id (inventory_ids inv).
Proof.
  induction inv as [|e inv IH]; simpl.
  - tauto.
  - destruct (String.eqb_spec (item_id (InventoryItem.item e)) id) as [E|E].
    + split; [discriminate|]. intros H. exfalso. apply H. now left.
    + destruct (Hero.bump_quantity inv id q) eqn:Hb.
      * split; [discriminate|]. intros H.
        assert (Hnone : Some l = None) by (apply IH; intros Hin; apply H; now right).
        discriminate.
      * split; [|reflexivity]. intros _ [H|H]; [contradiction|].
        now apply (proj1 IH).
Qed.

Lemma bump_quantity_Some inv id q inv' :
  Hero.bump_quantity inv id q = Some inv' ->
  exists i e,
    inv !! i = Some e /\ item_id (InventoryItem.item e) = id /\
    (forall j e', (j < i)%nat -> inv !! j = Some e' ->
                  item_id (InventoryItem.item e') <> id) /\
    inv' = <[ i := raised e q ]> inv.
Proof.
  revert inv'. induction inv as [|e inv IH]; intros inv'; simpl; [discriminate|].
  destruct (String.eqb_spec (item_id (InventoryItem.item e)) id) as [E|E].
  - intros [= <-]. exists 0%nat, e. repeat split; [assumption|lia].
  - destruct (Hero.bump_quantity inv id q) as [rest|] eqn:Hb; [|discriminate].
    intros [= <-]. destruct (IH rest eq_refl) as (i & e0 & Hi & Hid & Hfirst & ->).
    exists (S i), e0. repeat split; try assumption.
    intros [|j] e' Hj; simpl.
    + now intros [= <-].
    + apply Hfirst. lia.
Qed.

(** C10. [add_to_inventory] keeps the inventory within
    MAX_INVENTORY_SIZE entries; it returns False exactly when the item's
    id is absent and the inventory is at capacity, and then changes
    nothing; when an entry with the id exists the call succeeds, at any
    fill level, by raising the quantity of the first such entry in place;
    otherwise it appends a new entry.  The cap therefore bounds the number
    of entries, not the quantities they carry. *)
Theorem add_to_inventory_capacity :
  forall hero item quantity,
    let inv := Hero.inventory hero in
    let id := loot_id item in
    let ok := fst (Hero.add_to_inventory hero item quantity) in
    let hero' := snd (Hero.add_to_inventory hero item quantity) in
    ((length inv <= Config.MAX_INVENTORY_SIZE)%nat ->
     (length (Hero.inventory hero') <= Config.MAX_INVENTORY_SIZE)%nat /\
     (ok = false <->
      ~ In id (inventory_ids inv) /\ length inv = Config.MAX_INVENTORY_SIZE)) /\
    (ok = false <->
     ~ In id (inventory_ids inv) /\ (Config.MAX_INVENTORY_SIZE <= length inv)%nat) /\
    (ok = false -> hero' = hero) /\
    (In id (inventory_ids inv) ->
     ok = true /\
     length (Hero.inventory hero') = length inv /\
     exists i e,
       inv !! i = Some e /\ item_id (InventoryItem.item e) = id /\
       (forall j e', (j < i)%nat -> inv !! j = Some e' ->
                     item_id (InventoryItem.item e') <> id) /\
       Hero.inventory hero' = <[ i := raised e quantity ]> inv) /\
    (~ In id (inventory_ids inv) ->
     (length inv < Config.MAX_INVENTORY_SIZE)%nat ->
     ok = true /\
     Hero.inventory hero'
     = inv ++ [InventoryItem.Make (LootItem item) quantity]).
Proof.
  intros hero item quantity inv id ok hero'.
  subst ok hero'. unfold Hero.add_to_inventory. fold inv id.
  destruct (Hero.bump_quantity inv id quantity) as [inv'|] eqn:Hb.
  - assert (Hin : In id (inventory_ids inv)).
    { destruct (in_dec string_dec id (inventory_ids inv)) as [H|H]; [exact H|].
      apply bump_quantity_None with (q := quantity) in H. congruence. }
    destruct (bump_quantity_Some _ _ _ _ Hb) as (i & e & Hi & Hid & Hfirst & ->).
    simpl. rewrite length_insert.
    repeat split; try discriminate; try tauto; try (intros; assumption).
    exists i, e. now repeat split.
  - assert (Hnot : ~ In id (inventory_ids inv)) by now apply bump_quantity_None in Hb.
    destruct (Nat.leb_spec Config.MAX_INVENTORY_SIZE (length inv)) as [Hfull|Hroom];
      simpl.
    + repeat split; try tauto; try lia; try (intros; contradiction).
    + rewrite length_app. simpl.
      repeat split; try discriminate; try lia; try (intros; contradiction);
        try (intros [_ ?]; lia).
Qed.

Lemma add_to_inventory_capacity_witness :
  let item := LootConsumable (potion 7) in
  let ok := fst (Hero.add_to_inventory packed_hero item 5) in
  let hero' := snd (Hero.add_to_inventory packed_hero item 5) in
  (length (Hero.inventory packed_hero) <= Config.MAX_INVENTORY_SIZE)%nat /\
  In (loot_id item) (inventory_ids (Hero.inventory packed_hero)) /\
  (length (Hero.inventory hero') <= Config.MAX_INVENTORY_SIZE)%nat /\
  ok = true /\
  length (Hero.inventory hero') = length (Hero.inventory packed_hero).
Proof.
  intros item ok hero'.
  pose proof (add_to_inventory_capacity packed_hero item 5)
    as (Hcap & _ & _ & Hpresent & _).
  assert (Hlen : (length (Hero.inventory packed_hero)
                  <= Config.MAX_INVENTORY_SIZE)%nat) by (vm_compute; lia).
  assert (Hin : In (loot_id item) (inventory_ids (Hero.inventory packed_hero))).
  { vm_compute. do 7 right. now left. }
  destruct (Hcap Hlen) as [Hbound _].
  destruct (Hpresent Hin) as (Hok & Hsame & _).
  now repeat split.
Defined.

End InventoryFacts.


(** ** systems/progression.py *)

Section ProgressionFacts.
Import Spec Scenario.
Import ProgressionSystem.

Lemma xp_curve_floor L :
  0 <= L ->
  0 <= xp_curve L /\
  xp_curve L * xp_curve L <= 10000 * L ^ 3 < (xp_curve L + 1) * (xp_curve L + 1).
Proof.
  intros HL. unfold xp_curve.
  assert (H : 0 <= 10000 * L ^ 3) by (apply Z.mul_nonneg_nonneg; [lia|now apply Z.pow_nonneg]).
  pose proof (Z.sqrt_spec _ H) as Hs. pose proof (Z.sqrt_nonneg (10000 * L ^ 3)).
  unfold Z.succ in Hs. lia.
Qed.

Lemma xp_curve_strict a b : 0 <= a < b -> xp_curve a < xp_curve b.
Proof.
  intros [Ha Hab].
  destruct (xp_curve_floor a Ha) as (Hs0 & Hs1 & _).
  set (s := xp_curve a) in *.
  assert (Hcube : a ^ 3 = a * a * a) by ring.
  assert (Hs : s <= 100 * a * a).
  { destruct (Z.le_gt_cases s (100 * a * a)) as [H|H]; [exact H|].
    exfalso. rewrite Hcube in Hs1.
    assert (Hsq : 0 <= a * a) by nia.
    assert (Hlt : (100 * a * a) * (100 * a * a) < s * s)
      by (apply Z.mul_lt_mono_nonneg; lia).
    assert (Hle : a * a * a <= a * a * a * a).
    { destruct (Z.eq_dec a 0) as [->|Hne]; [lia|].
      rewrite <- (Z.mul_1_r (a * a * a)) at 1.
      apply Z.mul_le_mono_nonneg_l; [nia|lia]. }
    replace ((100 * a * a) * (100 * a * a)) with (10000 * (a * a * a * a)) in Hlt
      by ring.
    lia. }
  assert (Hnext : (s + 1) * (s + 1) <= 10000 * b ^ 3).
  { assert (Hb : (a + 1) ^ 3 <= b ^ 3) by (apply Z.pow_le_mono_l; lia).
    replace ((a + 1) ^ 3) with (a * a * a + 3 * a * a + 3 * a + 1) in Hb by ring.
    rewrite Hcube in Hs1. pose proof (Z.square_nonneg a).
    replace ((s + 1) * (s + 1)) with (s * s + 2 * s + 1) by ring.
    generalize dependent (b ^ 3). clearbody s. intros. lia. }
  assert (s + 1 <= xp_curve b); [|lia].
  unfold xp_curve. apply Z.sqrt_le_square; lia.
Qed.

Lemma xp_curve_ge_100 L : 1 <= L -> 100 <= xp_curve L.
Proof.
  intros HL. change 100 with (xp_curve 1) at 1.
  destruct (Z.eq_dec L 1) as [->|Hne]; [lia|].
  assert (xp_curve 1 < xp_curve L) by (apply xp_curve_strict; lia). lia.
Qed.

Lemma xp_required_for_level_run L g :
  0 <= L -> xp_required_for_level L g = Ok (xp_curve L, g).
Proof.
  intros HL. unfold xp_required_for_level.
  destruct (Z.ltb_spec L 0); [lia|reflexivity].
Qed.

Lemma random_choice_total {A} (l : list A) g :
  l <> [] ->
  exists x, random_choice l g = Ok (x, advance 1 g) /\ In x l.
Proof.
  intros Hne. destruct l as [|a l]; [contradiction|].
  eexists. split; [reflexivity|].
  apply nth_In.
  pose proof (Z.mod_pos_bound (tape g (cursor g)) (Z.of_nat (length (a :: l)))
                ltac:(simpl; lia)).
  lia.
Qed.

Lemma gain_level_level h : Hero.level (gain_level h) = Hero.level h + 1.
Proof.
  unfold gain_level, _apply_level_up. simpl.
  destruct (Hero.role h); reflexivity.
Qed.

Lemma gain_level_xp h :
  Hero.xp (gain_level h) = Hero.xp h - xp_curve (Hero.level h + 1).
Proof.
  unfold gain_level, _apply_level_up. simpl.
  destruct (Hero.role h); reflexivity.
Qed.


Lemma level_up_step_run h msgs g :
  exists msgs',
    level_up_step (xp_curve (Hero.level h + 1)) h msgs g
    = Ok ((gain_level h, msgs'), advance 1 g).
Proof.
  unfold level_up_step, gain_level.
  destruct (_apply_level_up _) as [stat h'] eqn:E. simpl snd.
  destruct (random_choice_total Config.LEVEL_UP_MESSAGES g ltac:(discriminate))
    as (t & Ht & _).
  rewrite (bind_Ok _ _ _ _ _ Ht). now eexists.
Qed.

Lemma iter_gain_level_level k h :
  Hero.level (Nat.iter k gain_level h) = Hero.level h + Z.of_nat k.
Proof.
  induction k as [|k IH]; [simpl; lia|].
  rewrite Nat.iter_succ, gain_level_level, IH. lia.
Qed.


Lemma iter_gain_level_shift k h :
  Nat.iter k gain_level (gain_level h) = Nat.iter (S k) gain_level h.
Proof.
  induction k as [|k IH]; [reflexivity|].
  rewrite Nat.iter_succ, IH. reflexivity.
Qed.

Lemma requirements_shift L n :
  requirements L (S n) = xp_curve (L + 1) + requirements (L + 1) n.
Proof.
  induction n as [|n IH].
  - cbn [requirements]. change (Z.of_nat 1) with 1. lia.
  - change (requirements L (S (S n)))
      with (requirements L (S n) + xp_curve (L + Z.of_nat (S (S n)))).
    rewrite IH. cbn [requirements].
    replace (L + 1 + Z.of_nat (S n)) with (L + Z.of_nat (S (S n))) by lia. lia.
Qed.

Lemma level_up_loop_eq fuel h lv msgs :
  level_up_loop fuel h lv msgs
  = bind (xp_required_for_level (Hero.level h + 1))
      (fun required =>
         if required <=? Hero.xp h then
           match fuel with
           | O => raise FuelExhausted
           | S fuel' =>
               bind (level_up_step required h msgs)
                 (fun x => let '(h', msgs') := x in
                           level_up_loop fuel' h' true msgs')
           end
         else ret (h, lv, msgs)).
Proof. destruct fuel; reflexivity. Qed.

(** The loop, run with enough budget from a level of at least 0: it gains
    [k] levels, each threshold being crossed in turn, stops below the next
    threshold and draws one message template per level. *)
Lemma level_up_loop_run fuel :
  forall h lv msgs g,
    0 <= Hero.level h ->
    (Z.to_nat (Hero.xp h) <= fuel)%nat ->
    exists k msgs',
      level_up_loop fuel h lv msgs g
      = Ok ((Nat.iter k gain_level h, lv || (0 <? k)%nat, msgs'), advance k g) /\
      (forall j, (j < k)%nat ->
                 xp_curve (Hero.level h + Z.of_nat j + 1)
                 <= Hero.xp h - requirements (Hero.level h) j) /\
      Hero.xp h - requirements (Hero.level h) k
      < xp_curve (Hero.level h + Z.of_nat k + 1).
Proof.
  induction fuel as [|fuel IH]; intros h lv msgs g Hlevel Hfuel;
    rewrite level_up_loop_eq;
    rewrite (bind_Ok _ _ _ _ _
               (xp_required_for_level_run (Hero.level h + 1) g ltac:(lia)));
    pose proof (xp_curve_ge_100 (Hero.level h + 1) ltac:(lia)) as Hreq;
    destruct (Z.leb_spec (xp_curve (Hero.level h + 1)) (Hero.xp h)) as [Hge|Hlt].
  - lia.
  - exists 0%nat, msgs. simpl. rewrite orb_false_r, Z.add_0_r.
    destruct g. repeat split; [lia|lia].
  - destruct (level_up_step_run h msgs g) as [msgs1 Hstep].
    rewrite (bind_Ok _ _ _ _ _ Hstep). cbv beta iota.
    destruct (IH (gain_level h) true msgs1 (advance 1 g)) as (k & msgs' & Hrun & Hcross & Hstop).
    { rewrite gain_level_level. lia. }
    { rewrite gain_level_xp. lia. }
    exists (S k), msgs'. rewrite Hrun, iter_gain_level_shift.
    rewrite gain_level_level, gain_level_xp in *.
    split; [|split].
    + rewrite orb_true_r. destruct g. unfold advance. simpl.
      now rewrite Nat.add_succ_r.
    + intros [|j] Hj.
      * simpl. rewrite Z.add_0_r. lia.
      * specialize (Hcross j ltac:(lia)).
        rewrite requirements_shift.
        replace (Hero.level h + Z.of_nat (S j) + 1)
          with (Hero.level h + 1 + Z.of_nat j + 1) by lia. lia.
    + rewrite requirements_shift.
      replace (Hero.level h + Z.of_nat (S k) + 1)
        with (Hero.level h + 1 + Z.of_nat k + 1) by lia. lia.
  - exists 0%nat, msgs. simpl. rewrite orb_false_r, Z.add_0_r.
    destruct g. repeat split; [lia|lia].
Qed.

Lemma add_experience_run hero xp g :
  0 <= Hero.level hero ->
  let h0 := Hero.set_xp hero (Hero.xp hero + xp) in
  exists k msgs,
    add_experience hero xp g
    = Ok (((0 <? k)%nat, msgs, Nat.iter k gain_level h0), advance k g) /\
    (forall j, (j < k)%nat ->
               xp_curve (Hero.level hero + Z.of_nat j + 1)
               <= Hero.xp hero + xp - requirements (Hero.level hero) j) /\
    Hero.xp hero + xp - requirements (Hero.level hero) k
    < xp_curve (Hero.level hero + Z.of_nat k + 1).
Proof.
  intros Hlevel h0. unfold add_experience. fold h0.
  destruct (level_up_loop_run (S (Z.to_nat (Hero.xp h0))) h0 false
              [MsgGainedXP xp (Hero.xp h0)] g Hlevel ltac:(lia))
    as (k & msgs & Hrun & Hcross & Hstop).
  exists k, msgs. rewrite (bind_Ok _ _ _ _ _ Hrun). split; [reflexivity|].
  split; assumption.
Qed.

(** The iteration budget of [add_experience] is never exhausted. *)
Lemma add_experience_budget hero xp g :
  add_experience hero xp g <> Raise FuelExhausted.
Proof.
  destruct (Z.le_gt_cases 0 (Hero.level hero)) as [Hlevel|Hneg].
  - destruct (add_experience_run hero xp g Hlevel) as (k & msgs & Hrun & _).
    rewrite Hrun. discriminate.
  - unfold add_experience.
    set (h0 := Hero.set_xp hero (Hero.xp hero + xp)).
    set (msgs0 := [MsgGainedXP xp (Hero.xp h0)]).
    assert (Hloop : level_up_loop (S (Z.to_nat (Hero.xp h0))) h0 false msgs0 g
                    <> Raise FuelExhausted).
    { rewrite level_up_loop_eq. unfold bind at 1.
      unfold xp_required_for_level.
      change (Hero.level h0) with (Hero.level hero).
      destruct (Z.ltb_spec (Hero.level hero + 1) 0); [discriminate|].
      assert (Hm1 : Hero.level hero + 1 = 0) by lia. rewrite Hm1.
      unfold ret at 1. change (xp_curve 0) with 0.
      destruct (Z.leb_spec 0 (Hero.xp h0)); [|discriminate].
      destruct (level_up_step_run h0 msgs0 g) as [msgs1 Hstep].
      change (Hero.level h0) with (Hero.level hero) in Hstep.
      rewrite Hm1 in Hstep. change (xp_curve 0) with 0 in Hstep.
      rewrite (bind_Ok _ _ _ _ _ Hstep). cbv beta iota.
      destruct (level_up_loop_run (Z.to_nat (Hero.xp h0)) (gain_level h0) true
                  msgs1 (advance 1 g)) as (k & msgs & Hrun & _).
      + rewrite gain_level_level. change (Hero.level h0) with (Hero.level hero). lia.
      + rewrite gain_level_xp. change (Hero.level h0) with (Hero.level hero).
        rewrite Hm1. change (xp_curve 0) with 0. lia.
      + rewrite Hrun. discriminate. }
    unfold bind.
    destruct (level_up_loop (S (Z.to_nat (Hero.xp h0))) h0 false msgs0 g)
      as [[[[h' lv] msgs] g']|e]; [discriminate|].
    intros [= ->]. now apply Hloop.
Qed.






(** C5. [add_gold] adds the amount as it is: a hero with 0 gold who is
    given -50 gold ends with -50 gold. *)
Theorem add_gold_negative :
  Hero.gold hero = 0 /\ Hero.gold (add_gold hero (-50)) = -50.
Proof. split; reflexivity. Qed.

End ProgressionFacts.


(** ** systems/effects.py *)

Section EffectFacts.
Import Spec Scenario.
Import StatusEffectManager.

Lemma EffectType_eqb_eq a b : StatusEffect.EffectType_eqb a b = true <-> a = b.
Proof. destruct a, b; simpl; split; congruence. Qed.

Lemma EffectType_eqb_neq a b : StatusEffect.EffectType_eqb a b = false <-> a <> b.
Proof. destruct a, b; simpl; split; congruence. Qed.

(** What [apply_effect] does to an effect of the type that is already
    held: the first such effect keeps the greater of the two durations. *)
Lemma refresh_max effects ty d effects' :
  refresh effects ty d = Some effects' ->
  exists i e e',
    effects !! i = Some e /\ StatusEffect.effect_type e = ty /\
    (forall j e0, (j < i)%nat -> effects !! j = Some e0 ->
                  StatusEffect.effect_type e0 <> ty) /\
    effects' = <[ i := e' ]> effects /\
    StatusEffect.effect_type e' = ty /\
    StatusEffect.name e' = StatusEffect.name e /\
    StatusEffect.duration e' = Z.max (StatusEffect.duration e) d.
Proof.
  revert effects'. induction effects as [|e effects IH]; intros effects';
    simpl; [discriminate|].
  destruct (StatusEffect.EffectType_eqb (StatusEffect.effect_type e) ty) eqn:E.
  - intros [= <-]. apply EffectType_eqb_eq in E. exists 0%nat, e. eexists.
    split; [reflexivity|]. split; [exact E|]. split; [intros; lia|].
    split; [reflexivity|].
    destruct (Z.ltb_spec (StatusEffect.duration e) d); simpl;
      repeat split; try assumption; lia.
  - destruct (refresh effects ty d) as [rest|]; [|discriminate].
    intros [= <-].
    destruct (IH rest eq_refl) as (i & e0 & e' & Hi & Hty & Hfirst & -> & He').
    exists (S i), e0, e'. split; [exact Hi|]. split; [exact Hty|].
    split; [|split; [reflexivity|exact He']].
    intros [|j] e1 Hj; simpl.
    + intros [= <-]. now apply EffectType_eqb_neq.
    + apply Hfirst. lia.
Qed.

Lemma refresh_None effects ty d :
  refresh effects ty d = None <-> ~ In ty (effect_types effects).
Proof.
  induction effects as [|e effects IH]; simpl; [tauto|].
  destruct (StatusEffect.EffectType_eqb (StatusEffect.effect_type e) ty) eqn:E.
  - apply EffectType_eqb_eq in E. split; [discriminate|tauto].
  - apply EffectType_eqb_neq in E.
    destruct (refresh effects ty d) as [rest|].
    + split; [discriminate|]. intros H.
      assert (Hnone : Some rest = None) by (apply IH; tauto). discriminate.
    + split; [|reflexivity]. intros _ [H|H]; [contradiction|].
      now apply (proj1 IH).
Qed.

(** Effect types stay pairwise distinct under [apply_effect]. *)
Lemma apply_effect_NoDup h ty d descr :
  NoDup (effect_types (Hero.status_effects h)) ->
  NoDup (effect_types (Hero.status_effects (apply_effect h ty d descr))).
Proof.
  intros Hnd. unfold apply_effect.
  destruct (refresh (Hero.status_effects h) ty d) as [effects'|] eqn:E.
  - destruct (refresh_max _ _ _ _ E) as (i & e & e' & Hi & Hty & _ & -> & Hty' & _).
    simpl. unfold effect_types. rewrite list_fmap_insert.
    rewrite Hty', <- Hty. rewrite list_insert_id; [exact Hnd|].
    rewrite list_lookup_fmap, Hi. reflexivity.
  - apply refresh_None in E. simpl. unfold effect_types. rewrite map_app.
    simpl. apply NoDup_app. split; [exact Hnd|]. split.
    + intros x Hx [->|[]]%list_elem_of_In. apply E. now apply list_elem_of_In.
    + apply NoDup_singleton.
Qed.

Lemma remove_first_unique effects ty :
  NoDup (effect_types effects) ->
  default effects (remove_first effects ty)
  = List.filter (fun e => negb (StatusEffect.EffectType_eqb
                                  (StatusEffect.effect_type e) ty)) effects.
Proof.
  induction effects as [|e effects IH]; intros Hnd; [reflexivity|].
  apply NoDup_cons in Hnd as [Hnotin Hnd]. simpl.
  destruct (StatusEffect.EffectType_eqb (StatusEffect.effect_type e) ty) eqn:E; simpl.
  - apply EffectType_eqb_eq in E. subst ty. symmetry.
    apply forallb_filter_id. apply forallb_forall. intros e0 He0.
    apply negb_true_iff, EffectType_eqb_neq. intros Heq. apply Hnotin.
    rewrite <- Heq. apply list_elem_of_In.
    exact (in_map StatusEffect.effect_type _ _ He0).
  - specialize (IH Hnd).
    destruct (remove_first effects ty); simpl in *; congruence.
Qed.

Lemma filter_NoDup_types (p : StatusEffect.t -> bool) effects :
  NoDup (effect_types effects) -> NoDup (effect_types (List.filter p effects)).
Proof.
  induction effects as [|e effects IH]; intros Hnd; [constructor|].
  apply NoDup_cons in Hnd as [Hnotin Hnd]. simpl.
  destruct (p e); simpl; [|now apply IH].
  apply NoDup_cons. split; [|now apply IH].
  intros Hin. apply Hnotin. apply list_elem_of_In in Hin. apply list_elem_of_In.
  unfold effect_types in *. apply in_map_iff in Hin as (e0 & He0 & Hin).
  apply filter_In in Hin as [Hin _]. apply in_map_iff. now exists e0.
Qed.

Lemma remove_all_unique tys :
  forall h,
    NoDup (effect_types (Hero.status_effects h)) ->
    Hero.status_effects
      (fold_left (fun h ty => snd (remove_effect h ty)) tys h)
    = List.filter
        (fun e => negb (existsb (StatusEffect.EffectType_eqb
                                   (StatusEffect.effect_type e)) tys))
        (Hero.status_effects h).
Proof.
  induction tys as [|ty tys IH]; intros h Hnd; simpl.
  - symmetry. apply forallb_filter_id. now apply forallb_forall.
  - assert (Hstep : Hero.status_effects (snd (remove_effect h ty))
                    = List.filter
                        (fun e => negb (StatusEffect.EffectType_eqb
                                          (StatusEffect.effect_type e) ty))
                        (Hero.status_effects h)).
    { rewrite <- (remove_first_unique _ ty Hnd). unfold remove_effect.
      now destruct (remove_first (Hero.status_effects h) ty). }
    rewrite IH; rewrite Hstep; [|now apply filter_NoDup_types].
    clear. induction (Hero.status_effects h) as [|e l IHl]; [reflexivity|].
    simpl.
    destruct (StatusEffect.EffectType_eqb (StatusEffect.effect_type e) ty);
      simpl; [exact IHl|].
    destruct (existsb _ tys); simpl; now rewrite IHl.
Qed.

Lemma tick_type e : StatusEffect.effect_type (tick e) = StatusEffect.effect_type e.
Proof. unfold tick. now destruct (StatusEffect.duration e =? -1). Qed.

(** A turn on a hero whose effect types are pairwise distinct, as
    [apply_effect] keeps them: exactly the effects that are not permanent
    and whose duration falls to 0 or less are removed; of the others, the
    permanent ones are untouched and the rest lose exactly one turn. *)
Lemma process_turn_effects_unique h :
  NoDup (effect_types (Hero.status_effects h)) ->
  Hero.status_effects (snd (process_turn_effects h))
  = map tick (List.filter survives (Hero.status_effects h)).
Proof.
  intros Hnd. unfold process_turn_effects. simpl snd.
  rewrite remove_all_unique.
  2:{ simpl. unfold effect_types. rewrite map_map.
      erewrite map_ext; [exact Hnd|]. intros e. apply tick_type. }
  simpl Hero.status_effects.
  assert (Hin : forall e, In e (Hero.status_effects h) ->
                existsb (StatusEffect.EffectType_eqb (StatusEffect.effect_type (tick e)))
                  (map StatusEffect.effect_type
                     (List.filter expires (Hero.status_effects h)))
                = expires e).
  { intros e He. rewrite tick_type.
    destruct (expires e) eqn:Hx.
    - apply existsb_exists. exists (StatusEffect.effect_type e).
      split; [|now apply EffectType_eqb_eq].
      apply in_map. apply filter_In. now split.
    - apply not_true_is_false. intros Hex.
      apply existsb_exists in Hex as (ty & Hty & Heq).
      apply EffectType_eqb_eq in Heq. subst ty.
      apply in_map_iff in Hty as (e0 & Hty & He0).
      apply filter_In in He0 as [He0 Hx0].
      assert (e0 = e); [|congruence].
      clear - Hnd He He0 Hty.
      induction (Hero.status_effects h) as [|a l IH]; [contradiction|].
      apply NoDup_cons in Hnd as [Hnotin Hnd].
      destruct He as [->|He], He0 as [->|He0]; try reflexivity.
      + exfalso. apply Hnotin. rewrite <- Hty. apply list_elem_of_In.
        now apply in_map.
      + exfalso. apply Hnotin. rewrite Hty. apply list_elem_of_In.
        now apply in_map.
      + now apply IH. }
  clear Hnd. revert Hin.
  generalize (map StatusEffect.effect_type
                (List.filter expires (Hero.status_effects h))).
  intros tys. induction (Hero.status_effects h) as [|e l IH]; intros Hin;
    [reflexivity|].
  simpl. rewrite (Hin e (or_introl eq_refl)). unfold survives at 1.
  destruct (expires e); simpl; rewrite IH; try reflexivity;
    intros e0 He0; apply Hin; now right.
Qed.

(** Turns alone never touch a permanent effect. *)
Lemma permanent_survives_turn h e :
  NoDup (effect_types (Hero.status_effects h)) ->
  In e (Hero.status_effects h) ->
  StatusEffect.duration e = -1 ->
  In e (Hero.status_effects (snd (process_turn_effects h))).
Proof.
  intros Hnd He Hperm. rewrite (process_turn_effects_unique h Hnd).
  apply in_map_iff. exists e. split.
  - unfold tick. now rewrite Hperm.
  - apply filter_In. split; [exact He|].
    unfold survives, expires. now rewrite Hperm.
Qed.

(** C7. A permanent effect does not survive [apply_effect]: re-applying
    the cached effect for 3 turns to a hero who holds it permanently
    (duration -1) overwrites the sentinel with 3, and three turns later
    the effect has been decremented to 0 and removed. *)
Theorem permanent_effect_overwritten :
  Hero.status_effects cached_hero = [cached_forever] /\
  StatusEffect.duration cached_forever = -1 /\
  Hero.status_effects (apply_effect cached_hero StatusEffect.cached 3 "Warm cache")
  = [StatusEffect.set_duration cached_forever 3] /\
  Hero.status_effects
    (turns 3 (apply_effect cached_hero StatusEffect.cached 3 "Warm cache"))
  = [].
Proof. repeat split. Qed.

End EffectFacts.

(** ** systems/generation.py *)

Section GenerationFacts.
Import Spec Scenario.
Import DungeonGenerator.

Lemma loot_loop_length self n :
  forall loot g loot' g',
    loot_loop self n loot g = Ok (loot', g') ->
    (length loot' <= n + length loot)%nat.
Proof.
  induction n as [|n IH]; intros loot g loot' g' H; simpl in H.
  - injection H as <- _. lia.
  - apply bind_inv in H as (slot & g1 & _ & H).
    apply IH in H. destruct slot; [rewrite length_app in H; simpl in H|]; lia.
Qed.

(** The part of the treasure-room contract the generator keeps: no enemies
    and at most 4 items. *)
Lemma treasure_room_shape self depth room_type g room g' :
  generate_room self depth room_type g = Ok (room, g') ->
  Room.room_type room = Room.treasure ->
  Room.enemies room = [] /\ (length (Room.items room) <= 4)%nat.
Proof.
  unfold generate_room. intros H Hty.
  apply bind_inv in H as (ty & g1 & _ & H).
  apply bind_inv in H as (n & g2 & _ & H).
  apply bind_inv in H as (description & g3 & _ & H).
  apply bind_inv in H as (system_name & g4 & _ & H).
  destruct ty.
  - apply bind_inv in H as (enemies & g5 & _ & H).
    apply bind_inv in H as (q & g6 & _ & H).
    apply bind_inv in H as (items & g7 & _ & H).
    injection H as <- _. discriminate.
  - apply bind_inv in H as (enemies & g5 & _ & H).
    apply bind_inv in H as (q & g6 & _ & H).
    apply bind_inv in H as (items & g7 & _ & H).
    injection H as <- _. discriminate.
  - apply bind_inv in H as (q & g5 & Hq & H).
    apply bind_inv in H as (items & g6 & Hloot & H).
    injection H as <- _. simpl. split; [reflexivity|].
    unfold randint in Hq. simpl in Hq.
    apply bind_inv in Hq as (v & g0 & _ & Hq). injection Hq as <- _.
    apply loot_loop_length in Hloot. simpl in Hloot.
    change (4 - 2 + 1) with 3 in Hloot.
    pose proof (Z.mod_pos_bound v 3 ltac:(lia)). lia.
  - apply bind_inv in H as (enemies & g5 & _ & H).
    injection H as <- _. discriminate.
  - apply bind_inv in H as (enemies & g5 & _ & H).
    injection H as <- _. discriminate.
Qed.

(** C6. A treasure room can hold common-tier loot: with item tables whose
    only weapon is of tier common, the treasure room generated at depth 3
    holds two copies of that weapon, neither of tier uncommon or better. *)
Theorem treasure_room_common_loot :
  run (generate_room armory 3 (Some Room.treasure)) []
  = Ok (Room.Make "treasure_3_1000" Room.treasure "Data Lake" "A quiet vault"
          ∅ [LootWeapon http_client; LootWeapon http_client] [] false false 3) /\
  Weapon.tier http_client = common /\
  ~ uncommon_or_better (LootWeapon http_client).
Proof. split; [reflexivity|]. split; [reflexivity|]. intros []. Qed.

End GenerationFacts.


(** ** server.py: the attack tool *)

Section AttackFacts.
Import Spec Scenario.
Import Server.






(** The final blow of the encounter above grants the rewards of both
    goblins, the one slain earlier included: 10 experience and 6 gold. *)
Example attack_rewards_both_goblins :
  exists gs',
    battle_sessions' !! "default"%string = Some gs' /\
    Hero.xp (GameState.hero gs') = 10 /\ Hero.gold (GameState.hero gs') = 6 /\
    GameState.combat gs' = None.
Proof. eexists. split; [vm_compute; reflexivity|]. now vm_compute. Qed.

End AttackFacts.


(* ===================================================================== *)
(** * Further properties                                                  *)
(* ===================================================================== *)

(** ** systems/dice.py: edges of the notation *)

Section DiceEdges.
Import Spec Scenario.

Lemma replicateM_raise {A} n (m : M A) g e :
  m g = Raise e -> replicateM (S n) m g = Raise e.
Proof. intros H. simpl. unfold bind. now rewrite H. Qed.

(** X1. A notation with at least one die of size 0 raises ValueError; a
    notation with a count of 0 rolls nothing, whatever the size: it
    returns max(0, modifier) with no rolls and consumes no randomness. *)
Theorem roll_dice_degenerate :
  forall count size modifier g,
    digits count -> digits size -> modifier_ok modifier ->
    (1 <= digits_value count -> digits_value size = 0 ->
     Dice.roll_dice (notation count size modifier) g = Raise ValueError) /\
    (digits_value count = 0 ->
     Dice.roll_dice (notation count size modifier) g
     = Ok ((Z.max 0 (modifier_value modifier), []), g)).
Proof.
  intros count size modifier g Hc Hs Hm. unfold Dice.roll_dice.
  rewrite (notation_chars _ _ _ Hc Hs Hm), (notation_match _ _ _ Hc Hs Hm).
  split.
  - intros Hn Hz. rewrite Hz.
    destruct (Z.to_nat (digits_value count)) as [|n] eqn:E; [lia|].
    unfold bind. now rewrite (replicateM_raise n (randint 1 0) g ValueError).
  - intros Hz. rewrite Hz. simpl. unfold bind, ret. simpl.
    do 3 f_equal. destruct modifier as [[sg ds]|]; reflexivity.
Qed.

Lemma roll_dice_degenerate_witness :
  Dice.roll_dice "3d0+2" (rng_of_list [5]) = Raise ValueError /\
  Dice.roll_dice "0d0-7" (rng_of_list [5]) = Ok ((0, []), rng_of_list [5]).
Proof.
  split.
  - apply (roll_dice_degenerate ["3"%char] ["0"%char]
             (Some ("+"%char, ["2"%char])) (rng_of_list [5])).
    + split; [discriminate|repeat constructor].
    + split; [discriminate|repeat constructor].
    + split; [now left|split; [discriminate|repeat constructor]].
    + vm_compute; discriminate.
    + reflexivity.
  - apply (roll_dice_degenerate ["0"%char] ["0"%char]
             (Some ("-"%char, ["7"%char])) (rng_of_list [5])).
    + split; [discriminate|repeat constructor].
    + split; [discriminate|repeat constructor].
    + split; [now right|split; [discriminate|repeat constructor]].
    + reflexivity.
Defined.

Lemma space_lower c : is_space c = true -> lower_char c = c.
Proof. destruct c as [[] [] [] [] [] [] [] []]; now compute. Qed.

Lemma lower_whitespace ws : whitespace ws -> lower ws = ws.
Proof.
  induction 1 as [|c ws Hc _ IH]; [reflexivity|].
  unfold lower in *. simpl. now rewrite space_lower, IH.
Qed.

Lemma lstrip_whitespace ws s : whitespace ws -> lstrip (ws ++ s) = lstrip s.
Proof.
  induction 1 as [|c ws Hc _ IH]; [reflexivity|]. simpl. now rewrite Hc.
Qed.

Lemma strip_padding before body after :
  whitespace before -> whitespace after ->
  (forall c r, body = c :: r -> is_space c = false) ->
  (forall c r, rev body = c :: r -> is_space c = false) ->
  body <> [] ->
  strip (before ++ body ++ after) = body.
Proof.
  intros Hb Ha Hhead Hlast Hne. unfold strip.
  rewrite (lstrip_whitespace before _ Hb).
  assert (H1 : lstrip (body ++ after) = body ++ after).
  { apply lstrip_keep. intros c r E. destruct body as [|b body']; [contradiction|].
    simpl in E. injection E as <- _. now apply (Hhead b body'). }
  rewrite H1, rev_app_distr.
  rewrite (lstrip_whitespace (rev after) _ (List.Forall_rev Ha)).
  rewrite (lstrip_keep (rev body) Hlast). apply rev_involutive.
Qed.

(** X2. Surrounding whitespace and the case of the letter d do not
    matter: a padded notation with d or D is rolled exactly as the plain
    lower-case notation. *)
Theorem roll_dice_padding_and_case :
  forall before count letter size modifier after g,
    whitespace before -> whitespace after ->
    digits count -> digits size -> modifier_ok modifier ->
    letter = "d"%char \/ letter = "D"%char ->
    Dice.roll_dice (padded_notation before count letter size modifier after) g
    = Dice.roll_dice (notation count size modifier) g.
Proof.
  intros before count letter size modifier after g Hb Ha Hc Hs Hm Hl.
  unfold Dice.roll_dice at 1 2.
  rewrite (notation_chars _ _ _ Hc Hs Hm).
  assert (Hsame : strip (lower (chars (padded_notation before count letter size
                                         modifier after)))
                  = chars (notation count size modifier)).
  { pose proof (notation_chars _ _ _ Hc Hs Hm) as Hn.
    unfold padded_notation, notation, chars in *.
    rewrite !list_ascii_of_string_of_list_ascii in *.
    set (tail := match modifier with Some (sg, ds) => sg :: ds | None => [] end) in *.
    set (body := count ++ "d"%char :: size ++ tail) in *.
    assert (Hlow : lower (before ++ count ++ letter :: size ++ tail ++ after)
                   = before ++ lower body ++ after).
    { unfold lower, body. rewrite !map_app. simpl. rewrite !map_app.
      fold (lower before) (lower after).
      rewrite (lower_whitespace _ Hb), (lower_whitespace _ Ha).
      f_equal. rewrite <- !app_assoc. f_equal. simpl. rewrite <- app_assoc.
      destruct Hl as [-> | ->]; reflexivity. }
    rewrite Hlow.
    assert (Hbody : lower body = body).
    { unfold body, lower. rewrite map_app. simpl. rewrite map_app.
      fold (lower count) (lower size) (lower tail).
      rewrite (lower_digits count (proj2 Hc)), (lower_digits size (proj2 Hs)).
      do 3 f_equal. subst tail. destruct modifier as [[sg ds]|]; [|reflexivity].
      destruct Hm as [Hsg Hds]. unfold lower. simpl.
      rewrite (sign_lower sg Hsg). f_equal. exact (lower_digits ds (proj2 Hds)). }
    rewrite Hbody. apply strip_padding; try assumption.
    - intros c r E. apply digit_not_space. exact (digits_app_head _ _ _ _ Hc E).
    - intros c r. unfold body. rewrite rev_app_distr. simpl. rewrite rev_app_distr.
      rewrite <- !app_assoc. intros E. apply digit_not_space.
      subst tail. destruct modifier as [[sg ds]|].
      + destruct Hm as [_ Hds]. simpl in E. rewrite <- !app_assoc in E.
        exact (digits_app_head _ _ _ _ (digits_rev _ Hds) E).
      + simpl in E. exact (digits_app_head _ _ _ _ (digits_rev _ Hs) E).
    - unfold body. destruct count; discriminate. }
  rewrite Hsame. rewrite (notation_match _ _ _ Hc Hs Hm). reflexivity.
Qed.

Lemma roll_dice_padding_and_case_witness :
  Dice.roll_dice "  2D6+1 " (rng_of_list [4; 1])
  = Dice.roll_dice "2d6+1" (rng_of_list [4; 1]).
Proof.
  apply (roll_dice_padding_and_case [" "%char; " "%char] ["2"%char] "D"%char
           ["6"%char] (Some ("+"%char, ["1"%char])) [" "%char]
           (rng_of_list [4; 1])).
  - repeat constructor.
  - repeat constructor.
  - split; [discriminate|repeat constructor].
  - split; [discriminate|repeat constructor].
  - split; [now left|split; [discriminate|repeat constructor]].
  - now right.
Defined.

End DiceEdges.

(** ** systems/effects.py: the effect list *)

Section EffectListFacts.
Import Spec Scenario.
Import StatusEffectManager.

Lemma set_duration_same e :
  StatusEffect.set_duration e (StatusEffect.duration e) = e.
Proof. now destruct e. Qed.

(** X3. [apply_effect] on a type the hero already holds changes only the
    first effect of that type, whose duration becomes the greater of the
    old and the new one (name and description stay the old ones); on a type
    the hero does not hold it appends one new effect with the given
    duration and description. *)
Theorem apply_effect_refreshes_or_appends :
  forall h ty d descr,
    (In ty (effect_types (Hero.status_effects h)) ->
     exists i e,
       Hero.status_effects h !! i = Some e /\
       StatusEffect.effect_type e = ty /\
       (forall j e0, (j < i)%nat -> Hero.status_effects h !! j = Some e0 ->
                     StatusEffect.effect_type e0 <> ty) /\
       Hero.status_effects (apply_effect h ty d descr)
       = <[ i := StatusEffect.set_duration e (Z.max (StatusEffect.duration e) d) ]>
           (Hero.status_effects h)) /\
    (~ In ty (effect_types (Hero.status_effects h)) ->
     Hero.status_effects (apply_effect h ty d descr)
     = Hero.status_effects h
       ++ [StatusEffect.Make (effect_name ty) ty d descr None]).
Proof.
  intros h ty d descr. unfold apply_effect.
  destruct (refresh (Hero.status_effects h) ty d) as [effects'|] eqn:E.
  - split.
    + intros _. revert effects' E.
      induction (Hero.status_effects h) as [|e effects IH]; intros effects' E;
        simpl in E; [discriminate|].
      destruct (StatusEffect.EffectType_eqb (StatusEffect.effect_type e) ty) eqn:Ety.
      * apply EffectType_eqb_eq in Ety. injection E as <-.
        exists 0%nat, e. repeat split; [assumption|lia|]. simpl. f_equal.
        destruct (Z.ltb_spec (StatusEffect.duration e) d).
        -- now rewrite Z.max_r by lia.
        -- rewrite Z.max_l by lia. symmetry. apply set_duration_same.
      * apply EffectType_eqb_neq in Ety.
        destruct (refresh effects ty d) as [rest|]; [|discriminate].
        injection E as <-. destruct (IH rest eq_refl) as (i & e0 & Hi & Hty & Hfirst & Heq).
        exists (S i), e0. repeat split; try assumption.
        -- intros [|j] e1 Hj; simpl; [now intros [= <-]|]. apply Hfirst. lia.
        -- simpl in *. now rewrite Heq.
    + intros Hnot. apply refresh_None with (d := d) in Hnot. congruence.
  - split; [|reflexivity]. intros Hin. now apply refresh_None in E.
Qed.

Lemma apply_effect_refreshes_or_appends_witness :
  (exists i e,
     Hero.status_effects cached_hero !! i = Some e /\
     StatusEffect.effect_type e = StatusEffect.cached /\
     (forall j e0, (j < i)%nat -> Hero.status_effects cached_hero !! j = Some e0 ->
                   StatusEffect.effect_type e0 <> StatusEffect.cached) /\
     Hero.status_effects (apply_effect cached_hero StatusEffect.cached 3 "Warm cache")
     = <[ i := StatusEffect.set_duration e (Z.max (StatusEffect.duration e) 3) ]>
         (Hero.status_effects cached_hero)) /\
  Hero.status_effects (apply_effect hero StatusEffect.buffered 2 "Queued")
  = Hero.status_effects hero
    ++ [StatusEffect.Make (effect_name StatusEffect.buffered)
          StatusEffect.buffered 2 "Queued" None].
Proof.
  split.
  - apply (proj1 (apply_effect_refreshes_or_appends cached_hero
                    StatusEffect.cached 3 "Warm cache")).
    simpl. now left.
  - apply (proj2 (apply_effect_refreshes_or_appends hero
                    StatusEffect.buffered 2 "Queued")).
    simpl. tauto.
Defined.

Lemma remove_effect_effects h ty :
  Hero.status_effects (snd (remove_effect h ty))
  = default (Hero.status_effects h) (remove_first (Hero.status_effects h) ty).
Proof.
  unfold remove_effect. now destruct (remove_first (Hero.status_effects h) ty).
Qed.

Lemma effect_types_tick effects :
  effect_types (map tick effects) = effect_types effects.
Proof.
  unfold effect_types. rewrite map_map. apply map_ext. intros e. apply tick_type.
Qed.

Lemma process_turn_effects_NoDup h :
  NoDup (effect_types (Hero.status_effects h)) ->
  NoDup (effect_types (Hero.status_effects (snd (process_turn_effects h)))).
Proof.
  intros Hnd. rewrite (process_turn_effects_unique h Hnd), effect_types_tick.
  now apply filter_NoDup_types.
Qed.

(** X4. The effect list never holds two effects of one type once it holds
    none: [apply_effect], [remove_effect] and [process_turn_effects] each
    keep the effect types pairwise distinct. *)
Theorem effect_types_stay_distinct :
  forall h,
    NoDup (effect_types (Hero.status_effects h)) ->
    (forall ty d descr,
        NoDup (effect_types (Hero.status_effects (apply_effect h ty d descr)))) /\
    (forall ty,
        NoDup (effect_types (Hero.status_effects (snd (remove_effect h ty))))) /\
    NoDup (effect_types (Hero.status_effects (snd (process_turn_effects h)))).
Proof.
  intros h Hnd. split; [|split].
  - intros ty d descr. now apply apply_effect_NoDup.
  - intros ty. rewrite remove_effect_effects, (remove_first_unique _ ty Hnd).
    now apply filter_NoDup_types.
  - now apply process_turn_effects_NoDup.
Qed.

Lemma effect_types_stay_distinct_witness :
  (forall ty d descr,
      NoDup (effect_types
               (Hero.status_effects (apply_effect cached_hero ty d descr)))) /\
  (forall ty,
      NoDup (effect_types
               (Hero.status_effects (snd (remove_effect cached_hero ty))))) /\
  NoDup (effect_types
           (Hero.status_effects (snd (process_turn_effects cached_hero)))).
Proof.
  apply (effect_types_stay_distinct cached_hero).
  simpl. apply NoDup_cons. split; [|constructor].
  intros H. inversion H.
Defined.

(** X5. One turn on a hero whose effect types are pairwise distinct:
    exactly the non-permanent effects with duration 1 or less are removed,
    one worn-off message each and in order; every other effect stays in
    place, a permanent one untouched and the rest with one turn less.
    Afterwards every duration is -1 or at least 1. *)
Theorem turn_effects_exact :
  forall h,
    NoDup (effect_types (Hero.status_effects h)) ->
    Hero.status_effects (snd (process_turn_effects h))
    = map tick (List.filter survives (Hero.status_effects h)) /\
    fst (process_turn_effects h)
    = map (fun e => MsgWornOff (StatusEffect.name e))
        (List.filter expires (Hero.status_effects h)) /\
    Forall (fun e => StatusEffect.duration e = -1 \/ 1 <= StatusEffect.duration e)
      (Hero.status_effects (snd (process_turn_effects h))).
Proof.
  intros h Hnd. split; [now apply process_turn_effects_unique|].
  split; [reflexivity|].
  rewrite (process_turn_effects_unique h Hnd).
  apply List.Forall_forall. intros e' He'.
  apply in_map_iff in He' as (e & <- & He). apply filter_In in He as [_ Hs].
  unfold survives, expires in Hs. unfold tick.
  destruct (Z.eqb_spec (StatusEffect.duration e) (-1)) as [E|E]; [now left|].
  right. simpl in Hs. apply negb_true_iff in Hs.
  apply Z.leb_gt in Hs. destruct e; simpl in *. lia.
Qed.

Lemma turn_effects_exact_witness :
  Hero.status_effects (snd (process_turn_effects expired_hero))
  = map tick (List.filter survives (Hero.status_effects expired_hero)) /\
  fst (process_turn_effects expired_hero)
  = map (fun e => MsgWornOff (StatusEffect.name e))
      (List.filter expires (Hero.status_effects expired_hero)) /\
  Forall (fun e => StatusEffect.duration e = -1 \/ 1 <= StatusEffect.duration e)
    (Hero.status_effects (snd (process_turn_effects expired_hero))).
Proof.
  apply (turn_effects_exact expired_hero).
  simpl. apply NoDup_cons. split; [|constructor].
  intros H. inversion H.
Defined.

Lemma turns_S n h :
  turns (S n) h = snd (process_turn_effects (turns n h)).
Proof. reflexivity. Qed.

(** X6. With pairwise distinct effect types, an effect of duration -1 is
    never removed or changed by the passing of turns, however many. *)
Theorem permanent_effect_outlasts_turns :
  forall n h e,
    NoDup (effect_types (Hero.status_effects h)) ->
    In e (Hero.status_effects h) ->
    StatusEffect.duration e = -1 ->
    In e (Hero.status_effects (turns n h)).
Proof.
  intros n h e Hnd He Hperm.
  assert (H : NoDup (effect_types (Hero.status_effects (turns n h))) /\
              In e (Hero.status_effects (turns n h))).
  { induction n as [|n [IHnd IHin]]; [now split|]. rewrite turns_S. split.
    - now apply process_turn_effects_NoDup.
    - now apply permanent_survives_turn. }
  exact (proj2 H).
Qed.

Lemma permanent_effect_outlasts_turns_witness :
  In cached_forever (Hero.status_effects (turns 50 cached_hero)).
Proof.
  apply (permanent_effect_outlasts_turns 50 cached_hero cached_forever).
  - simpl. apply NoDup_cons. split; [|constructor]. intros H. inversion H.
  - simpl. now left.
  - reflexivity.
Defined.

Lemma remove_first_None effects ty :
  remove_first effects ty = None <-> ~ In ty (effect_types effects).
Proof.
  induction effects as [|e effects IH]; simpl; [tauto|].
  destruct (StatusEffect.EffectType_eqb (StatusEffect.effect_type e) ty) eqn:E.
  - apply EffectType_eqb_eq in E. split; [discriminate|tauto].
  - apply EffectType_eqb_neq in E.
    destruct (remove_first effects ty) as [rest|].
    + split; [discriminate|]. intros H.
      assert (Hnone : Some rest = None) by (apply IH; tauto). discriminate.
    + split; [|reflexivity]. intros _ [H|H]; [contradiction|].
      now apply (proj1 IH).
Qed.

Lemma remove_first_Some effects ty effects' :
  remove_first effects ty = Some effects' ->
  exists i e,
    effects !! i = Some e /\ StatusEffect.effect_type e = ty /\
    (forall j e0, (j < i)%nat -> effects !! j = Some e0 ->
                  StatusEffect.effect_type e0 <> ty) /\
    effects' = delete i effects.
Proof.
  revert effects'. induction effects as [|e effects IH]; intros effects';
    simpl; [discriminate|].
  destruct (StatusEffect.EffectType_eqb (StatusEffect.effect_type e) ty) eqn:E.
  - apply EffectType_eqb_eq in E. intros [= <-]. exists 0%nat, e.
    repeat split; [assumption|lia].
  - apply EffectType_eqb_neq in E.
    destruct (remove_first effects ty) as [rest|]; [|discriminate].
    intros [= <-]. destruct (IH rest eq_refl) as (i & e0 & Hi & Hty & Hfirst & ->).
    exists (S i), e0. repeat split; try assumption.
    intros [|j] e1 Hj; simpl; [now intros [= <-]|]. apply Hfirst. lia.
Qed.

(** X7. [remove_effect] returns True exactly when the hero holds an effect
    of the type; it then deletes the first such effect and nothing else.
    When it returns False the hero is unchanged.  With pairwise distinct
    effect types the type is gone afterwards. *)
Theorem remove_effect_contract :
  forall h ty,
    (fst (remove_effect h ty) = true
     <-> In ty (effect_types (Hero.status_effects h))) /\
    (fst (remove_effect h ty) = false -> snd (remove_effect h ty) = h) /\
    (fst (remove_effect h ty) = true ->
     exists i e,
       Hero.status_effects h !! i = Some e /\
       StatusEffect.effect_type e = ty /\
       (forall j e0, (j < i)%nat -> Hero.status_effects h !! j = Some e0 ->
                     StatusEffect.effect_type e0 <> ty) /\
       Hero.status_effects (snd (remove_effect h ty))
       = delete i (Hero.status_effects h)) /\
    (NoDup (effect_types (Hero.status_effects h)) ->
     ~ In ty (effect_types (Hero.status_effects (snd (remove_effect h ty))))).
Proof.
  intros h ty. split; [|split; [|split]].
  - unfold remove_effect.
    destruct (remove_first (Hero.status_effects h) ty) eqn:E; simpl.
    + split; [intros _|reflexivity].
      destruct (in_dec (fun a b : StatusEffect.EffectType =>
                          ltac:(decide equality) : {a = b} + {a <> b})
                  ty (effect_types (Hero.status_effects h))) as [H|H]; [exact H|].
      apply remove_first_None in H. congruence.
    + split; [discriminate|]. intros H. now apply remove_first_None in E.
  - unfold remove_effect.
    destruct (remove_first (Hero.status_effects h) ty); [discriminate|reflexivity].
  - unfold remove_effect.
    destruct (remove_first (Hero.status_effects h) ty) eqn:E; [|discriminate].
    intros _. simpl. exact (remove_first_Some _ _ _ E).
  - intros Hnd. rewrite remove_effect_effects, (remove_first_unique _ ty Hnd).
    unfold effect_types. intros Hin. apply in_map_iff in Hin as (e & Hty & Hin).
    apply filter_In in Hin as [_ Hne]. apply negb_true_iff, EffectType_eqb_neq in Hne.
    contradiction.
Qed.

Lemma remove_effect_contract_witness :
  snd (remove_effect hero StatusEffect.cached) = hero /\
  ~ In StatusEffect.cached
      (effect_types
         (Hero.status_effects (snd (remove_effect cached_hero StatusEffect.cached)))).
Proof.
  split.
  - apply (proj1 (proj2 (remove_effect_contract hero StatusEffect.cached))).
    reflexivity.
  - apply (proj2 (proj2 (proj2 (remove_effect_contract cached_hero
                                  StatusEffect.cached)))).
    simpl. apply NoDup_cons. split; [|constructor]. intros H. inversion H.
Defined.

Lemma damage_fold effects :
  forall acc,
    (fold_left
       (fun modifier effect =>
          match StatusEffect.effect_type effect with
          | StatusEffect.buffered => (modifier * (125 # 100))%Q
          | StatusEffect.auth_expired => (modifier * (5 # 10))%Q
          | _ => modifier
          end) effects acc
     == acc * power (125 # 100) (occurrences StatusEffect.buffered effects)
            * power (5 # 10) (occurrences StatusEffect.auth_expired effects))%Q.
Proof.
  induction effects as [|e effects IH]; intros acc.
  - simpl. ring.
  - simpl fold_left. rewrite IH. unfold occurrences. simpl List.filter.
    destruct (StatusEffect.effect_type e); simpl; ring.
Qed.

Lemma mp_fold effects :
  forall acc,
    (fold_left
       (fun modifier effect =>
          match StatusEffect.effect_type effect with
          | StatusEffect.throttled => (modifier * (5 # 10))%Q
          | _ => modifier
          end) effects acc
     == acc * power (5 # 10) (occurrences StatusEffect.throttled effects))%Q.
Proof.
  induction effects as [|e effects IH]; intros acc.
  - simpl. ring.
  - simpl fold_left. rewrite IH. unfold occurrences. simpl List.filter.
    destruct (StatusEffect.effect_type e); simpl; ring.
Qed.

(** X8. The damage modifier is 1.25 to the number of buffered effects
    times 0.5 to the number of auth_expired effects, and the cost modifier
    is 0.5 to the number of throttled effects; no other effect type
    contributes, and the order of the effects does not matter. *)
Theorem modifiers_closed_form :
  forall h,
    (get_damage_modifier h
     == power (125 # 100) (occurrences StatusEffect.buffered (Hero.status_effects h))
        * power (5 # 10) (occurrences StatusEffect.auth_expired (Hero.status_effects h)))%Q /\
    (get_mp_cost_modifier h
     == power (5 # 10) (occurrences StatusEffect.throttled (Hero.status_effects h)))%Q.
Proof.
  intros h. unfold get_damage_modifier, get_mp_cost_modifier. split.
  - rewrite damage_fold. ring.
  - rewrite mp_fold. ring.
Qed.

Lemma armor_fold effects :
  forall acc,
    fold_left
      (fun acc effect =>
         if StatusEffect.EffectType_eqb (StatusEffect.effect_type effect)
              StatusEffect.cached
         then acc + 3 else acc) effects acc
    = acc + 3 * Z.of_nat (occurrences StatusEffect.cached effects).
Proof.
  induction effects as [|e effects IH]; intros acc.
  - unfold occurrences. simpl. lia.
  - simpl fold_left. rewrite IH. unfold occurrences. simpl List.filter.
    destruct (StatusEffect.EffectType_eqb (StatusEffect.effect_type e)
                StatusEffect.cached); simpl length; lia.
Qed.

(** X9. The hero's armor value is the protection of the equipped armor (0
    without one) plus 3 for every cached effect held; weapon and accessory
    contribute nothing. *)
Theorem armor_value_closed_form :
  forall h,
    Hero.get_armor_value h
    = match EquipmentSlots.armor (Hero.equipped h) with
      | Some a => Armor.protection a
      | None => 0
      end
      + 3 * Z.of_nat (occurrences StatusEffect.cached (Hero.status_effects h)).
Proof. intros h. unfold Hero.get_armor_value. apply armor_fold. Qed.

End EffectListFacts.

(** ** models/hero.py: the inventory *)

Section InventoryRoundTrip.
Import Spec Scenario.





Lemma set_inventory_same h : Hero.set_inventory h (Hero.inventory h) = h.
Proof. now destruct h. Qed.

Lemma set_inventory_twice h a b :
  Hero.set_inventory (Hero.set_inventory h a) b = Hero.set_inventory h b.
Proof. reflexivity. Qed.

Lemma drop_after_bump inv id q :
  forall inv',
    Forall (fun e => 0 < InventoryItem.quantity e) inv ->
    Hero.bump_quantity inv id q = Some inv' ->
    Hero.drop_quantity inv' id q = Some inv.
Proof.
  induction inv as [|e inv IH]; intros inv' Hpos H; simpl in H; [discriminate|].
  apply Forall_cons in Hpos as [He Hpos].
  destruct (String.eqb_spec (item_id (InventoryItem.item e)) id) as [E|E].
  - injection H as <-. simpl. rewrite (proj2 (String.eqb_eq _ _) E).
    replace (InventoryItem.quantity e + q - q) with (InventoryItem.quantity e) by lia.
    destruct (Z.leb_spec (InventoryItem.quantity e) 0); [lia|].
    now destruct e.
  - destruct (Hero.bump_quantity inv id q) as [rest|] eqn:Hb; [|discriminate].
    injection H as <-. simpl.
    rewrite (proj2 (String.eqb_neq _ _) E). now rewrite (IH rest Hpos eq_refl).
Qed.

Lemma drop_after_append inv item q :
  ~ In (loot_id item) (inventory_ids inv) ->
  Hero.drop_quantity (inv ++ [InventoryItem.Make (LootItem item) q]) (loot_id item) q
  = Some inv.
Proof.
  induction inv as [|e inv IH]; intros Hnot; simpl.
  - rewrite String.eqb_refl. replace (q - q) with 0 by lia. reflexivity.
  - destruct (String.eqb_spec (item_id (InventoryItem.item e)) (loot_id item)) as [E|E].
    + exfalso. apply Hnot. now left.
    + rewrite IH; [reflexivity|]. intros H. apply Hnot. now right.
Qed.

(** X11. Adding an item and removing the same quantity of its id is a
    round trip: when [add_to_inventory] succeeds on an inventory whose
    quantities are positive, [remove_from_inventory] with the item's id
    and the same quantity returns True and restores the hero exactly. *)
Theorem inventory_round_trip :
  forall hero item quantity,
    Forall (fun e => 0 < InventoryItem.quantity e) (Hero.inventory hero) ->
    fst (Hero.add_to_inventory hero item quantity) = true ->
    Hero.remove_from_inventory
      (snd (Hero.add_to_inventory hero item quantity)) (loot_id item) quantity
    = (true, hero).
Proof.
  intros hero item quantity Hpos Hok. unfold Hero.add_to_inventory in *.
  destruct (Hero.bump_quantity (Hero.inventory hero) (loot_id item) quantity)
    as [inv'|] eqn:Hb.
  - unfold Hero.remove_from_inventory. simpl.
    rewrite (drop_after_bump _ _ _ _ Hpos Hb).
    now rewrite set_inventory_twice, set_inventory_same.
  - destruct (Config.MAX_INVENTORY_SIZE <=? length (Hero.inventory hero))%nat;
      [discriminate|].
    apply bump_quantity_None in Hb.
    unfold Hero.remove_from_inventory. simpl.
    rewrite (drop_after_append _ _ _ Hb).
    now rewrite set_inventory_twice, set_inventory_same.
Qed.

Lemma inventory_round_trip_witness :
  Hero.remove_from_inventory
    (snd (Hero.add_to_inventory hero (LootWeapon sword) 2)) "sword" 2
  = (true, hero).
Proof.
  apply (inventory_round_trip hero (LootWeapon sword) 2).
  - constructor.
  - reflexivity.
Defined.

End InventoryRoundTrip.

(** ** systems/progression.py: stat growth and recipe fragments *)

Section GrowthFacts.
Import Spec Scenario.
Import ProgressionSystem.

Lemma gain_level_growth h :
  let '(t, f, a, r) := growth (Hero.role h) in
  Hero.throughput (gain_level h) = Hero.throughput h + t /\
  Hero.formula_power (gain_level h) = Hero.formula_power h + f /\
  Hero.rate_agility (gain_level h) = Hero.rate_agility h + a /\
  Hero.error_resilience (gain_level h) = Hero.error_resilience h + r.
Proof.
  unfold gain_level, _apply_level_up. simpl.
  destruct (Hero.role h); simpl; repeat split; lia.
Qed.

Lemma gain_level_belongings h : same_belongings h (gain_level h).
Proof.
  unfold same_belongings, gain_level, _apply_level_up. simpl.
  destruct (Hero.role h) eqn:E; simpl; repeat split; congruence.
Qed.

Lemma iter_gain_level_belongings k h :
  same_belongings h (Nat.iter k gain_level h).
Proof.
  induction k as [|k IH]; [now repeat split|].
  rewrite Nat.iter_succ.
  destruct (gain_level_belongings (Nat.iter k gain_level h))
    as (H1 & H2 & H3 & H4 & H5 & H6 & H7 & H8).
  destruct IH as (I1 & I2 & I3 & I4 & I5 & I6 & I7 & I8).
  repeat split; congruence.
Qed.

Lemma iter_gain_level_growth k h :
  let '(t, f, a, r) := growth (Hero.role h) in
  Hero.throughput (Nat.iter k gain_level h) = Hero.throughput h + Z.of_nat k * t /\
  Hero.formula_power (Nat.iter k gain_level h)
  = Hero.formula_power h + Z.of_nat k * f /\
  Hero.rate_agility (Nat.iter k gain_level h) = Hero.rate_agility h + Z.of_nat k * a /\
  Hero.error_resilience (Nat.iter k gain_level h)
  = Hero.error_resilience h + Z.of_nat k * r.
Proof.
  induction k as [|k IH].
  - destruct (growth (Hero.role h)) as [[[t f] a] r]. simpl. lia.
  - rewrite Nat.iter_succ.
    pose proof (gain_level_growth (Nat.iter k gain_level h)) as Hstep.
    destruct (iter_gain_level_belongings k h) as (_ & Hrole & _).
    rewrite Hrole in Hstep.
    destruct (growth (Hero.role h)) as [[[t f] a] r].
    destruct IH as (I1 & I2 & I3 & I4). destruct Hstep as (S1 & S2 & S3 & S4).
    rewrite S1, S2, S3, S4, I1, I2, I3, I4. lia.
Qed.

(** X12. Stat growth.  When [add_experience] raises a hero by k levels,
    each stat grows by k times the per-level growth of the hero's role
    (warrior: throughput 2, resilience 1; mage: formula power 2, agility 1;
    rogue: agility 2, throughput 1; cleric: resilience 2, formula power 1),
    and name, role, gold, inventory, equipment, status effects, skills and
    recipe fragments stay as they were. *)
Theorem level_up_growth :
  forall hero xp g,
    0 <= Hero.level hero ->
    exists k msgs hero',
      add_experience hero xp g = Ok (((0 <? k)%nat, msgs, hero'), advance k g) /\
      Hero.level hero' = Hero.level hero + Z.of_nat k /\
      (let '(t, f, a, r) := growth (Hero.role hero) in
       Hero.throughput hero' = Hero.throughput hero + Z.of_nat k * t /\
       Hero.formula_power hero' = Hero.formula_power hero + Z.of_nat k * f /\
       Hero.rate_agility hero' = Hero.rate_agility hero + Z.of_nat k * a /\
       Hero.error_resilience hero' = Hero.error_resilience hero + Z.of_nat k * r) /\
      same_belongings hero hero'.
Proof.
  intros hero xp g Hlevel.
  destruct (add_experience_run hero xp g Hlevel) as (k & msgs & Hrun & _).
  exists k, msgs, (Nat.iter k gain_level (Hero.set_xp hero (Hero.xp hero + xp))).
  split; [exact Hrun|]. split; [now rewrite iter_gain_level_level|]. split.
  - exact (iter_gain_level_growth k (Hero.set_xp hero (Hero.xp hero + xp))).
  - exact (iter_gain_level_belongings k (Hero.set_xp hero (Hero.xp hero + xp))).
Qed.

Lemma level_up_growth_witness :
  exists k msgs hero',
    add_experience hero 500 (rng_of_list []) 
    = Ok (((0 <? k)%nat, msgs, hero'), advance k (rng_of_list [])) /\
    Hero.level hero' = Hero.level hero + Z.of_nat k /\
    (let '(t, f, a, r) := growth (Hero.role hero) in
     Hero.throughput hero' = Hero.throughput hero + Z.of_nat k * t /\
     Hero.formula_power hero' = Hero.formula_power hero + Z.of_nat k * f /\
     Hero.rate_agility hero' = Hero.rate_agility hero + Z.of_nat k * a /\
     Hero.error_resilience hero' = Hero.error_resilience hero + Z.of_nat k * r) /\
    same_belongings hero hero'.
Proof.
  apply (level_up_growth hero 500 (rng_of_list [])). simpl. lia.
Defined.

(** X13. Recipe fragments.  [add_recipe_fragment] raises the fragment
    count by one and reports a bonus exactly when the new count is a
    multiple of 3.  On a bonus the maximum uptime is recomputed from the
    stats, which for a hero whose maximum was in step with its stats is a
    rise of exactly 5; current uptime is not raised.  Without a bonus
    nothing but the count changes. *)
Theorem recipe_fragment_bonus :
  forall hero,
    let bonus := fst (fst (add_recipe_fragment hero)) in
    let hero' := snd (add_recipe_fragment hero) in
    Hero.recipe_fragments hero' = Hero.recipe_fragments hero + 1 /\
    (bonus = true <-> (Hero.recipe_fragments hero + 1) mod 3 = 0) /\
    (bonus = true ->
     Hero.max_uptime hero' = Hero.calculate_max_uptime hero' /\
     (Hero.max_uptime hero = Hero.calculate_max_uptime hero ->
      Hero.max_uptime hero' = Hero.max_uptime hero + 5) /\
     Hero.uptime hero' = Hero.uptime hero) /\
    (bonus = false ->
     hero' = Hero.set_recipe_fragments hero (Hero.recipe_fragments hero + 1)).
Proof.
  intros hero. unfold add_recipe_fragment. simpl.
  destruct (Z.eqb_spec ((Hero.recipe_fragments hero + 1) mod 3) 0) as [E|E]; simpl.
  - split; [reflexivity|]. split; [tauto|]. split; [|discriminate].
    intros _. split; [reflexivity|]. split; [|reflexivity].
    intros Hsync. rewrite Hsync. unfold Hero.calculate_max_uptime. simpl.
    pose proof (Z.div_mod (Hero.recipe_fragments hero + 1) 3 ltac:(lia)) as H1.
    pose proof (Z.div_mod (Hero.recipe_fragments hero) 3 ltac:(lia)) as H2.
    pose proof (Z.mod_pos_bound (Hero.recipe_fragments hero) 3 ltac:(lia)) as H3.
    lia.
  - split; [reflexivity|]. split; [split; [discriminate|contradiction]|].
    split; [discriminate|reflexivity].
Qed.

Lemma recipe_fragment_bonus_witness :
  Hero.max_uptime (snd (add_recipe_fragment (Hero.set_recipe_fragments packed_hero 2)))
  = Hero.calculate_max_uptime
      (snd (add_recipe_fragment (Hero.set_recipe_fragments packed_hero 2))) /\
  snd (add_recipe_fragment hero) = Hero.set_recipe_fragments hero (0 + 1).
Proof.
  split.
  - apply (proj1 (proj2 (proj2 (recipe_fragment_bonus
                                  (Hero.set_recipe_fragments packed_hero 2))))).
    reflexivity.
  - apply (proj2 (proj2 (proj2 (recipe_fragment_bonus hero)))).
    reflexivity.
Defined.

End GrowthFacts.

(** ** models/combat.py and systems/combat.py: turns and attacks *)

Section TurnFacts.
Import Spec Scenario.

Lemma next_turn_steps k :
  forall c,
    0 <= CombatState.current_turn_index c ->
    CombatState.current_turn_index c + Z.of_nat k
    < Z.of_nat (length (CombatState.turn_order c)) ->
    Nat.iter k CombatState.next_turn c
    = CombatState.set_turn c (CombatState.current_turn_index c + Z.of_nat k)
        (CombatState.round_num c).
Proof.
  induction k as [|k IH]; intros c H0 Hk.
  - simpl. rewrite Z.add_0_r. now destruct c.
  - rewrite Nat.iter_succ, IH by lia. unfold CombatState.next_turn. simpl.
    destruct (Z.leb_spec (Z.of_nat (length (CombatState.turn_order c)))
                (CombatState.current_turn_index c + Z.of_nat k + 1)); [lia|].
    unfold CombatState.set_turn. simpl. f_equal. lia.
Qed.

(** X14. Turn pointer.  With the pointer inside the turn order,
    [get_current_turn] names the entry at the pointer, [next_turn] keeps
    the pointer inside and changes nothing but pointer and round, and as
    many calls as there are combatants bring the pointer back to where it
    was with the round number raised by exactly one. *)
Theorem next_turn_cycle :
  forall c,
    0 <= CombatState.current_turn_index c
      < Z.of_nat (length (CombatState.turn_order c)) ->
    CombatState.turn_order c !! Z.to_nat (CombatState.current_turn_index c)
    = Some (CombatState.get_current_turn c) /\
    0 <= CombatState.current_turn_index (CombatState.next_turn c)
      < Z.of_nat (length (CombatState.turn_order (CombatState.next_turn c))) /\
    CombatState.next_turn c
    = CombatState.set_turn c
        (CombatState.current_turn_index (CombatState.next_turn c))
        (CombatState.round_num (CombatState.next_turn c)) /\
    Nat.iter (length (CombatState.turn_order c)) CombatState.next_turn c
    = CombatState.set_turn c (CombatState.current_turn_index c)
        (CombatState.round_num c + 1).
Proof.
  intros c [H0 Hn]. split; [|split; [|split]].
  - unfold CombatState.get_current_turn.
    destruct (CombatState.turn_order c) as [|first rest] eqn:E; [simpl in Hn; lia|].
    rewrite Z.mod_small by lia.
    destruct (lookup_lt_is_Some_2 (first :: rest)
                (Z.to_nat (CombatState.current_turn_index c))) as [x Hx].
    { apply Nat2Z.inj_lt. rewrite Z2Nat.id by lia. lia. }
    rewrite Hx. f_equal. symmetry. now apply nth_lookup_Some.
  - unfold CombatState.next_turn.
    destruct (Z.leb_spec (Z.of_nat (length (CombatState.turn_order c)))
                (CombatState.current_turn_index c + 1)); simpl; lia.
  - unfold CombatState.next_turn.
    destruct (Z.leb_spec (Z.of_nat (length (CombatState.turn_order c)))
                (CombatState.current_turn_index c + 1)); reflexivity.
  - set (n := length (CombatState.turn_order c)) in *.
    set (i := Z.to_nat (CombatState.current_turn_index c)).
    assert (Hi : Z.of_nat i = CombatState.current_turn_index c)
      by (unfold i; lia).
    replace n with (i + S (n - i - 1))%nat by lia.
    rewrite Nat.iter_add, Nat.iter_succ.
    rewrite (next_turn_steps (n - i - 1) c) by (fold n; lia).
    assert (Hwrap :
      CombatState.next_turn
        (CombatState.set_turn c
           (CombatState.current_turn_index c + Z.of_nat (n - i - 1))
           (CombatState.round_num c))
      = CombatState.set_turn c 0 (CombatState.round_num c + 1)).
    { unfold CombatState.next_turn. simpl. fold n.
      destruct (Z.leb_spec (Z.of_nat n)
                  (CombatState.current_turn_index c + Z.of_nat (n - i - 1) + 1));
        [reflexivity|lia]. }
    rewrite Hwrap, next_turn_steps by (simpl; fold n; lia).
    unfold CombatState.set_turn. simpl. f_equal. lia.
Qed.

Lemma next_turn_cycle_witness :
  CombatState.turn_order combat !! Z.to_nat (CombatState.current_turn_index combat)
  = Some (CombatState.get_current_turn combat) /\
  0 <= CombatState.current_turn_index (CombatState.next_turn combat)
    < Z.of_nat (length (CombatState.turn_order (CombatState.next_turn combat))) /\
  CombatState.next_turn combat
  = CombatState.set_turn combat
      (CombatState.current_turn_index (CombatState.next_turn combat))
      (CombatState.round_num (CombatState.next_turn combat)) /\
  Nat.iter (length (CombatState.turn_order combat)) CombatState.next_turn combat
  = CombatState.set_turn combat (CombatState.current_turn_index combat)
      (CombatState.round_num combat + 1).
Proof. apply (next_turn_cycle combat). simpl. lia. Defined.

Lemma insert_head_perm {A} (l : list A) :
  forall j a b, l !! j = Some b -> b :: <[ j := a ]> l ≡ₚ a :: l.
Proof.
  induction l as [|x l IH]; intros [|j] a b H; simpl in *; try discriminate.
  - injection H as ->. apply perm_swap.
  - rewrite perm_swap. rewrite (IH j a b H). apply perm_swap.
Qed.

Lemma swap_perm {A} (l : list A) : forall i j, swap l i j ≡ₚ l.
Proof.
  unfold swap. induction l as [|x l IH]; intros i j.
  - now destruct i.
  - destruct i as [|i], j as [|j]; simpl.
    + reflexivity.
    + destruct (l !! j) as [b|] eqn:Hj; [|reflexivity].
      now apply insert_head_perm.
    + destruct (l !! i) as [a|] eqn:Hi; [|reflexivity].
      now apply insert_head_perm.
    + specialize (IH i j).
      destruct (l !! i) as [a|]; [|reflexivity].
      destruct (l !! j) as [b|]; [|reflexivity].
      now rewrite IH.
Qed.

Lemma shuffle_from_perm {A} i :
  forall (l : list A) g,
    exists l', shuffle_from i l g = Ok (l', advance i g) /\ l' ≡ₚ l.
Proof.
  induction i as [|i IH]; intros l g.
  - exists l. split; [now destruct g|reflexivity].
  - cbn [shuffle_from]. unfold bind, draw.
    destruct (IH (swap l (S i) (Z.to_nat (tape g (cursor g) mod Z.of_nat (S (S i)))))
                (MkRng (tape g) (S (cursor g)))) as (l' & Hrun & Hperm).
    exists l'. split.
    + rewrite Hrun. unfold advance. simpl. do 3 f_equal. lia.
    + rewrite Hperm. apply swap_perm.
Qed.

(** X15. [initialize_combat] always succeeds: the new combat is active, at
    round 1 with the pointer at 0, the hero not defending and no enemy
    counted as defeated; its turn order is a rearrangement of the hero and
    one slot per enemy, so the hero is in it exactly once; and it consumes
    one random draw per enemy. *)
Theorem initialize_combat_contract :
  forall hero enemies g,
    exists order,
      CombatSystem.initialize_combat hero enemies g
      = Ok (CombatState.Make true enemies order 0 1 false false 0,
            advance (length enemies) g) /\
      order ≡ₚ combatants enemies /\
      length order = S (length enemies).
Proof.
  intros hero enemies g. unfold CombatSystem.initialize_combat, shuffle.
  fold (combatants enemies).
  assert (Hlen : length (combatants enemies) = S (length enemies)).
  { unfold combatants. simpl. now rewrite length_map, length_seq. }
  rewrite Hlen. simpl Nat.pred.
  destruct (shuffle_from_perm (length enemies) (combatants enemies) g)
    as (order & Hrun & Hperm).
  exists order. split; [|split].
  - now rewrite (bind_Ok _ _ _ _ _ Hrun).
  - exact Hperm.
  - now rewrite Hperm.
Qed.



End TurnFacts.

(** ** systems/generation.py: enemies, bosses and loot *)

Section PopulationFacts.
Import Spec Scenario.
Import DungeonGenerator.

Lemma random_choice_In {A} (l : list A) g x g' :
  random_choice l g = Ok (x, g') -> In x l /\ g' = advance 1 g.
Proof.
  intros H. destruct l as [|a l]; [discriminate|].
  destruct (random_choice_total (a :: l) g ltac:(discriminate)) as (y & Hy & Hin).
  rewrite Hy in H. injection H as <- <-. now split.
Qed.

Lemma randint_inv a b g r g' :
  randint a b g = Ok (r, g') -> a <= r <= b /\ g' = advance 1 g.
Proof.
  intros H. unfold randint in H.
  destruct (Z.ltb_spec b a) as [|Hab]; [discriminate|].
  destruct (randint_in_range a b g Hab) as (r0 & Hr & Hbound).
  unfold randint in Hr. destruct (Z.ltb_spec b a); [lia|].
  rewrite Hr in H. injection H as <- <-. now split.
Qed.

Lemma filter_by_drop_rate_run {A} (rate : A -> Q) pool :
  forall g, exists kept g',
    filter_by_drop_rate rate pool g = Ok (kept, g') /\
    forall x, In x kept -> In x pool.
Proof.
  induction pool as [|item pool IH]; intros g.
  - exists [], g. split; [reflexivity|tauto].
  - simpl. unfold bind at 1. unfold random_random, bind at 1, draw, ret at 1.
    destruct (IH (MkRng (tape g) (S (cursor g)))) as (kept & g' & Hrun & Hin).
    unfold bind. rewrite Hrun. unfold ret.
    eexists _, g'. split; [reflexivity|].
    intros x. destruct (Qle_bool _ _); simpl; intros Hx.
    + right. now apply Hin.
    + destruct Hx as [->|Hx]; [now left|right; now apply Hin].
Qed.

Lemma loot_slot_run self g :
  exists slot g',
    loot_slot self g = Ok (slot, g') /\
    forall item, slot = Some item -> from_tables self item.
Proof.
  unfold loot_slot.
  destruct (random_choice_total [Weapons; ArmorPieces; Consumables] g
              ltac:(discriminate)) as (ty & Hty & _).
  rewrite (bind_Ok _ _ _ _ _ Hty).
  assert (Havail : exists available g1,
    (match ty with
     | Weapons =>
         let* l := filter_by_drop_rate Weapon.drop_rate (weapons self) in
         ret (map LootWeapon l)
     | ArmorPieces =>
         let* l := filter_by_drop_rate Armor.drop_rate (armor self) in
         ret (map LootArmor l)
     | Consumables =>
         let* l := filter_by_drop_rate Consumable.drop_rate (consumables self) in
         ret (map LootConsumable l)
     end) (advance 1 g) = Ok (available, g1) /\
    forall item, In item available -> from_tables self item).
  { destruct ty.
    - destruct (filter_by_drop_rate_run Weapon.drop_rate (weapons self) (advance 1 g))
        as (kept & g1 & Hrun & Hin).
      exists (map LootWeapon kept), g1. rewrite (bind_Ok _ _ _ _ _ Hrun).
      split; [reflexivity|]. intros item Hitem.
      apply in_map_iff in Hitem as (w & <- & Hw). now apply Hin.
    - destruct (filter_by_drop_rate_run Armor.drop_rate (armor self) (advance 1 g))
        as (kept & g1 & Hrun & Hin).
      exists (map LootArmor kept), g1. rewrite (bind_Ok _ _ _ _ _ Hrun).
      split; [reflexivity|]. intros item Hitem.
      apply in_map_iff in Hitem as (w & <- & Hw). now apply Hin.
    - destruct (filter_by_drop_rate_run Consumable.drop_rate (consumables self)
                  (advance 1 g)) as (kept & g1 & Hrun & Hin).
      exists (map LootConsumable kept), g1. rewrite (bind_Ok _ _ _ _ _ Hrun).
      split; [reflexivity|]. intros item Hitem.
      apply in_map_iff in Hitem as (w & <- & Hw). now apply Hin. }
  destruct Havail as (available & g1 & Hrun & Hin).
  rewrite (bind_Ok _ _ _ _ _ Hrun).
  destruct available as [|a available].
  - exists None, g1. split; [reflexivity|discriminate].
  - destruct (random_choice_total (a :: available) g1 ltac:(discriminate))
      as (item & Hitem & Hmem).
    exists (Some item), (advance 1 g1). rewrite (bind_Ok _ _ _ _ _ Hitem).
    split; [reflexivity|]. intros item' [= <-]. now apply Hin.
Qed.

Lemma loot_loop_run self n :
  forall loot g,
    Forall (from_tables self) loot ->
    exists loot' g',
      loot_loop self n loot g = Ok (loot', g') /\
      Forall (from_tables self) loot' /\
      (length loot' <= n + length loot)%nat.
Proof.
  induction n as [|n IH]; intros loot g Hloot.
  - exists loot, g. split; [reflexivity|]. split; [assumption|lia].
  - simpl. destruct (loot_slot_run self g) as (slot & g1 & Hslot & Hfrom).
    rewrite (bind_Ok _ _ _ _ _ Hslot).
    destruct slot as [item|].
    + destruct (IH (loot ++ [item]) g1) as (loot' & g' & Hrun & Hall & Hlen).
      { apply Forall_app. split; [assumption|]. constructor; [|constructor].
        now apply Hfrom. }
      exists loot', g'. split; [exact Hrun|]. split; [exact Hall|].
      rewrite length_app in Hlen. simpl in Hlen. lia.
    + destruct (IH loot g1 Hloot) as (loot' & g' & Hrun & Hall & Hlen).
      exists loot', g'. split; [exact Hrun|]. split; [exact Hall|]. lia.
Qed.

(** X17. [_generate_loot] never fails.  It returns at most [quantity]
    items, none for a quantity of 0 or less, and every item is one of the
    generator's own weapons, armor pieces or consumables; a slot whose
    drop-rate filter leaves nothing is skipped, which is why fewer items
    than asked for may come back. *)
Theorem generate_loot_total :
  forall self depth min_tier quantity g,
    exists loot g',
      _generate_loot self depth min_tier quantity g = Ok (loot, g') /\
      Forall (from_tables self) loot /\
      Z.of_nat (length loot) <= Z.max 0 quantity /\
      (quantity <= 0 -> loot = [] /\ g' = g).
Proof.
  intros self depth min_tier quantity g. unfold _generate_loot.
  destruct (loot_loop_run self (Z.to_nat quantity) [] g ltac:(constructor))
    as (loot & g' & Hrun & Hall & Hlen).
  exists loot, g'. split; [exact Hrun|]. split; [exact Hall|].
  simpl in Hlen. split; [lia|].
  intros Hq. replace (Z.to_nat quantity) with 0%nat in Hrun by lia.
  simpl in Hrun. injection Hrun as <- <-. now split.
Qed.

Lemma scaled_from_template pool t h :
  In t pool ->
  from_template pool (Enemy.set_max_hp (Enemy.set_hp t h) (Enemy.hp (Enemy.set_hp t h))).
Proof.
  intros Hin. split; [reflexivity|]. exists t. split; [exact Hin|]. now destruct t.
Qed.

Lemma enemies_loop_inv pool depth n :
  forall acc g enemies g',
    enemies_loop pool depth n acc g = Ok (enemies, g') ->
    Forall (from_template pool) acc ->
    Forall (from_template pool) enemies /\
    length enemies = (n + length acc)%nat.
Proof.
  induction n as [|n IH]; intros acc g enemies g' H Hacc; simpl in H.
  - injection H as <- _. now split.
  - apply bind_inv in H as (t & g1 & Hpick & H).
    apply random_choice_In in Hpick as [Hin _].
    apply IH in H as [Hall Hlen].
    + split; [exact Hall|]. rewrite length_app in Hlen. simpl in Hlen. lia.
    + apply Forall_app. split; [assumption|]. constructor; [|constructor].
      now apply scaled_from_template.
Qed.

Lemma enemies_loop_run pool depth n :
  pool <> [] ->
  forall acc g, exists enemies,
    enemies_loop pool depth n acc g = Ok (enemies, advance n g).
Proof.
  intros Hne. induction n as [|n IH]; intros acc g.
  - exists acc. now destruct g.
  - simpl. destruct (random_choice_total pool g Hne) as (t & Ht & _).
    rewrite (bind_Ok _ _ _ _ _ Ht).
    match goal with |- context [enemies_loop pool depth n ?a _] =>
      destruct (IH a (advance 1 g)) as (enemies & Hrun) end.
    exists enemies. rewrite Hrun. unfold advance. simpl. do 3 f_equal. lia.
Qed.

Lemma tier_and_count depth g tier count g1 :
  (if depth <=? 3 then
     let* count := randint 1 2 in ret (Enemy.common, count)
   else if depth <=? 6 then
     let* count := randint 1 3 in ret (Enemy.uncommon, count)
   else if depth <=? 9 then
     let* count := randint 1 2 in ret (Enemy.rare, count)
   else
     let* tier := random_choice [Enemy.uncommon; Enemy.rare] in
     let* count := randint 2 3 in ret (tier, count)) g = Ok ((tier, count), g1) ->
  (depth <= 3 -> tier = Enemy.common /\ 1 <= count <= 2) /\
  (3 < depth <= 6 -> tier = Enemy.uncommon /\ 1 <= count <= 3) /\
  (6 < depth <= 9 -> tier = Enemy.rare /\ 1 <= count <= 2) /\
  (9 < depth ->
   (tier = Enemy.uncommon \/ tier = Enemy.rare) /\ 2 <= count <= 3).
Proof.
  intros H.
  destruct (Z.leb_spec depth 3);
    [|destruct (Z.leb_spec depth 6); [|destruct (Z.leb_spec depth 9)]].
  - apply bind_inv in H as (c & g0 & Hc & H). injection H as <- <- _.
    apply randint_inv in Hc as [Hc _].
    repeat split; intros; try lia.
  - apply bind_inv in H as (c & g0 & Hc & H). injection H as <- <- _.
    apply randint_inv in Hc as [Hc _].
    repeat split; intros; try lia.
  - apply bind_inv in H as (c & g0 & Hc & H). injection H as <- <- _.
    apply randint_inv in Hc as [Hc _].
    repeat split; intros; try lia.
  - apply bind_inv in H as (ty & g0 & Hty & H).
    apply bind_inv in H as (c & g2 & Hc & H). injection H as <- <- _.
    apply randint_inv in Hc as [Hc _].
    apply random_choice_In in Hty as [Hty _].
    repeat split; intros; try lia.
    destruct Hty as [<-|[<-|[]]]; [now left|now right].
Qed.

Lemma tier_and_count_run depth g :
  exists tier count g1,
    (if depth <=? 3 then
       let* count := randint 1 2 in ret (Enemy.common, count)
     else if depth <=? 6 then
       let* count := randint 1 3 in ret (Enemy.uncommon, count)
     else if depth <=? 9 then
       let* count := randint 1 2 in ret (Enemy.rare, count)
     else
       let* tier := random_choice [Enemy.uncommon; Enemy.rare] in
       let* count := randint 2 3 in ret (tier, count)) g
    = Ok ((tier, count), g1).
Proof.
  destruct (depth <=? 3); [|destruct (depth <=? 6); [|destruct (depth <=? 9)]].
  - destruct (randint_in_range 1 2 g ltac:(lia)) as (c & Hc & _).
    eexists _, c, _. now rewrite (bind_Ok _ _ _ _ _ Hc).
  - destruct (randint_in_range 1 3 g ltac:(lia)) as (c & Hc & _).
    eexists _, c, _. now rewrite (bind_Ok _ _ _ _ _ Hc).
  - destruct (randint_in_range 1 2 g ltac:(lia)) as (c & Hc & _).
    eexists _, c, _. now rewrite (bind_Ok _ _ _ _ _ Hc).
  - destruct (random_choice_total [Enemy.uncommon; Enemy.rare] g
                ltac:(discriminate)) as (ty & Hty & _).
    destruct (randint_in_range 2 3 (advance 1 g) ltac:(lia)) as (c & Hc & _).
    eexists ty, c, _. rewrite (bind_Ok _ _ _ _ _ Hty).
    now rewrite (bind_Ok _ _ _ _ _ Hc).
Qed.

(** X18. [_generate_enemies].  Whenever it returns, the number of enemies
    is 1 to 2 up to depth 3, 1 to 3 up to depth 6, 1 to 2 up to depth 9 and
    2 to 3 beyond; the enemies come from the pool of the tier of that depth
    band (common, uncommon, rare, and uncommon or rare beyond depth 9) and
    differ from their templates only in health, with health equal to
    maximum health.  It returns whenever every pool is non-empty, and
    raises IndexError when every pool is empty. *)
Theorem generate_enemies_contract :
  forall self depth room_type g,
    (forall enemies g',
        _generate_enemies self depth room_type g = Ok (enemies, g') ->
        exists tier,
          Forall (from_template (enemy_data self tier)) enemies /\
          (depth <= 3 ->
           tier = Enemy.common /\ (1 <= length enemies <= 2)%nat) /\
          (3 < depth <= 6 ->
           tier = Enemy.uncommon /\ (1 <= length enemies <= 3)%nat) /\
          (6 < depth <= 9 ->
           tier = Enemy.rare /\ (1 <= length enemies <= 2)%nat) /\
          (9 < depth ->
           (tier = Enemy.uncommon \/ tier = Enemy.rare) /\
           (2 <= length enemies <= 3)%nat)) /\
    ((forall tier, enemy_data self tier <> []) ->
     exists enemies g', _generate_enemies self depth room_type g = Ok (enemies, g')) /\
    ((forall tier, enemy_data self tier = []) ->
     _generate_enemies self depth room_type g = Raise IndexError).
Proof.
  intros self depth room_type g. split; [|split].
  - intros enemies g' H. unfold _generate_enemies in H.
    apply bind_inv in H as ([tier count] & g1 & Hpick & Hloop).
    apply tier_and_count in Hpick as (H1 & H2 & H3 & H4).
    apply enemies_loop_inv in Hloop as [Hall Hlen]; [|constructor].
    simpl in Hlen. exists tier. split; [exact Hall|].
    split; [|split; [|split]]; intros Hd;
      [ destruct (H1 Hd) | destruct (H2 Hd)
      | destruct (H3 Hd) | destruct (H4 Hd) ];
      (split; [assumption|lia]).
  - intros Hpools. unfold _generate_enemies.
    destruct (tier_and_count_run depth g) as (tier & count & g1 & Hpick).
    rewrite (bind_Ok _ _ _ _ _ Hpick).
    destruct (enemies_loop_run (enemy_data self tier) depth (Z.to_nat count)
                (Hpools tier) [] g1) as (enemies & Hrun).
    now exists enemies, (advance (Z.to_nat count) g1).
  - intros Hpools. unfold _generate_enemies.
    destruct (tier_and_count_run depth g) as (tier & count & g1 & Hpick).
    rewrite (bind_Ok _ _ _ _ _ Hpick).
    apply tier_and_count in Hpick as (H1 & H2 & H3 & H4).
    assert (Hcount : 1 <= count) by
      (destruct (Z.le_gt_cases depth 3); [destruct H1; lia|];
       destruct (Z.le_gt_cases depth 6); [destruct H2; lia|];
       destruct (Z.le_gt_cases depth 9); [destruct H3; lia|];
       destruct H4; lia).
    rewrite Hpools. destruct (Z.to_nat count) eqn:En; [lia|reflexivity].
Qed.

Lemma generate_enemies_contract_witness :
  exists enemies g',
    _generate_enemies armory 2 Room.corridor (rng_of_list [1]) = Ok (enemies, g').
Proof.
  apply (proj1 (proj2 (generate_enemies_contract armory 2 Room.corridor
                         (rng_of_list [1])))).
  intros tier. discriminate.
Defined.

End PopulationFacts.

(** ** systems/generation.py: rooms and levels *)

Section LevelFacts.
Import Spec Scenario.
Import DungeonGenerator.

Lemma py_index_nil {A} i g : py_index (@nil A) i g = Raise IndexError.
Proof.
  unfold py_index. change (Z.of_nat (length (@nil A))) with 0.
  destruct (i <? 0) eqn:E.
  - rewrite Z.add_0_r, E. reflexivity.
  - rewrite E. apply Z.ltb_ge in E.
    destruct (Z.leb_spec 0 i) as [_|Hlt]; [|lia].
    destruct (([] : list A) !! Z.to_nat i); reflexivity.
Qed.

Lemma py_index_ok {A} (l : list A) i g :
  let n := Z.of_nat (length l) in
  let j := if i <? 0 then i + n else i in
  0 <= j < n ->
  exists x, py_index l i g = Ok (x, g) /\ l !! Z.to_nat j = Some x.
Proof.
  intros n j Hj. unfold py_index. fold n. fold j.
  destruct (Z.ltb_spec j 0); [lia|]. destruct (Z.leb_spec n j); [lia|]. simpl.
  destruct (lookup_lt_is_Some_2 l (Z.to_nat j)) as [x Hx]; [lia|].
  exists x. now rewrite Hx.
Qed.

(** X19. [_generate_boss_enemy].  With a non-empty boss pool and a depth of
    0 or more it returns exactly one boss without consuming randomness:
    the boss at position depth // 5 - 1, capped at the last one; below
    depth 5 that position is -1, which Python reads from the end, so the
    boss is the last of the pool.  The boss differs from its template only
    in health, with health equal to maximum health.  An empty boss pool
    raises IndexError at every depth. *)
Theorem generate_boss_contract :
  forall self depth g,
    (enemy_data self Enemy.boss = [] ->
     _generate_boss_enemy self depth g = Raise IndexError) /\
    (0 <= depth -> enemy_data self Enemy.boss <> [] ->
     exists t b,
       _generate_boss_enemy self depth g = Ok ([b], g) /\
       enemy_data self Enemy.boss
         !! Z.to_nat (if depth <? 5
                      then Z.of_nat (length (enemy_data self Enemy.boss)) - 1
                      else Z.min (depth / 5 - 1)
                             (Z.of_nat (length (enemy_data self Enemy.boss)) - 1))
       = Some t /\
       Enemy.hp b = Enemy.max_hp b /\
       Enemy.set_max_hp (Enemy.set_hp b (Enemy.hp t)) (Enemy.max_hp t) = t).
Proof.
  intros self depth g. unfold _generate_boss_enemy. split.
  - intros ->. unfold bind. now rewrite py_index_nil.
  - intros Hdepth Hne.
    set (pool := enemy_data self Enemy.boss) in *.
    set (n := Z.of_nat (length pool)).
    assert (Hn : 1 <= n) by (unfold n; destruct pool; [contradiction|simpl; lia]).
    pose proof (Z.div_mod depth 5 ltac:(lia)) as Hdiv.
    pose proof (Z.mod_pos_bound depth 5 ltac:(lia)) as Hmod.
    set (index := if n <=? depth / 5 - 1 then n - 1 else depth / 5 - 1).
    assert (Hpos :
      (if index <? 0 then index + n else index)
      = if depth <? 5 then n - 1 else Z.min (depth / 5 - 1) (n - 1)).
    { unfold index.
      destruct (Z.leb_spec n (depth / 5 - 1)), (Z.ltb_spec depth 5);
        try (destruct (Z.ltb_spec (n - 1) 0));
        try (destruct (Z.ltb_spec (depth / 5 - 1) 0)); lia. }
    destruct (py_index_ok pool index g) as (t & Hrun & Hlook).
    { fold n. rewrite Hpos. destruct (Z.ltb_spec depth 5); lia. }
    fold n in Hlook. rewrite Hpos in Hlook.
    rewrite (bind_Ok _ _ _ _ _ Hrun).
    eexists t, _. split; [reflexivity|]. split; [exact Hlook|].
    split; [reflexivity|]. now destruct t.
Qed.

Lemma generate_boss_contract_witness :
  exists t b,
    _generate_boss_enemy armory 3 (rng_of_list []) = Ok ([b], rng_of_list []) /\
    enemy_data armory Enemy.boss
      !! Z.to_nat (if 3 <? 5
                   then Z.of_nat (length (enemy_data armory Enemy.boss)) - 1
                   else Z.min (3 / 5 - 1)
                          (Z.of_nat (length (enemy_data armory Enemy.boss)) - 1))
    = Some t /\
    Enemy.hp b = Enemy.max_hp b /\
    Enemy.set_max_hp (Enemy.set_hp b (Enemy.hp t)) (Enemy.max_hp t) = t.
Proof.
  apply (proj2 (generate_boss_contract armory 3 (rng_of_list []))).
  - lia.
  - discriminate.
Defined.

Lemma bisect_In {A} (pw : list (A * Q)) :
  forall acc r last, In (bisect pw acc r last) (last :: map fst pw).
Proof.
  induction pw as [|[x w] pw IH]; intros acc r last; simpl.
  - now left.
  - destruct (Qle_bool (acc + w) r).
    + right. apply IH.
    + right. now left.
Qed.

Lemma random_choices_In {A} (pw : list (A * Q)) g x g' :
  random_choices pw g = Ok (x, g') -> In x (map fst pw).
Proof.
  destruct pw as [|[x0 w0] pw]; [discriminate|].
  unfold random_choices. intros H.
  apply bind_inv in H as (u & g1 & _ & H).
  match type of H with
  | ret (bisect ?l ?a ?r ?d) _ = _ =>
      pose proof (bisect_In l a r d) as Hin; set (b := bisect l a r d) in *
  end.
  injection H as <- _.
  destruct Hin as [E|Hin]; [rewrite <- E; now left|exact Hin].
Qed.

Lemma generate_enemies_length self depth room_type g enemies g' :
  _generate_enemies self depth room_type g = Ok (enemies, g') ->
  (1 <= length enemies <= 3)%nat.
Proof.
  intros H. unfold _generate_enemies in H.
  apply bind_inv in H as ([tier count] & g1 & Hpick & Hloop).
  apply tier_and_count in Hpick as (H1 & H2 & H3 & H4).
  apply enemies_loop_inv in Hloop as [_ Hlen]; [|constructor]. simpl in Hlen.
  destruct (Z.le_gt_cases depth 3); [destruct H1; lia|].
  destruct (Z.le_gt_cases depth 6); [destruct H2; lia|].
  destruct (Z.le_gt_cases depth 9); [destruct H3; lia|].
  destruct H4; lia.
Qed.

Lemma generate_loot_length self depth min_tier a b g q g1 loot g' :
  randint a b g = Ok (q, g1) ->
  _generate_loot self depth min_tier q g1 = Ok (loot, g') ->
  0 <= b -> (length loot <= Z.to_nat b)%nat.
Proof.
  intros Hq Hloot Hb. apply randint_inv in Hq as [Hq _].
  apply loot_loop_length in Hloot. simpl in Hloot. lia.
Qed.

Lemma generate_boss_length self depth g enemies g' :
  _generate_boss_enemy self depth g = Ok (enemies, g') -> length enemies = 1%nat.
Proof.
  unfold _generate_boss_enemy. intros H.
  apply bind_inv in H as (b & g1 & _ & H). now injection H as <- _.
Qed.

Lemma generate_room_inv self depth room_type g room g' :
  generate_room self depth room_type g = Ok (room, g') ->
  well_formed depth room_type room.
Proof.
  unfold generate_room. intros H.
  apply bind_inv in H as (ty & g1 & Hty & H).
  apply bind_inv in H as (n & g2 & Hn & H).
  apply bind_inv in H as (description & g3 & _ & H).
  apply bind_inv in H as (system_name & g4 & _ & H).
  apply randint_inv in Hn as [Hn _].
  assert (Htype : (forall ty0, room_type = Some ty0 -> ty = ty0) /\
                  (room_type = None -> (ty = Room.boss <-> depth mod 5 = 0))).
  { destruct room_type as [ty0|].
    - injection Hty as <- _. split; [now intros ty1 [= <-]|discriminate].
    - split; [discriminate|]. intros _.
      destruct (Z.eqb_spec (depth mod 5) 0) as [E|E].
      + injection Hty as <- _. tauto.
      + apply random_choices_In in Hty. simpl in Hty.
        split; [|contradiction]. intros ->.
        destruct Hty as [Hty|[Hty|[Hty|[Hty|[]]]]]; discriminate. }
  destruct Htype as [Hforced Hboss].
  destruct ty.
  - apply bind_inv in H as (enemies & g5 & Hen & H).
    apply bind_inv in H as (q & g6 & Hq & H).
    apply bind_inv in H as (items & g7 & Hloot & H).
    injection H as <- _. unfold well_formed. simpl.
    split; [exact Hforced|]. split; [exact Hboss|].
    split; [now exists n|]. repeat (split; [reflexivity|]).
    split; [exact (generate_enemies_length _ _ _ _ _ _ Hen)|].
    exact (generate_loot_length _ _ _ _ _ _ _ _ _ _ Hq Hloot ltac:(lia)).
  - apply bind_inv in H as (enemies & g5 & Hen & H).
    apply bind_inv in H as (q & g6 & Hq & H).
    apply bind_inv in H as (items & g7 & Hloot & H).
    injection H as <- _. unfold well_formed. simpl.
    split; [exact Hforced|]. split; [exact Hboss|].
    split; [now exists n|]. repeat (split; [reflexivity|]).
    split; [exact (generate_enemies_length _ _ _ _ _ _ Hen)|].
    exact (generate_loot_length _ _ _ _ _ _ _ _ _ _ Hq Hloot ltac:(lia)).
  - apply bind_inv in H as (q & g5 & Hq & H).
    apply bind_inv in H as (items & g6 & Hloot & H).
    injection H as <- _. unfold well_formed. simpl.
    split; [exact Hforced|]. split; [exact Hboss|].
    split; [now exists n|]. repeat (split; [reflexivity|]).
    exact (generate_loot_length _ _ _ _ _ _ _ _ _ _ Hq Hloot ltac:(lia)).
  - apply bind_inv in H as (enemies & g5 & Hen & H).
    injection H as <- _. unfold well_formed. simpl.
    split; [exact Hforced|]. split; [exact Hboss|].
    split; [now exists n|]. repeat (split; [reflexivity|]).
    split; [exact (generate_enemies_length _ _ _ _ _ _ Hen)|reflexivity].
  - apply bind_inv in H as (enemies & g5 & Hen & H).
    injection H as <- _. unfold well_formed. simpl.
    split; [exact Hforced|]. split; [exact Hboss|].
    split; [now exists n|]. repeat (split; [reflexivity|]).
    split; [exact (generate_boss_length _ _ _ _ _ Hen)|reflexivity].
Qed.

(** X20. Every room [generate_room] returns has the requested type, or,
    when none is requested, is a boss room exactly at the depths divisible
    by 5; its id is the type, the depth and a number from 1000 to 9999
    joined by underscores; it starts undiscovered, uncleared and without
    exits; corridors and chambers hold 1 to 3 enemies and at most 2 items,
    treasure rooms no enemy and at most 4 items, trap rooms 1 to 3 enemies
    and no item, boss rooms exactly one enemy and no item. *)
Theorem generate_room_shape :
  forall self depth room_type g room g',
    generate_room self depth room_type g = Ok (room, g') ->
    (forall ty, room_type = Some ty -> Room.room_type room = ty) /\
    (room_type = None -> (Room.room_type room = Room.boss <-> depth mod 5 = 0)) /\
    (exists n, 1000 <= n <= 9999 /\
       Room.id room
       = (room_type_tag (Room.room_type room) ++ "_" ++ pretty depth ++ "_"
          ++ pretty n)%string) /\
    Room.depth room = depth /\ Room.exits room = ∅ /\
    Room.is_cleared room = false /\ Room.is_discovered room = false /\
    match Room.room_type room with
    | Room.corridor | Room.chamber =>
        (1 <= length (Room.enemies room) <= 3)%nat /\
        (length (Room.items room) <= 2)%nat
    | Room.treasure =>
        Room.enemies room = [] /\ (length (Room.items room) <= 4)%nat
    | Room.trap =>
        (1 <= length (Room.enemies room) <= 3)%nat /\ Room.items room = []
    | Room.boss => length (Room.enemies room) = 1%nat /\ Room.items room = []
    end.
Proof. intros self depth room_type g room g'. apply generate_room_inv. Qed.

Lemma generate_room_shape_witness : well_formed 3 (Some Room.treasure) vault.
Proof.
  apply (generate_room_shape armory 3 (Some Room.treasure) (rng_of_list []) vault
           (advance 10 (rng_of_list []))).
  vm_compute. reflexivity.
Defined.

Lemma dict_set_keys rooms key room k :
  In k (map fst (dict_set rooms key room)) -> k = key \/ In k (map fst rooms).
Proof.
  induction rooms as [|[k0 r0] rooms IH]; simpl.
  - intros [<-|[]]. now left.
  - destruct (String.eqb_spec k0 key) as [E|E]; simpl.
    + tauto.
    + intros [<-|H]; [right; now left|]. destruct (IH H); tauto.
Qed.

Lemma dict_set_NoDup rooms key room :
  NoDup (map fst rooms) -> NoDup (map fst (dict_set rooms key room)).
Proof.
  induction rooms as [|[k0 r0] rooms IH]; simpl; intros Hnd.
  - apply NoDup_cons. split; [intros H; inversion H|constructor].
  - apply NoDup_cons in Hnd as [Hnotin Hnd].
    destruct (String.eqb_spec k0 key) as [E|E]; simpl.
    + apply NoDup_cons. now split.
    + apply NoDup_cons. split; [|now apply IH].
      intros Hin%list_elem_of_In. apply dict_set_keys in Hin as [->|Hin].
      * contradiction.
      * apply Hnotin. now apply list_elem_of_In.
Qed.

Lemma dict_set_Forall (P : string * Room.t -> Prop) rooms key room :
  Forall P rooms -> (forall k, k = key -> P (k, room)) ->
  Forall P (dict_set rooms key room).
Proof.
  intros Hall Hnew. induction Hall as [|[k0 r0] rooms Hx Hall IH]; simpl.
  - constructor; [now apply Hnew|constructor].
  - destruct (String.eqb_spec k0 key) as [E|E].
    + constructor; [now apply Hnew|assumption].
    + constructor; assumption.
Qed.

Lemma dict_set_length rooms key room :
  (1 <= length (dict_set rooms key room) <= S (length rooms))%nat.
Proof.
  induction rooms as [|[k0 r0] rooms IH]; simpl; [lia|].
  destruct (String.eqb k0 key); simpl; lia.
Qed.

Lemma dict_set_grows rooms key room :
  (length rooms <= length (dict_set rooms key room))%nat.
Proof.
  induction rooms as [|[k0 r0] rooms IH]; simpl; [lia|].
  destruct (String.eqb k0 key); simpl; lia.
Qed.

Lemma rooms_loop_inv self depth room_count indices :
  forall rooms g rooms' g',
    rooms_loop self depth room_count indices rooms g = Ok (rooms', g') ->
    NoDup (map fst rooms) ->
    Forall (level_room depth) rooms ->
    Forall (fun entry => Room.exits (snd entry) = ∅) rooms ->
    NoDup (map fst rooms') /\
    Forall (level_room depth) rooms' /\
    Forall (fun entry => Room.exits (snd entry) = ∅) rooms' /\
    (length rooms <= length rooms' <= length indices + length rooms)%nat /\
    (indices <> [] -> (1 <= length rooms')%nat).
Proof.
  induction indices as [|i indices IH]; intros rooms g rooms' g' H Hnd Hall Hex;
    simpl in H.
  - injection H as <- _.
    split; [assumption|]. split; [assumption|]. split; [assumption|].
    split; [simpl; lia|congruence].
  - apply bind_inv in H as (room & g1 & Hroom & H).
    assert (Hwf : Room.depth room = depth /\ Room.exits room = ∅ /\
                  (Room.room_type room = Room.boss <-> depth mod 5 = 0)).
    { destruct ((Z.of_nat i =? room_count - 1) && (depth mod 5 =? 0)) eqn:E.
      - apply andb_prop in E as [_ E%Z.eqb_eq].
        apply generate_room_inv in Hroom as (Hty & _ & _ & Hd & Hex' & _).
        split; [exact Hd|]. split; [exact Hex'|].
        rewrite (Hty Room.boss eq_refl). tauto.
      - apply generate_room_inv in Hroom as (_ & Hty & _ & Hd & Hex' & _).
        split; [exact Hd|]. split; [exact Hex'|]. now apply Hty. }
    destruct Hwf as (Hd & Hex' & Hboss).
    pose proof (dict_set_length rooms (Room.id room) room) as Hlen.
    pose proof (dict_set_grows rooms (Room.id room) room) as Hgrow.
    apply IH in H as (Hnd' & Hall' & Hex'' & Hlen' & Hne).
    + split; [assumption|]. split; [assumption|]. split; [assumption|].
      simpl. split; lia.
    + now apply dict_set_NoDup.
    + apply dict_set_Forall; [assumption|]. intros k ->.
      split; [reflexivity|]. split; [exact Hd|exact Hboss].
    + apply dict_set_Forall; [assumption|]. now intros k ->.
Qed.

Lemma dict_link_here (before : RoomDict) k r after target :
  ~ In k (map fst before) ->
  dict_link (before ++ (k, r) :: after) k target
  = Some (before
          ++ (k, Room.set_exits r (<[ "north"%string := target ]> (Room.exits r)))
             :: after).
Proof.
  induction before as [|[k0 r0] before IH]; simpl; intros Hnot.
  - now rewrite String.eqb_refl.
  - destruct (String.eqb_spec k0 k) as [E|E]; [tauto|].
    rewrite IH by tauto. reflexivity.
Qed.

Lemma link_loop_linked (rest : RoomDict) :
  forall (before : RoomDict) g,
    NoDup (map fst (before ++ rest)) ->
    link_loop (map fst rest) (before ++ rest) g = Ok (before ++ linked rest, g).
Proof.
  induction rest as [|[k r] rest IH]; intros before g Hnd.
  - reflexivity.
  - destruct rest as [|[k' r'] rest].
    + reflexivity.
    + change (link_loop (map fst ((k, r) :: (k', r') :: rest))
                (before ++ (k, r) :: (k', r') :: rest) g)
        with (match dict_link (before ++ (k, r) :: (k', r') :: rest) k k' with
              | Some rooms' => link_loop (map fst ((k', r') :: rest)) rooms'
              | None => raise KeyError
              end g).
      rewrite dict_link_here.
      2:{ rewrite map_app in Hnd. apply NoDup_app in Hnd as (_ & Hdisj & _).
          intros Hin%list_elem_of_In. apply (Hdisj k Hin). simpl. left. }
      set (r1 := Room.set_exits r (<[ "north"%string := k' ]> (Room.exits r))).
      replace (before ++ (k, r1) :: (k', r') :: rest)
        with ((before ++ [(k, r1)]) ++ (k', r') :: rest)
        by (now rewrite <- app_assoc).
      rewrite (IH (before ++ [(k, r1)]) g).
      * rewrite <- app_assoc. reflexivity.
      * rewrite <- app_assoc. rewrite map_app in *. exact Hnd.
Qed.

Lemma linked_keys rooms : map fst (linked rooms) = map fst rooms.
Proof.
  induction rooms as [|[k r] rooms IH]; [reflexivity|]. simpl. now rewrite IH.
Qed.

Lemma linked_level depth rooms :
  Forall (level_room depth) rooms -> Forall (level_room depth) (linked rooms).
Proof.
  induction 1 as [|[k r] rooms Hx Hall IH]; [constructor|].
  simpl. constructor; [|exact IH].
  destruct rooms as [|[k' r'] rooms]; exact Hx.
Qed.

Lemma linked_exits rooms :
  Forall (fun entry => Room.exits (snd entry) = ∅) rooms ->
  forall i k r,
    linked rooms !! i = Some (k, r) ->
    Room.exits r
    = match linked rooms !! S i with
      | Some (k', _) => {[ "north"%string := k' ]}
      | None => ∅
      end.
Proof.
  induction 1 as [|[k0 r0] rooms Hx Hall IH]; intros i k r Hi; [discriminate|].
  destruct i as [|i].
  - simpl in Hi. injection Hi as <- <-. simpl in Hx.
    destruct rooms as [|[k' r'] rooms]; simpl.
    + exact Hx.
    + rewrite Hx. apply insert_empty.
  - simpl in Hi. apply IH in Hi. exact Hi.
Qed.

(** X21. A level that [generate_dungeon_level] returns holds at most
    [room_count] rooms (fewer when two rooms draw the same id) and at least
    one when a room was asked for; every room is stored under its own id,
    ids are not repeated, and every room has the level's depth.  At a depth
    divisible by 5 every room of the level is a boss room, and at any other
    depth none is.  The rooms form one chain: the only exit of each room is
    north, to the room after it, and the last room has no exit.  Once the
    rooms are generated the linking cannot fail and uses no randomness. *)
Theorem dungeon_level_contract :
  forall self depth room_count g,
    (forall rooms0 g0,
        rooms_loop self depth room_count (seq 0 (Z.to_nat room_count)) [] g
        = Ok (rooms0, g0) ->
        generate_dungeon_level self depth room_count g = Ok (linked rooms0, g0)) /\
    (forall rooms g',
        generate_dungeon_level self depth room_count g = Ok (rooms, g') ->
        Z.of_nat (length rooms) <= Z.max 0 room_count /\
        (0 < room_count -> rooms <> []) /\
        NoDup (map fst rooms) /\
        Forall (level_room depth) rooms /\
        (forall i k r,
            rooms !! i = Some (k, r) ->
            Room.exits r
            = match rooms !! S i with
              | Some (k', _) => {[ "north"%string := k' ]}
              | None => ∅
              end)).
Proof.
  intros self depth room_count g. unfold generate_dungeon_level, bind.
  destruct (rooms_loop self depth room_count (seq 0 (Z.to_nat room_count)) [] g)
    as [[rooms0 g0]|e] eqn:Hloop; [|split; intros; discriminate].
  apply rooms_loop_inv in Hloop as (Hnd & Hall & Hex & Hlen & Hne);
    [|constructor|constructor|constructor].
  pose proof (link_loop_linked rooms0 [] g0 Hnd) as Hlink. simpl in Hlink.
  rewrite Hlink. split; [now intros rooms1 g1 [= <- <-]|].
  intros rooms g' [= <- <-]. split; [|split; [|split; [|split]]].
  - rewrite length_seq in Hlen. simpl in Hlen.
    assert (Hl : length (linked rooms0) = length rooms0).
    { rewrite <- (length_map fst (linked rooms0)), linked_keys.
      apply length_map. }
    lia.
  - intros Hpos Hnil.
    assert (H1 : (1 <= length rooms0)%nat).
    { apply Hne. destruct (Z.to_nat room_count) eqn:E; [lia|discriminate]. }
    destruct rooms0 as [|[k r] rooms0]; [simpl in H1; lia|discriminate].
  - now rewrite linked_keys.
  - now apply linked_level.
  - now apply linked_exits.
Qed.

Lemma dungeon_level_contract_witness :
  Z.of_nat (length armory_level) <= Z.max 0 2 /\
  (0 < 2 -> armory_level <> []) /\
  NoDup (map fst armory_level) /\
  Forall (level_room 3) armory_level /\
  (forall i k r,
      armory_level !! i = Some (k, r) ->
      Room.exits r
      = match armory_level !! S i with
        | Some (k', _) => {[ "north"%string := k' ]}
        | None => ∅
        end).
Proof.
  apply (proj2 (dungeon_level_contract armory 3 2 (rng_of_list level_draws))
           armory_level (advance 14 (rng_of_list level_draws))).
  vm_compute. reflexivity.
Defined.

End LevelFacts.

(** ** server.py: rest and flee *)

Section RestFacts.
Import Spec Scenario.
Import Server.












End RestFacts.

(** ** server.py: defend *)

Section DefendFacts.
Import Spec Scenario.
Import Server.






End DefendFacts.

(** ** server.py: pickup, use_item and the item branch of examine *)

Section ItemFacts.
Import Spec Scenario.
Import Server.














Lemma find_enemy_None target enemies :
  Forall (fun e => matches_alive target e = false) enemies ->
  find_enemy target enemies = None.
Proof.
  induction 1 as [|e enemies He _ IH]; simpl; [reflexivity|].
  now rewrite He, IH.
Qed.

(** X27. Examining an item.  When no living enemy of the room is named by
    the text, examine looks at the first item of the room whose name
    contains it: a weapon or an armor piece is described and nothing
    changes; a consumable, which has no tier to print, makes the tool raise
    AttributeError; and with no such item the tool reports an invalid
    target and changes nothing.  A defeated enemy is never the target. *)
Theorem examine_item :
  forall target game_states game_state room g,
    game_states !! "default"%string = Some game_state ->
    GameState.get_current_room game_state = Some room ->
    Forall (fun e => names_enemy target e = false \/ Enemy.hp e <= 0)
      (Room.enemies room) ->
    examine target game_states g
    = match find_item target (Room.items room) with
      | Some (LootConsumable _) => Raise AttributeError
      | Some item => Ok ((RespExaminedItem item, game_states), g)
      | None => Ok ((RespError (invalid_target target), game_states), g)
      end.
Proof.
  intros target game_states game_state room g Hsession Hroom Hnone.
  unfold examine, get_or_create_game_state. rewrite Hsession, Hroom.
  rewrite find_enemy_None.
  - destruct (find_item target (Room.items room)) as [[w|a|c]|]; reflexivity.
  - eapply Forall_impl; [exact Hnone|]. intros e [H|H]; unfold matches_alive.
    + unfold names_enemy in H. now rewrite H.
    + destruct (Z.ltb_spec 0 (Enemy.hp e)); [lia|apply andb_false_r].
Qed.

Lemma examine_item_witness :
  examine "http" vault_sessions (rng_of_list [])
  = Ok ((RespExaminedItem (LootWeapon http_client), vault_sessions), rng_of_list []).
Proof.
  apply (examine_item "http" vault_sessions vault_game vault (rng_of_list [])
           eq_refl eq_refl).
  constructor.
Defined.

End ItemFacts.

(** ** server.py: the tools in sequence *)

Section SequenceFacts.
Import Spec Scenario.
Import Server.

Lemma flee_escaped game_states g game_states' g' :
  flee game_states g = Ok ((Fled, game_states'), g') ->
  exists game_state combat,
    game_states !! "default"%string = Some game_state /\
    GameState.combat game_state = Some combat /\
    game_states'
    = <[ "default"%string :=
           GameState.set_combat game_state
             (Some (CombatState.set_active combat false)) ]> game_states.
Proof.
  unfold flee, get_or_create_game_state. intros H.
  destruct (game_states !! "default"%string) as [game_state|] eqn:Hsession;
    [|discriminate].
  destruct (GameState.combat game_state) as [combat|] eqn:Hcombat; [|discriminate].
  destruct (CombatState.active combat); [|discriminate].
  change (negb true) with false in H. cbv iota in H.
  apply bind_inv in H as (r & g1 & _ & H).
  destruct (negb (Qle_bool (flee_chance (GameState.hero game_state)) r)).
  - injection H as <- _. now exists game_state, combat.
  - destruct (GameState.get_current_room game_state) as [room|]; [|discriminate].
    apply bind_inv in H as ([[hero' messages] game_over] & g2 & _ & H).
    destruct game_over; discriminate.
Qed.

(** X28. An escape ends the combat for the other tools.  After flee has
    reported an escape, hero and dungeon are as before, a second flee and
    a defend are refused as not in combat and change nothing, and rest is
    no longer refused for being in combat. *)
Theorem escape_ends_combat :
  forall game_states g game_states' g',
    flee game_states g = Ok ((Fled, game_states'), g') ->
    (exists game_state game_state',
        game_states !! "default"%string = Some game_state /\
        game_states' !! "default"%string = Some game_state' /\
        GameState.hero game_state' = GameState.hero game_state /\
        GameState.dungeon_map game_state' = GameState.dungeon_map game_state /\
        GameState.is_in_combat game_state' = false) /\
    (forall g2,
        flee game_states' g2 = Ok ((Failed not_in_combat, game_states'), g2)) /\
    (forall g2,
        defend game_states' g2 = Ok ((Failed not_in_combat, game_states'), g2)) /\
    (forall dungeon_gen g2 reply game_states2 g3,
        rest dungeon_gen game_states' g2 = Ok ((reply, game_states2), g3) ->
        reply <> Failed rest_in_combat).
Proof.
  intros game_states g game_states' g' H.
  apply flee_escaped in H as (game_state & combat & Hsession & Hcombat & ->).
  set (game_state' := GameState.set_combat game_state
                        (Some (CombatState.set_active combat false))).
  assert (Hsession' : <[ "default"%string := game_state' ]> game_states
                      !! "default"%string = Some game_state')
    by apply lookup_insert_eq.
  split; [|split; [|split]].
  - exists game_state, game_state'. now repeat split.
  - intros g2. unfold flee, get_or_create_game_state. now rewrite Hsession'.
  - intros g2. unfold defend, get_or_create_game_state. now rewrite Hsession'.
  - intros dungeon_gen g2 reply game_states2 g3 Hrest.
    unfold rest, get_or_create_game_state in Hrest. rewrite Hsession' in Hrest.
    change (GameState.is_in_combat game_state') with false in Hrest.
    cbv iota in Hrest.
    apply bind_inv in Hrest as (r & g4 & _ & Hrest).
    destruct (Qle_bool Config.REST_ENCOUNTER_CHANCE r).
    + injection Hrest as <- _ _. discriminate.
    + destruct (GameState.get_current_room _) as [room|]; [|discriminate].
      apply bind_inv in Hrest as (new & g5 & _ & Hrest).
      destruct new; [discriminate|]. injection Hrest as <- _ _. discriminate.
Qed.

Lemma escape_ends_combat_witness :
  (exists game_state game_state',
      fight_sessions !! "default"%string = Some game_state /\
      escaped_sessions !! "default"%string = Some game_state' /\
      GameState.hero game_state' = GameState.hero game_state /\
      GameState.dungeon_map game_state' = GameState.dungeon_map game_state /\
      GameState.is_in_combat game_state' = false) /\
  (forall g2,
      flee escaped_sessions g2 = Ok ((Failed not_in_combat, escaped_sessions), g2)) /\
  (forall g2,
      defend escaped_sessions g2
      = Ok ((Failed not_in_combat, escaped_sessions), g2)) /\
  (forall dungeon_gen g2 reply game_states2 g3,
      rest dungeon_gen escaped_sessions g2 = Ok ((reply, game_states2), g3) ->
      reply <> Failed rest_in_combat).
Proof.
  apply (escape_ends_combat fight_sessions (rng_of_list []) escaped_sessions
           (advance 1 (rng_of_list []))).
  reflexivity.
Defined.

End SequenceFacts.
